(** * Crawl orchestration engine: the server's two job runners

    A shallow embedding of the job server: the Site runner [startCrawler],
    the Gather runner [startGatherer], the two HTTP entry points and the
    [stop-crawl] socket handler, together with the platform string
    operations they call.

    Conventions.
    - A JavaScript string is a [string] whose characters are its code
      units; the model covers code units below 256.
    - [undefined] is [None].
    - The parsed document ([$]) is a record of the answers to the queries
      the handlers make ([Page]).
    - The crawling library is the environment: it decides which requests
      reach the request handler and how [run] settles. *)

From Stdlib Require Import ZArith List String Ascii Bool Arith Lia DecimalString.
Import ListNotations.
Open Scope string_scope.
Open Scope list_scope.
Open Scope nat_scope.

(* ================================================================== *)
(** ** Platform string operations *)

Module Js.

Definition code (c : ascii) : nat := nat_of_ascii c.

(** White space and line terminators recognised by [trim], restricted
    to one-byte code units: TAB, LF, VT, FF, CR, SP, NBSP. *)
Definition isWhiteSpace (c : ascii) : bool :=
  ((9 <=? code c) && (code c <=? 13)) || (code c =? 32) || (code c =? 160).

Fixpoint trimStart (s : string) : string :=
  match s with
  | EmptyString => EmptyString
  | String c s' => if isWhiteSpace c then trimStart s' else s
  end.

Fixpoint trimEnd (s : string) : string :=
  match s with
  | EmptyString => EmptyString
  | String c s' =>
      match trimEnd s' with
      | EmptyString => if isWhiteSpace c then EmptyString else String c EmptyString
      | t => String c t
      end
  end.

Definition trim (s : string) : string := trimEnd (trimStart s).

(** Lower-casing of one code unit: A-Z and the Latin-1 capitals. *)
Definition lowerChar (c : ascii) : ascii :=
  if ((65 <=? code c) && (code c <=? 90))
     || ((192 <=? code c) && (code c <=? 222) && negb (code c =? 215))
  then ascii_of_nat (code c + 32) else c.

Fixpoint toLowerCase (s : string) : string :=
  match s with
  | EmptyString => EmptyString
  | String c s' => String (lowerChar c) (toLowerCase s')
  end.

Fixpoint startsWith (s p : string) {struct p} : bool :=
  match p with
  | EmptyString => true
  | String a p' =>
      match s with
      | EmptyString => false
      | String b s' => Ascii.eqb a b && startsWith s' p'
      end
  end.

(** [s.includes(k)]: [k] occurs somewhere in [s]. *)
Fixpoint includes (s k : string) : bool :=
  startsWith s k
  || match s with
     | EmptyString => false
     | String _ s' => includes s' k
     end.

(** [s.split(sep)] for a one-character separator: always at least one
    segment. *)
Fixpoint split (sep : ascii) (s : string) : list string :=
  match s with
  | EmptyString => [EmptyString]
  | String c s' =>
      if Ascii.eqb c sep then EmptyString :: split sep s'
      else match split sep s' with
           | h :: t => String c h :: t
           | [] => [String c EmptyString]
           end
  end.

(** Truthiness of a string: non-empty. *)
Definition truthy (s : string) : bool := negb (String.eqb s "").

(** Truthiness of a possibly undefined string. *)
Definition truthyOpt (o : option string) : bool :=
  match o with
  | Some s => truthy s
  | None => false
  end.

(** [o || d] for a possibly undefined string. *)
Definition orElse (o : option string) (d : string) : string :=
  match o with
  | Some s => if truthy s then s else d
  | None => d
  end.

(** [[...new Set(l)]]: first occurrences, in insertion order. *)
Fixpoint newSet (l : list string) : list string :=
  match l with
  | [] => []
  | x :: r => x :: filter (fun y => negb (String.eqb x y)) (newSet r)
  end.

(** [a.findIndex(p)]; [None] stands for -1. *)
Fixpoint findIndex {A : Type} (p : A -> bool) (l : list A) : option nat :=
  match l with
  | [] => None
  | x :: r => if p x then Some 0%nat else option_map S (findIndex p r)
  end.

(** [a.filter((v, i, a) => p v i a)]. *)
Definition filterIndexed {A : Type} (p : A -> nat -> list A -> bool) (a : list A) : list A :=
  map snd (filter (fun iv => p (snd iv) (fst iv) a) (combine (seq 0 (List.length a)) a)).

(** [a.slice(0, n)]. *)
Definition slice0 {A : Type} (n : nat) (a : list A) : list A := firstn n a.

(** *** parseInt *)

Definition digitValue (c : ascii) : option Z :=
  if (48 <=? code c) && (code c <=? 57) then Some (Z.of_nat (code c - 48))
  else if (97 <=? code c) && (code c <=? 122) then Some (Z.of_nat (code c - 87))
  else if (65 <=? code c) && (code c <=? 90) then Some (Z.of_nat (code c - 55))
  else None.

Fixpoint parseDigits (radix : Z) (s : string) (acc : option Z) : option Z :=
  match s with
  | EmptyString => acc
  | String c s' =>
      match digitValue c with
      | Some d =>
          if (d <? radix)%Z
          then parseDigits radix s'
                 (Some (radix * match acc with Some a => a | None => 0 end + d)%Z)
          else acc
      | None => acc
      end
  end.

Definition dropChars (n : nat) (s : string) : string :=
  substring n (String.length s - n) s.

(** [parseInt(s)] on a string: leading white space, a sign, an optional
    hexadecimal prefix, then the longest run of digits; [None] is NaN. *)
Definition parseIntString (s : string) : option Z :=
  let s1 := trimStart s in
  let '(neg, s2) :=
    match s1 with
    | String "-" r => (true, r)
    | String "+" r => (false, r)
    | _ => (false, s1)
    end in
  let '(radix, s3) :=
    if startsWith s2 "0x" || startsWith s2 "0X" then (16%Z, dropChars 2 s2)
    else (10%Z, s2) in
  match parseDigits radix s3 None with
  | Some n => Some (if neg then (- n)%Z else n)
  | None => None
  end.

(** The [limit] field of a request body: absent, a JSON integer, or a
    string (what the form sends).  [parseInt] turns a number into its
    decimal text first, so an integer comes back as it is.  The model
    computes with exact integers: it is the platform's [parseInt] for
    values up to 2^53 in size; beyond that the platform rounds to a
    double, and from 10^21 on it reads the exponent form of a number as
    its first digit. *)
Inductive Limit : Type :=
| LimitUndefined
| LimitNumber (n : Z)
| LimitString (s : string).

Definition parseInt (v : Limit) : option Z :=
  match v with
  | LimitUndefined => None
  | LimitNumber n => Some n
  | LimitString s => parseIntString s
  end.

(** [n || d] for a number: NaN and 0 are falsy. *)
Definition numOr (n : option Z) (d : Z) : Z :=
  match n with
  | Some v => if (v =? 0)%Z then d else v
  | None => d
  end.

(** [Math.ceil(a / b)] for integers [a] and positive [b].  The only use
    is under [Math.min(5, _)] with [b = 5], where the rounding of the
    quotient to a double cannot change the result. *)
Definition ceilDiv (a b : Z) : Z := (- ((- a) / b))%Z.

(** Decimal rendering of an integer in a template literal. *)
Definition numberToString (z : Z) : string := NilZero.string_of_int (Z.to_int z).

(** *** encodeURIComponent *)

Definition isUnreservedMark (c : ascii) : bool :=
  existsb (Ascii.eqb c) ["-"; "_"; "."; "!"; "~"; "*"; "'"; "("; ")"]%char.

Definition isAlphaNum (c : ascii) : bool :=
  ((48 <=? code c) && (code c <=? 57))
  || ((65 <=? code c) && (code c <=? 90))
  || ((97 <=? code c) && (code c <=? 122)).

Definition hexDigit (n : nat) : ascii :=
  nth n ["0"; "1"; "2"; "3"; "4"; "5"; "6"; "7"; "8"; "9";
         "A"; "B"; "C"; "D"; "E"; "F"]%char "0"%char.

Definition percentByte (n : nat) : string :=
  String "%" (String (hexDigit (n / 16)) (String (hexDigit (n mod 16)) EmptyString)).

(** One code unit: kept when unreserved, otherwise each byte of its
    UTF-8 form is percent-encoded. *)
Definition encodeChar (c : ascii) : string :=
  if isAlphaNum c || isUnreservedMark c then String c EmptyString
  else if code c <? 128 then percentByte (code c)
  else (percentByte (192 + code c / 64) ++ percentByte (128 + code c mod 64))%string.

Fixpoint encodeURIComponent (s : string) : string :=
  match s with
  | EmptyString => EmptyString
  | String c s' => (encodeChar c ++ encodeURIComponent s')%string
  end.

End Js.

(* ================================================================== *)
(** ** The URL constructor and its search parameters

    Only what [new URL(link, 'https://duckduckgo.com').searchParams.get]
    needs for a [link] that starts with [/l/]: such a link is a
    path-absolute reference, so its query is the text between the first
    [?] and the first [#].  Percent-decoded bytes are kept as code units.
    For bytes below 128 that is the decoded text itself.  From 128 on the
    platform reads the bytes as UTF-8 and gives one character for each
    well-formed sequence (the replacement character otherwise), where
    [percentDecode] keeps the bytes one by one; the prefix [http] and the
    text [duckduckgo.com] that the handler looks for are below 128, so a
    byte from 128 on is never part of a match in either reading. *)

Module Url.

Definition isC0OrSpace (c : ascii) : bool := Js.code c <=? 32.

Definition isTabOrNewline (c : ascii) : bool :=
  (Js.code c =? 9) || (Js.code c =? 10) || (Js.code c =? 13).

Fixpoint stripLeading (s : string) : string :=
  match s with
  | EmptyString => EmptyString
  | String c s' => if isC0OrSpace c then stripLeading s' else s
  end.

Fixpoint stripTrailing (s : string) : string :=
  match s with
  | EmptyString => EmptyString
  | String c s' =>
      match stripTrailing s' with
      | EmptyString => if isC0OrSpace c then EmptyString else String c EmptyString
      | t => String c t
      end
  end.

Fixpoint removeTabNewline (s : string) : string :=
  match s with
  | EmptyString => EmptyString
  | String c s' =>
      if isTabOrNewline c then removeTabNewline s' else String c (removeTabNewline s')
  end.

(** What the parser does to its input before reading it. *)
Definition preprocess (s : string) : string :=
  removeTabNewline (stripTrailing (stripLeading s)).

(** The text before the first [sep] (all of it when there is none). *)
Fixpoint before (sep : ascii) (s : string) : string :=
  match s with
  | EmptyString => EmptyString
  | String c s' => if Ascii.eqb c sep then EmptyString else String c (before sep s')
  end.

(** The text after the first [sep], when there is one. *)
Fixpoint after (sep : ascii) (s : string) : option string :=
  match s with
  | EmptyString => None
  | String c s' => if Ascii.eqb c sep then Some s' else after sep s'
  end.

(** The query of a path-absolute reference. *)
Definition query (link : string) : string :=
  match after "?" (before "#" (preprocess link)) with
  | Some q => q
  | None => EmptyString
  end.

Definition hexValue (c : ascii) : option nat :=
  if (48 <=? Js.code c) && (Js.code c <=? 57) then Some (Js.code c - 48)
  else if (97 <=? Js.code c) && (Js.code c <=? 102) then Some (Js.code c - 87)
  else if (65 <=? Js.code c) && (Js.code c <=? 70) then Some (Js.code c - 55)
  else None.

Fixpoint percentDecode (s : string) : string :=
  match s with
  | EmptyString => EmptyString
  | String c t =>
      if Ascii.eqb c "%" then
        match t with
        | String h (String l r) =>
            match hexValue h, hexValue l with
            | Some a, Some b => String (ascii_of_nat (16 * a + b)) (percentDecode r)
            | _, _ => String c (percentDecode t)
            end
        | _ => String c (percentDecode t)
        end
      else String c (percentDecode t)
  end.

Fixpoint plusToSpace (s : string) : string :=
  match s with
  | EmptyString => EmptyString
  | String c s' => String (if Ascii.eqb c "+" then " "%char else c) (plusToSpace s')
  end.

Definition decodeComponent (s : string) : string := percentDecode (plusToSpace s).

Definition parsePair (piece : string) : string * string :=
  (decodeComponent (before "=" piece),
   decodeComponent (match after "=" piece with Some v => v | None => EmptyString end)).

(** The name-value pairs of a query, in order; empty pieces are skipped. *)
Definition searchParams (q : string) : list (string * string) :=
  map parsePair (filter Js.truthy (Js.split "&" q)).

(** [searchParams.get(name)]: the first value under [name]. *)
Fixpoint get (name : string) (ps : list (string * string)) : option string :=
  match ps with
  | [] => None
  | (k, v) :: r => if String.eqb k name then Some v else get name r
  end.

End Url.

(* ================================================================== *)
(** ** Documents, records, events *)

(** One image element: its [src] and [alt] attributes. *)
Record Img : Type := { src : option string; alt : option string }.

(** The answers of a parsed page to the queries of the two handlers.
    Element lists are in document order; an attribute that is missing is
    [None]. *)
Record Page : Type := {
  title_text : string;                          (* $("title").text() *)
  body_text : string;                           (* $("body").text() *)
  heading_texts : list string;                  (* text of each h1, h2, h3 *)
  paragraph_texts : list string;                (* text of each p *)
  meta_description : option string;             (* meta[name="description"] content *)
  meta_keywords : option string;                (* meta[name="keywords"] content *)
  img_elements : list Img;                      (* src and alt of each img *)
  anchor_hrefs : list (option string);          (* href of each a *)
  result_a_hrefs : list (option string);        (* href of each .result__a *)
  result_title_a_hrefs : list (option string)   (* href of each .result__title a *)
}.

(** [.map(f).get()] of the document library leaves out the elements for
    which [f] gave [undefined]. *)
Fixpoint mapGet (l : list (option string)) : list string :=
  match l with
  | [] => []
  | Some x :: r => x :: mapGet r
  | None :: r => mapGet r
  end.

Record Meta : Type := { description : option string; keywords : option string }.

(** The record sent to subscribers; the five optional fields are [None]
    when the property was never assigned. *)
Record ExtractedData : Type := {
  url : string;
  title : string;
  type_ : string;
  timestamp : string;
  headings : option (list string);
  text : option (list string);
  meta : option Meta;
  images : option (list Img);
  links : option (list string)
}.

(** What [io.emit] sends: the three channels of a job. *)
Inductive Event : Type :=
| CrawlData (jobId : string) (d : ExtractedData)
| CrawlComplete (jobId : string)
| CrawlError (jobId : string) (message : string).

(** The [selectors] field of a request body. *)
Inductive Selectors : Type :=
| SelUndefined
| SelString (s : string)
| SelArray (l : list string).

Definition normalizeSelectors (selectors : Selectors) : list string :=
  match selectors with
  | SelArray l => map (fun s => Js.trim (Js.toLowerCase s)) l
  | SelString s =>
      if Js.truthy s
      then map (fun s => Js.trim (Js.toLowerCase s)) (Js.split "," s)
      else []
  | SelUndefined => []
  end.

(** A call of the handler to the library's [enqueueLinks]. *)
Inductive EnqueueCall : Type :=
| EnqueueLinks                          (* enqueueLinks() *)
| EnqueueUrl (target label : string).   (* enqueueLinks({urls: [target], label}) *)

(* ================================================================== *)
(** ** The server state *)

Record Crawler : Type := {
  maxRequestsPerCrawl : Z;
  requestHandlerTimeoutSecs : option Z
}.

(** [activeCrawlers] is the registry of running jobs, [emitted] the log
    of [io.emit] calls (oldest first), [tornDown] the job ids whose
    crawler received [teardown()]. *)
Record Server : Type := {
  activeCrawlers : list (string * Crawler);
  emitted : list Event;
  tornDown : list string
}.

Fixpoint mapLookup (jobId : string) (m : list (string * Crawler)) : option Crawler :=
  match m with
  | [] => None
  | (k, v) :: r => if String.eqb k jobId then Some v else mapLookup jobId r
  end.

Definition mapHas (jobId : string) (m : list (string * Crawler)) : bool :=
  match mapLookup jobId m with Some _ => true | None => false end.

Definition mapDelete (jobId : string) (m : list (string * Crawler)) : list (string * Crawler) :=
  filter (fun kv => negb (String.eqb (fst kv) jobId)) m.

Definition mapSet (jobId : string) (c : Crawler) (m : list (string * Crawler)) : list (string * Crawler) :=
  (jobId, c) :: mapDelete jobId m.

Definition io_emit (e : Event) (s : Server) : Server :=
  {| activeCrawlers := activeCrawlers s;
     emitted := emitted s ++ [e];
     tornDown := tornDown s |}.

Definition register (jobId : string) (c : Crawler) (s : Server) : Server :=
  {| activeCrawlers := mapSet jobId c (activeCrawlers s);
     emitted := emitted s;
     tornDown := tornDown s |}.

Definition unregister (jobId : string) (s : Server) : Server :=
  {| activeCrawlers := mapDelete jobId (activeCrawlers s);
     emitted := emitted s;
     tornDown := tornDown s |}.

(** The [stop-crawl] socket handler. *)
Definition stop_crawl (jobId : string) (s : Server) : Server :=
  match mapLookup jobId (activeCrawlers s) with
  | Some _ =>
      {| activeCrawlers := mapDelete jobId (activeCrawlers s);
         emitted := emitted s;
         tornDown := tornDown s ++ [jobId] |}
  | None => s
  end.

(** How [crawler.run] settles. *)
Inductive Outcome : Type :=
| Resolved
| Rejected (message : string).

(** What happens while [crawler.run] is pending: the library hands a
    fetched page to the request handler, or a client asks to stop a job. *)
Inductive Action : Type :=
| Handle (requestUrl now : string) (pg : Page)
| StopCrawl (jobId : string).

(** The body of every answer of the two HTTP routes. *)
Record Response : Type := { res_jobId : string; res_message : string }.

Definition nonEmpty (t : string) : bool := 0 <? String.length t.

Definition sameSrc (a b : option string) : bool :=
  match a, b with
  | Some x, Some y => String.eqb x y
  | None, None => true
  | _, _ => false
  end.

Definition isIndex (found : option nat) (i : nat) : bool :=
  match found with
  | Some j => j =? i
  | None => false
  end.

(* ================================================================== *)
(** ** Site mode: [startCrawler] *)

Module Site.

Record Job : Type := {
  jobId : string;
  normalizedSelectors : list string;
  jobKeywords : option string
}.

Definition effectiveLimit (limit : Js.Limit) : Z := Js.numOr (Js.parseInt limit) 50.

Definition extractHeadings (pg : Page) : list string :=
  Js.newSet (filter nonEmpty (map Js.trim (heading_texts pg))).

Definition extractText (pg : Page) : list string :=
  filter nonEmpty (map Js.trim (paragraph_texts pg)).

Definition extractImages (pg : Page) : list Img :=
  let images := filter (fun img => Js.truthyOpt (src img)) (img_elements pg) in
  Js.filterIndexed
    (fun v i a => isIndex (Js.findIndex (fun t => sameSrc (src t) (src v)) a) i)
    images.

Definition extractLinks (pg : Page) : list string :=
  Js.newSet (filter Js.truthy (mapGet (anchor_hrefs pg))).

Definition wantsHeadings (sels : list string) : bool :=
  existsb (fun s => Js.includes s "heading") sels.
Definition wantsText (sels : list string) : bool :=
  existsb (fun s => Js.includes s "text" || Js.includes s "paragraph") sels.
Definition wantsMeta (sels : list string) : bool :=
  existsb (fun s => Js.includes s "meta") sels.
Definition wantsImages (sels : list string) : bool :=
  existsb (fun s => Js.includes s "image") sels.
Definition wantsLinks (sels : list string) : bool :=
  existsb (fun s => Js.includes s "link" || Js.includes s "url") sels.

Definition extract (sels : list string) (requestUrl now : string) (pg : Page) : ExtractedData :=
  {| url := requestUrl;
     title := title_text pg;
     type_ := "page";
     timestamp := now;
     headings := if wantsHeadings sels then Some (extractHeadings pg) else None;
     text := if wantsText sels then Some (extractText pg) else None;
     meta := if wantsMeta sels
             then Some {| description := meta_description pg;
                          keywords := meta_keywords pg |}
             else None;
     images := if wantsImages sels then Some (extractImages pg) else None;
     links := if wantsLinks sels then Some (extractLinks pg) else None |}.

Definition keywordList (kw : string) : list string :=
  map (fun k => Js.toLowerCase (Js.trim k)) (Js.split "," kw).

Definition matchesKeywords (kws : option string) (pg : Page) : bool :=
  match kws with
  | Some kw =>
      if 0 <? String.length kw
      then let pageText := Js.toLowerCase (body_text pg) in
           existsb (fun k => Js.includes pageText k) (keywordList kw)
      else true
  | None => true
  end.

Definition requestHandler (job : Job) (requestUrl now : string) (pg : Page)
    (s : Server) : Server * list EnqueueCall :=
  if negb (mapHas (jobId job) (activeCrawlers s)) then (s, [])
  else
    let extractedData := extract (normalizedSelectors job) requestUrl now pg in
    let s' := if matchesKeywords (jobKeywords job) pg
              then io_emit (CrawlData (jobId job) extractedData) s
              else s in
    (s', [EnqueueLinks]).

(** [startCrawler] up to its first suspension: the crawler is built and
    registered, then [crawler.run([url])] is pending. *)
Definition startCrawler_begin (id : string) (target : option string)
    (selectors : Selectors) (kws : option string) (limit : Js.Limit)
    (type : option string) (s : Server) : Job * Server :=
  let job := {| jobId := id;
                normalizedSelectors := normalizeSelectors selectors;
                jobKeywords := kws |} in
  (job, register id {| maxRequestsPerCrawl := effectiveLimit limit;
                       requestHandlerTimeoutSecs := None |} s).

Definition step (job : Job) (s : Server) (a : Action) : Server :=
  match a with
  | Handle u now pg => fst (requestHandler job u now pg s)
  | StopCrawl j => stop_crawl j s
  end.

Definition exec (job : Job) (run : list Action) (s : Server) : Server :=
  fold_left (step job) run s.

(** [startCrawler] after [run] has settled. *)
Definition startCrawler_end (job : Job) (out : Outcome) (s : Server) : Server :=
  match out with
  | Resolved => io_emit (CrawlComplete (jobId job)) (unregister (jobId job) s)
  | Rejected message => io_emit (CrawlError (jobId job) message) s
  end.

Definition startCrawler (id : string) (target : option string)
    (selectors : Selectors) (kws : option string) (limit : Js.Limit)
    (type : option string)
    (run : list Action) (out : Outcome) (s : Server) : Server :=
  let '(job, s1) := startCrawler_begin id target selectors kws limit type s in
  startCrawler_end job out (exec job run s1).

Record Body : Type := {
  body_url : option string;
  body_selectors : Selectors;
  body_keywords : option string;
  body_limit : Js.Limit;
  body_type : option string
}.

(** [POST /api/crawl]: [now] is [Date.now().toString()].  The answer is
    sent once [startCrawler] has reached its first suspension. *)
Definition api_crawl (b : Body) (now : string) (s : Server) : Response * Server :=
  let '(_, s1) := startCrawler_begin now (body_url b) (body_selectors b)
                    (body_keywords b) (body_limit b) (body_type b) s in
  ({| res_jobId := now; res_message := "Crawler started" |}, s1).

End Site.

(* ================================================================== *)
(** ** Gather mode: [startGatherer] *)

Module Gather.

Record Job : Type := {
  jobId : string;
  searchTopic : string;
  searchKeywords : string;
  targetLimit : Z;
  normalizedSelectors : list string
}.

(** The server together with the job's own counter. *)
Record State : Type := { server : Server; emittedCount : Z }.

Definition effectiveLimit (limit : Js.Limit) : Z := Js.numOr (Js.parseInt limit) 50.

Definition itemsPerPage : Z := 30.

Definition maxPages (limit : Z) : Z := Z.min 5 (Js.ceilDiv limit 5).

Definition query (topic kws : string) : string :=
  Js.trim (topic ++ " " ++ kws)%string.

Definition searchUrl (q : string) (i : nat) : string :=
  ("https://duckduckgo.com/html/?q=" ++ Js.encodeURIComponent q
     ++ "&s=" ++ Js.numberToString (Z.of_nat i * itemsPerPage))%string.

(** The loop [for (let i = 0; i < maxPages; i++)]. *)
Definition searchUrls (topic kws : string) (limit : Z) : list string :=
  map (searchUrl (query topic kws)) (seq 0 (Z.to_nat (maxPages limit))).

Definition keywordList (kws : string) : list string :=
  filter Js.truthy (map (fun k => Js.toLowerCase (Js.trim k)) (Js.split "," kws)).

Definition matchesKeywords (kws : string) (pageTitle : string) (pg : Page) : bool :=
  if Js.truthy kws
  then let pageText := Js.toLowerCase (body_text pg) in
       let titleLower := Js.toLowerCase pageTitle in
       existsb (fun k => Js.includes pageText k || Js.includes titleLower k)
               (keywordList kws)
  else true.

Definition extractHeadings (pg : Page) : list string :=
  filter (fun t => 2 <? String.length t) (map Js.trim (heading_texts pg)).

Definition extractText (pg : Page) : list string :=
  Js.slice0 10 (filter (fun t => 20 <? String.length t) (map Js.trim (paragraph_texts pg))).

Definition isHttpSrc (o : option string) : bool :=
  match o with
  | Some s => Js.truthy s && Js.startsWith s "http"
  | None => false
  end.

Definition extractImages (pg : Page) : list Img :=
  Js.slice0 10 (filter (fun img => isHttpSrc (src img)) (img_elements pg)).

Definition extractLinks (pg : Page) : list string :=
  Js.slice0 20 (filter (fun l => Js.truthy l && Js.startsWith l "http")
                       (mapGet (anchor_hrefs pg))).

Definition wants (kind : string) (sels : list string) : bool :=
  existsb (String.eqb kind) sels.

Definition extract (sels : list string) (requestUrl pageTitle now : string)
    (pg : Page) : ExtractedData :=
  {| url := requestUrl;
     title := pageTitle;
     type_ := "gathered";
     timestamp := now;
     headings := if wants "headings" sels then Some (extractHeadings pg) else None;
     text := if wants "text" sels then Some (extractText pg) else None;
     meta := if wants "meta" sels
             then Some {| description := meta_description pg;
                          keywords := meta_keywords pg |}
             else None;
     images := if wants "images" sels then Some (extractImages pg) else None;
     links := if wants "links" sels then Some (extractLinks pg) else None |}.

(** The body of the loop over the result links, up to the test. *)
Definition resolveLink (link : string) : string :=
  if Js.startsWith link "/l/"
  then match Url.get "uddg" (Url.searchParams (Url.query link)) with
       | Some actualUrl => if Js.truthy actualUrl then actualUrl else link
       | None => link
       end
  else link.

Definition accepted (link : string) : bool :=
  Js.startsWith link "http" && negb (Js.includes link "duckduckgo.com").

Definition allLinks (pg : Page) : list string :=
  Js.newSet (mapGet (result_a_hrefs pg) ++ mapGet (result_title_a_hrefs pg)).

Definition enqueueResults (pg : Page) : list EnqueueCall :=
  flat_map (fun link =>
              let link' := resolveLink link in
              if accepted link' then [EnqueueUrl link' "DETAIL"] else [])
           (allLinks pg).

Definition emitRecord (job : Job) (d : ExtractedData) (st : State) : State :=
  {| server := io_emit (CrawlData (jobId job) d) (server st);
     emittedCount := (emittedCount st + 1)%Z |}.

Definition requestHandler (job : Job) (requestUrl now : string) (pg : Page)
    (st : State) : State * list EnqueueCall :=
  if negb (mapHas (jobId job) (activeCrawlers (server st))) then (st, [])
  else if (targetLimit job <=? emittedCount st)%Z then (st, [])
  else
    let isDDG := Js.includes requestUrl "duckduckgo.com" in
    let st' :=
      if negb isDDG then
        let pageTitle := Js.trim (title_text pg) in
        if matchesKeywords (searchKeywords job) pageTitle pg then
          let extractedData :=
            extract (normalizedSelectors job) requestUrl pageTitle now pg in
          if (emittedCount st <? targetLimit job)%Z
          then emitRecord job extractedData st
          else st
        else st
      else st in
    (st', if isDDG then enqueueResults pg else []).

(** [startGatherer] up to its first suspension.  [None]: the function
    raised, the handler of the [try] has emitted the error and the
    function is over.  [Some job]: the crawler is built and registered
    and [crawler.run(searchUrls)] is pending. *)
Definition startGatherer_begin (id : string) (topic kws : option string)
    (limit : Js.Limit) (selectors : Selectors) (s : Server)
    : option Job * Server :=
  let searchTopic := Js.orElse topic "" in
  let searchKeywords := Js.orElse kws "" in
  let targetLimit := effectiveLimit limit in
  if negb (Js.truthy searchTopic) && negb (Js.truthy searchKeywords)
  then (None, io_emit (CrawlError id "No topic or keywords provided for search.") s)
  else
    let job := {| jobId := id;
                  searchTopic := searchTopic;
                  searchKeywords := searchKeywords;
                  targetLimit := targetLimit;
                  normalizedSelectors := normalizeSelectors selectors |} in
    (Some job,
     register id {| maxRequestsPerCrawl := (targetLimit * 5)%Z;
                    requestHandlerTimeoutSecs := Some 45%Z |} s).

(** The seeds handed to [crawler.run]. *)
Definition seeds (job : Job) : list string :=
  searchUrls (searchTopic job) (searchKeywords job) (targetLimit job).

Definition step (job : Job) (st : State) (a : Action) : State :=
  match a with
  | Handle u now pg => fst (requestHandler job u now pg st)
  | StopCrawl j => {| server := stop_crawl j (server st);
                      emittedCount := emittedCount st |}
  end.

Definition exec (job : Job) (run : list Action) (st : State) : State :=
  fold_left (step job) run st.

Definition startGatherer_end (job : Job) (out : Outcome) (s : Server) : Server :=
  match out with
  | Resolved => io_emit (CrawlComplete (jobId job)) (unregister (jobId job) s)
  | Rejected message => io_emit (CrawlError (jobId job) message) s
  end.

Definition startGatherer (id : string) (topic kws : option string)
    (limit : Js.Limit) (selectors : Selectors)
    (run : list Action) (out : Outcome) (s : Server) : Server :=
  match startGatherer_begin id topic kws limit selectors s with
  | (None, s1) => s1
  | (Some job, s1) =>
      startGatherer_end job out
        (server (exec job run {| server := s1; emittedCount := 0 |}))
  end.

Record Body : Type := {
  body_topic : option string;
  body_keywords : option string;
  body_limit : Js.Limit;
  body_selectors : Selectors
}.

(** [POST /api/gather]: [now] is [Date.now().toString()]. *)
Definition api_gather (b : Body) (now : string) (s : Server) : Response * Server :=
  let '(_, s1) := startGatherer_begin now (body_topic b) (body_keywords b)
                    (body_limit b) (body_selectors b) s in
  ({| res_jobId := now; res_message := "Gatherer started" |}, s1).

End Gather.

(** The number of records sent on a job's data channel. *)
Fixpoint recordsOf (id : string) (log : list Event) : nat :=
  match log with
  | [] => 0
  | CrawlData j _ :: r => (if String.eqb j id then 1 else 0) + recordsOf id r
  | _ :: r => recordsOf id r
  end.

(** The number of pages handed to the request handler during a run. *)
Fixpoint handled (run : list Action) : nat :=
  match run with
  | [] => 0
  | Handle _ _ _ :: r => S (handled r)
  | StopCrawl _ :: r => handled r
  end.

Definition isTerminal (e : Event) : bool :=
  match e with
  | CrawlData _ _ => false
  | _ => true
  end.

(** The event with which a runner ends, given how [run] settled. *)
Definition terminalEvent (id : string) (out : Outcome) : Event :=
  match out with
  | Resolved => CrawlComplete id
  | Rejected message => CrawlError id message
  end.

(** Following the spec's words: a link is absolute when it carries an
    [http] or [https] scheme and an authority. *)
Definition spec_isAbsolute (link : string) : bool :=
  Js.startsWith link "http://" || Js.startsWith link "https://".

(** Following the spec's words: the origin of an absolute link is its
    scheme and authority, that is, everything before the first [/], [?]
    or [#] that follows the two slashes. *)
Fixpoint spec_authority (s : string) : string :=
  match s with
  | EmptyString => EmptyString
  | String c s' =>
      if Ascii.eqb c "/" || Ascii.eqb c "?" || Ascii.eqb c "#" then EmptyString
      else String c (spec_authority s')
  end.

Definition spec_origin (link : string) : string :=
  if Js.startsWith link "https://"
  then ("https://" ++ spec_authority (Js.dropChars 8 link))%string
  else if Js.startsWith link "http://"
  then ("http://" ++ spec_authority (Js.dropChars 7 link))%string
  else EmptyString.

(** Following the spec's words: the link points back at the search
    provider's own origin. *)
Definition spec_pointsAtProvider (link : string) : bool :=
  String.eqb (Js.toLowerCase (spec_origin link)) "https://duckduckgo.com".

(** Following the spec's words: a link is enqueued exactly when the
    resolved link is absolute and does not point back at the provider. *)
Definition spec_accepted (link : string) : bool :=
  spec_isAbsolute link && negb (spec_pointsAtProvider link).

Definition emptyServer : Server :=
  {| activeCrawlers := []; emitted := []; tornDown := [] |}.

(** A content page that repeats a heading, an image and a link. *)
Definition repeatingPage : Page :=
  {| title_text := "Rust";
     body_text := "All about Rust";
     heading_texts := ["Intro"; "Intro"];
     paragraph_texts := [];
     meta_description := None;
     meta_keywords := None;
     img_elements := [ {| src := Some "https://a.test/i.png"; alt := None |};
                       {| src := Some "https://a.test/i.png"; alt := Some "logo" |} ];
     anchor_hrefs := [Some "https://a.test/x"; Some "https://a.test/x"];
     result_a_hrefs := [];
     result_title_a_hrefs := [] |}.

(** A page with the given paragraphs and nothing else. *)
Definition pageOfParagraphs (ps : list string) : Page :=
  {| title_text := "";
     body_text := "";
     heading_texts := [];
     paragraph_texts := ps;
     meta_description := None;
     meta_keywords := None;
     img_elements := [];
     anchor_hrefs := [];
     result_a_hrefs := [];
     result_title_a_hrefs := [] |}.

(** A search-results page with the given result anchors. *)
Definition pageOfResults (hrefs : list string) : Page :=
  {| title_text := "";
     body_text := "";
     heading_texts := [];
     paragraph_texts := [];
     meta_description := None;
     meta_keywords := None;
     img_elements := [];
     anchor_hrefs := [];
     result_a_hrefs := map Some hrefs;
     result_title_a_hrefs := [] |}.

(** The events a server has emitted since an earlier state of it. *)
Definition eventsSince (before after : Server) : list Event :=
  skipn (List.length (emitted before)) (emitted after).

(* ================================================================== *)
(** ** Observations on runs *)

(** The job on whose channel an event travels. *)
Definition eventJob (e : Event) : string :=
  match e with
  | CrawlData j _ => j
  | CrawlComplete j => j
  | CrawlError j _ => j
  end.

(** The pages handed to the request handler during a run, in order, each
    with its request URL and the time of the call. *)
Fixpoint pagesOf (run : list Action) : list (string * string * Page) :=
  match run with
  | [] => []
  | Handle u now pg :: r => (u, now, pg) :: pagesOf r
  | StopCrawl _ :: r => pagesOf r
  end.

(** What the stop requests of a run do to the registry. *)
Definition registryAfter (run : list Action) (m : list (string * Crawler))
    : list (string * Crawler) :=
  fold_left (fun m a => match a with
                        | StopCrawl j => mapDelete j m
                        | Handle _ _ _ => m
                        end) run m.

(** The part of a run that comes before the first stop request for a
    job. *)
Fixpoint untilStop (id : string) (run : list Action) : list Action :=
  match run with
  | [] => []
  | StopCrawl j :: r => if String.eqb j id then [] else StopCrawl j :: untilStop id r
  | Handle u now pg :: r => Handle u now pg :: untilStop id r
  end.

(** The record a Site job sends for a page. *)
Definition siteRecord (job : Site.Job) (p : string * string * Page) : Event :=
  let '(u, now, pg) := p in
  CrawlData (Site.jobId job) (Site.extract (Site.normalizedSelectors job) u now pg).

(** The record a Gather job sends for a page. *)
Definition gatherRecord (job : Gather.Job) (p : string * string * Page) : Event :=
  let '(u, now, pg) := p in
  CrawlData (Gather.jobId job)
    (Gather.extract (Gather.normalizedSelectors job) u (Js.trim (title_text pg)) now pg).

(** The test the Gather handler makes before it builds a record: the
    page is no results page and passes the keyword filter. *)
Definition gatherCandidate (job : Gather.Job) (p : string * string * Page) : bool :=
  let '(u, _, pg) := p in
  negb (Js.includes u "duckduckgo.com")
  && Gather.matchesKeywords (Gather.searchKeywords job) (Js.trim (title_text pg)) pg.

Definition siteCandidate (job : Site.Job) (p : string * string * Page) : bool :=
  let '(_, _, pg) := p in Site.matchesKeywords (Site.jobKeywords job) pg.

(** The calls to [enqueueLinks] that the handler invocations of a run
    make, listed invocation by invocation in the order in which the
    invocations begin.  The handler awaits each call and checks nothing
    after its first lines, so the list says which calls are made, not
    when: in time, a call may come after a later stop request or after a
    record of another invocation.  [fineStep] below has the handler of a
    Gather job segment by segment. *)
Fixpoint siteEnqueued (job : Site.Job) (run : list Action) (s : Server)
    : list EnqueueCall :=
  match run with
  | [] => []
  | a :: r =>
      match a with
      | Handle u now pg => snd (Site.requestHandler job u now pg s)
      | StopCrawl _ => []
      end ++ siteEnqueued job r (Site.step job s a)
  end.

Fixpoint gatherEnqueued (job : Gather.Job) (run : list Action) (st : Gather.State)
    : list EnqueueCall :=
  match run with
  | [] => []
  | a :: r =>
      match a with
      | Handle u now pg => snd (Gather.requestHandler job u now pg st)
      | StopCrawl _ => []
      end ++ gatherEnqueued job r (Gather.step job st a)
  end.

(** The pages handled while a Gather job still has room: all pages up to
    and including the one that yields the [n]-th record. *)
Fixpoint untilFull (job : Gather.Job) (pages : list (string * string * Page)) (n : nat)
    : list (string * string * Page) :=
  match pages with
  | [] => []
  | p :: r =>
      match n with
      | 0 => []
      | S n' => p :: untilFull job r (if gatherCandidate job p then n' else n)
      end
  end.

(** What a page contributes to the frontier of a Gather job: the resolved
    result links of a results page, nothing for any other page. *)
Definition gatherMined (p : string * string * Page) : list EnqueueCall :=
  let '(u, _, pg) := p in
  if Js.includes u "duckduckgo.com" then Gather.enqueueResults pg else [].

(** ** The Gather handler at the grain of its suspension points

    The loop over the result links awaits every call to [enqueueLinks].
    An invocation of the handler therefore runs in segments: the first
    one makes the two checks, sends the record of a content page and, on
    a results page, goes through the links up to and including the first
    call; every later segment goes on from the awaited call to the next
    one.  Between two segments other invocations may begin and stop
    requests may arrive; no segment but the first looks at the registry
    or at the counter. *)
Inductive Tick : Type :=
| Invoke (requestUrl now : string) (pg : Page)
    (* the library calls the handler: its first segment runs *)
| Resume (k : nat)
    (* the call awaited by the k-th invocation has resolved *)
| Reject (k : nat)
    (* the call awaited by the k-th invocation has failed: the
       invocation ends there *)
| Stopped (jobId : string).
    (* a stop request arrives *)

(** A call that has been made, with what the registry and the counter
    said at the moment it was made. *)
Record Made : Type := {
  madeCall : EnqueueCall;
  whileRegistered : bool;
  withRoom : bool
}.

(** An invocation of the handler: the calls it has made, the calls of
    the links it has still to go through, and the calls it never got to
    because an awaited call failed. *)
Record Invocation : Type := {
  made : list Made;
  todo : list EnqueueCall;
  dropped : list EnqueueCall
}.

Record Fine : Type := {
  fineState : Gather.State;
  invocations : list Invocation
}.

Definition stamp (job : Gather.Job) (st : Gather.State) (c : EnqueueCall) : Made :=
  {| madeCall := c;
     whileRegistered := mapHas (Gather.jobId job) (activeCrawlers (Gather.server st));
     withRoom := (Gather.emittedCount st <? Gather.targetLimit job)%Z |}.

(** The first segment of an invocation whose loop has [calls] to make. *)
Definition begun (job : Gather.Job) (st : Gather.State) (calls : list EnqueueCall)
    : Invocation :=
  match calls with
  | [] => {| made := []; todo := []; dropped := [] |}
  | c :: rest => {| made := [stamp job st c]; todo := rest; dropped := [] |}
  end.

(** The next segment of a suspended invocation. *)
Definition advance (job : Gather.Job) (st : Gather.State) (i : Invocation) : Invocation :=
  match todo i with
  | [] => i
  | c :: rest => {| made := made i ++ [stamp job st c]; todo := rest;
                    dropped := dropped i |}
  end.

Definition abandon (i : Invocation) : Invocation :=
  {| made := made i; todo := []; dropped := todo i ++ dropped i |}.

Fixpoint atIndex {A : Type} (k : nat) (f : A -> A) (l : list A) : list A :=
  match l with
  | [] => []
  | x :: r =>
      match k with
      | 0 => f x :: r
      | S k' => x :: atIndex k' f r
      end
  end.

Definition fineStep (job : Gather.Job) (f : Fine) (t : Tick) : Fine :=
  match t with
  | Invoke u now pg =>
      let r := Gather.requestHandler job u now pg (fineState f) in
      {| fineState := fst r;
         invocations := invocations f ++ [begun job (fineState f) (snd r)] |}
  | Resume k =>
      {| fineState := fineState f;
         invocations := atIndex k (advance job (fineState f)) (invocations f) |}
  | Reject k =>
      {| fineState := fineState f;
         invocations := atIndex k abandon (invocations f) |}
  | Stopped j =>
      {| fineState := Gather.step job (fineState f) (StopCrawl j);
         invocations := invocations f |}
  end.

Definition fineExec (job : Gather.Job) (ticks : list Tick) (f : Fine) : Fine :=
  fold_left (fineStep job) ticks f.

Definition fineStart (st : Gather.State) : Fine :=
  {| fineState := st; invocations := [] |}.

(** The run of whole handler calls and stop requests that a schedule
    amounts to when the suspension points are left out. *)
Fixpoint actionsOf (ticks : list Tick) : list Action :=
  match ticks with
  | [] => []
  | Invoke u now pg :: r => Handle u now pg :: actionsOf r
  | Stopped j :: r => StopCrawl j :: actionsOf r
  | Resume _ :: r => actionsOf r
  | Reject _ :: r => actionsOf r
  end.

(** The schedule in which every invocation runs to its end before
    anything else happens. *)
Fixpoint ticksOf (run : list Action) : list Tick :=
  match run with
  | [] => []
  | Handle u now pg :: r => Invoke u now pg :: ticksOf r
  | StopCrawl j :: r => Stopped j :: ticksOf r
  end.

(** All the calls of an invocation: made, still to make, never made. *)
Definition callsOf (i : Invocation) : list EnqueueCall :=
  map madeCall (made i) ++ todo i ++ dropped i.

(** Every invocation has gone through all its links. *)
Definition settled (f : Fine) : bool :=
  forallb (fun i => match todo i, dropped i with
                    | [], [] => true
                    | _, _ => false
                    end) (invocations f).

(** The calls made so far, invocation by invocation. *)
Definition callsMade (f : Fine) : list Made := flat_map made (invocations f).

(** Every character of a string passes a test. *)
Fixpoint allChars (p : ascii -> bool) (s : string) : bool :=
  match s with
  | EmptyString => true
  | String c s' => p c && allChars p s'
  end.

Definition isAscii (c : ascii) : bool := Js.code c <? 128.

(** A string that is empty or starts with a visible character. *)
Definition leftTrimmed (s : string) : Prop :=
  match s with
  | EmptyString => True
  | String c _ => Js.isWhiteSpace c = false
  end.

(** The characters [encodeURIComponent] can put out. *)
Definition isEncoded (c : ascii) : bool :=
  Js.isAlphaNum c || Js.isUnreservedMark c || Ascii.eqb c "%".

(** A character the URL parser leaves in place inside a query: above the
    space and not the fragment sign. *)
Definition isPlain (c : ascii) : bool :=
  negb (Url.isC0OrSpace c) && negb (Ascii.eqb c "#").

(** The last character of a string, if there is one. *)
Fixpoint lastChar (s : string) : option ascii :=
  match s with
  | EmptyString => None
  | String c s' =>
      match s' with
      | EmptyString => Some c
      | String _ _ => lastChar s'
      end
  end.

(** A string that is empty or ends with a visible character. *)
Definition rightTrimmed (s : string) : Prop :=
  match lastChar s with
  | Some c => Js.isWhiteSpace c = false
  | None => True
  end.

(** The five selector ids the form offers. *)
Definition formSelectors : list string := ["text"; "headings"; "meta"; "images"; "links"].

(* ================================================================== *)
(** ** The client: what the page does with the form and with the events *)

Module App.

(** [toggleSelector]: the state update of the selector check boxes. *)
Definition toggleSelector (id : string) (prev : list string) : list string :=
  if existsb (String.eqb id) prev
  then filter (fun item => negb (String.eqb item id)) prev
  else prev ++ [id].

(** The state update of the two [dataHandler]s: a record whose URL is
    already listed is dropped, any other is appended. *)
Definition dataHandler (data : ExtractedData) (prev : list ExtractedData)
    : list ExtractedData :=
  if existsb (fun item => String.eqb (url item) (url data)) prev
  then prev
  else prev ++ [data].

(** The list after a sequence of record events, starting from the empty
    list that [startCrawl] sets. *)
Definition received (events : list ExtractedData) : list ExtractedData :=
  fold_left (fun prev data => dataHandler data prev) events [].

(** [uniqueImages]: a map from [src] to the first image seen with it;
    the result is the values in insertion order. *)
Definition addImage (map : list Img) (img : Img) : list Img :=
  if Js.truthyOpt (src img) && negb (existsb (fun t => sameSrc (src t) (src img)) map)
  then map ++ [img]
  else map.

Definition uniqueImages (extractedData : list ExtractedData) : list Img :=
  fold_left (fun map item =>
               match images item with
               | Some imgs => fold_left addImage imgs map
               | None => map
               end) extractedData [].

(** [uniqueLinks]: the set of the non-empty links, in insertion order. *)
Definition addLink (set : list string) (l : string) : list string :=
  if Js.truthy l
  then if existsb (String.eqb l) set then set else set ++ [l]
  else set.

Definition uniqueLinks (extractedData : list ExtractedData) : list string :=
  fold_left (fun set d =>
               match links d with
               | Some ls => fold_left addLink ls set
               | None => set
               end) extractedData [].

Inductive Mode : Type := ModeSite | ModeGather.

(** The form fields [startCrawl] reads. *)
Record Form : Type := {
  mode : Mode;
  formUrl : string;
  formTopic : string;
  formKeywords : string;
  formLimit : string;
  selectedSelectors : list string
}.

Inductive Request : Type :=
| PostCrawl (b : Site.Body)
| PostGather (b : Gather.Body).

(** The request [startCrawl] sends, if any: nothing when the field its
    mode needs is empty, otherwise the JSON body for the mode's route. *)
Definition startCrawl_request (f : Form) : option Request :=
  match mode f with
  | ModeSite =>
      if negb (Js.truthy (formUrl f)) then None
      else Some (PostCrawl {| Site.body_url := Some (formUrl f);
                              Site.body_selectors := SelArray (selectedSelectors f);
                              Site.body_keywords := Some (formKeywords f);
                              Site.body_limit := Js.LimitString (formLimit f);
                              Site.body_type := None |})
  | ModeGather =>
      if negb (Js.truthy (formTopic f)) then None
      else Some (PostGather {| Gather.body_topic := Some (formTopic f);
                               Gather.body_keywords := Some (formKeywords f);
                               Gather.body_limit := Js.LimitString (formLimit f);
                               Gather.body_selectors := SelArray (selectedSelectors f) |})
  end.

(** The id of a node of the graph view: [newItem.url || Math.random()]. *)
Inductive NodeId : Type :=
| IdUrl (u : string)
| IdRandom (r : nat).

Definition sameId (a b : NodeId) : bool :=
  match a, b with
  | IdUrl x, IdUrl y => String.eqb x y
  | IdRandom x, IdRandom y => x =? y
  | _, _ => false
  end.

(** The node and link lists of the graph view.  Of a node the id and the
    URL matter here; a link joins two ids. *)
Record Node : Type := { nodeId : NodeId; nodeUrl : string }.

Record Graph : Type := { nodes : list Node; graphLinks : list (NodeId * NodeId) }.

(** [shift()] after a [push] that made the list longer than 100. *)
Definition capped {A : Type} (l : list A) : list A :=
  if 100 <? List.length l then tl l else l.

(** The effect that runs when the data changes.  [rnd] and [pick] stand
    for the two random numbers: the id of a node without URL, and the
    index of the link target, which can be any index into the targets. *)
Definition addNode (data : list ExtractedData) (rnd pick : nat) (g : Graph) : Graph :=
  match rev data with
  | [] => g
  | newItem :: _ =>
      if existsb (fun n => String.eqb (nodeUrl n) (url newItem)) (nodes g) then g
      else
        let newNode := {| nodeId := if Js.truthy (url newItem)
                                    then IdUrl (url newItem) else IdRandom rnd;
                          nodeUrl := url newItem |} in
        let nodes1 := capped (nodes g ++ [newNode]) in
        let links1 :=
          if 1 <? List.length nodes1 then
            let targets := filter (fun n => negb (sameId (nodeId n) (nodeId newNode))) nodes1 in
            if 0 <? List.length targets then
              match nth_error targets (pick mod List.length targets) with
              | Some target => capped (graphLinks g ++ [(nodeId newNode, nodeId target)])
              | None => graphLinks g
              end
            else graphLinks g
          else graphLinks g in
        {| nodes := nodes1; graphLinks := links1 |}
  end.

(** The graph after a sequence of data changes, starting empty; each
    change comes with its two random numbers. *)
Definition graphAfter (changes : list (list ExtractedData * nat * nat)) : Graph :=
  fold_left (fun g ch => addNode (fst (fst ch)) (snd (fst ch)) (snd ch) g) changes
            {| nodes := []; graphLinks := [] |}.

End App.

(* ================================================================== *)
(** ** Facts about the string operations *)

Section StringFacts.

Lemma startsWith_empty (s : string) : Js.startsWith s "" = true.
Proof. destruct s; reflexivity. Qed.

Lemma includes_empty (s : string) : Js.includes s "" = true.
Proof. destruct s; reflexivity. Qed.

Lemma startsWith_iff (s p : string) :
  Js.startsWith s p = true <-> exists r, s = (p ++ r)%string.
Proof.
  revert s. induction p as [|a p IH]; intros s; simpl.
  - split; [intros _; now exists s | reflexivity].
  - destruct s as [|b s].
    + split; [discriminate | intros [r Hr]; discriminate].
    + rewrite andb_true_iff, Ascii.eqb_eq, IH. split.
      * intros [-> [r ->]]. now exists r.
      * intros [r Hr]. injection Hr as -> ->. split; [reflexivity | now exists r].
Qed.

(** [includes] is the substring test. *)
Lemma includes_iff (s k : string) :
  Js.includes s k = true <-> exists l r, s = (l ++ k ++ r)%string.
Proof.
  induction s as [|c s IH].
  - simpl. rewrite orb_false_r, startsWith_iff. split.
    + intros [r Hr]. now exists EmptyString, r.
    + intros [l [r Hr]]. destruct l; simpl in Hr; [now exists r | discriminate].
  - cbn [Js.includes]. rewrite orb_true_iff, startsWith_iff, IH. split.
    + intros [[r Hr] | [l [r Hr]]].
      * now exists EmptyString, r.
      * exists (String c l), r. simpl. now rewrite Hr.
    + intros [l [r Hr]]. destruct l as [|c' l]; simpl in Hr.
      * left. now exists r.
      * right. injection Hr as _ Hr. now exists l, r.
Qed.

Lemma truthy_false_iff (s : string) : Js.truthy s = false <-> s = "".
Proof.
  unfold Js.truthy. rewrite negb_false_iff. apply String.eqb_eq.
Qed.

Lemma nonEmpty_length (t : string) : nonEmpty t = true <-> t <> "".
Proof.
  unfold nonEmpty. rewrite Nat.ltb_lt. destruct t; simpl.
  - split; [lia | congruence].
  - split; [discriminate | lia].
Qed.

End StringFacts.

(* ================================================================== *)
(** ** Facts about the registry and the event log *)

Section ServerFacts.

Lemma mapLookup_delete_same (id : string) (m : list (string * Crawler)) :
  mapLookup id (mapDelete id m) = None.
Proof.
  induction m as [|[k v] m IH]; simpl; [reflexivity|].
  destruct (String.eqb k id) eqn:E; simpl; [exact IH|].
  now rewrite E.
Qed.

Lemma mapLookup_delete_none (id j : string) (m : list (string * Crawler)) :
  mapLookup id m = None -> mapLookup id (mapDelete j m) = None.
Proof.
  induction m as [|[k v] m IH]; simpl; [reflexivity|].
  destruct (String.eqb k id) eqn:E; [discriminate|]. intros H.
  destruct (String.eqb k j); simpl; [auto|]. rewrite E. auto.
Qed.

Lemma mapHas_set (id : string) (c : Crawler) (m : list (string * Crawler)) :
  mapHas id (mapSet id c m) = true.
Proof. unfold mapHas, mapSet. simpl. now rewrite String.eqb_refl. Qed.

Lemma mapHas_stop_same (id : string) (s : Server) :
  mapHas id (activeCrawlers (stop_crawl id s)) = false.
Proof.
  unfold mapHas, stop_crawl.
  destruct (mapLookup id (activeCrawlers s)) eqn:E; simpl.
  - now rewrite mapLookup_delete_same.
  - now rewrite E.
Qed.

Lemma mapHas_stop_other (id j : string) (s : Server) :
  mapHas id (activeCrawlers s) = false ->
  mapHas id (activeCrawlers (stop_crawl j s)) = false.
Proof.
  unfold mapHas, stop_crawl. intros H.
  destruct (mapLookup id (activeCrawlers s)) eqn:E; [discriminate|].
  destruct (mapLookup j (activeCrawlers s)); simpl.
  - now rewrite mapLookup_delete_none.
  - now rewrite E.
Qed.

Lemma emitted_stop (j : string) (s : Server) : emitted (stop_crawl j s) = emitted s.
Proof. unfold stop_crawl. now destruct (mapLookup j (activeCrawlers s)). Qed.

Lemma recordsOf_app (id : string) (a b : list Event) :
  recordsOf id (a ++ b) = recordsOf id a + recordsOf id b.
Proof.
  induction a as [|e a IH]; simpl; [reflexivity|].
  destruct e; rewrite IH; lia.
Qed.

Lemma skipn_length_app {A : Type} (a b : list A) : skipn (List.length a) (a ++ b) = b.
Proof. induction a; simpl; auto. Qed.

Lemma eventsSince_app (s s' : Server) (news : list Event) :
  emitted s' = emitted s ++ news -> eventsSince s s' = news.
Proof. unfold eventsSince. intros ->. apply skipn_length_app. Qed.

End ServerFacts.

(* ================================================================== *)
(** ** Runs of a Gather job *)

Section GatherRun.

Variable job : Gather.Job.

Let id := Gather.jobId job.
Let limit := Gather.targetLimit job.

(** A call of the handler either leaves the state alone or emits one
    record, the latter only for a registered job below its limit. *)
Lemma gather_handler_cases (u now : string) (pg : Page) (st : Gather.State) :
  fst (Gather.requestHandler job u now pg st) = st
  \/ (mapHas id (activeCrawlers (Gather.server st)) = true
      /\ (Gather.emittedCount st < limit)%Z
      /\ exists d, fst (Gather.requestHandler job u now pg st) = Gather.emitRecord job d st).
Proof.
  unfold Gather.requestHandler. fold id limit.
  destruct (mapHas id (activeCrawlers (Gather.server st))) eqn:Hreg; simpl; [|now left].
  destruct (limit <=? Gather.emittedCount st)%Z eqn:Hle; simpl; [now left|].
  destruct (Js.includes u "duckduckgo.com"); simpl; [now left|].
  destruct (Gather.matchesKeywords _ _ pg); [|now left].
  destruct (Gather.emittedCount st <? limit)%Z eqn:Hlt; [|now left].
  right. repeat split; [now apply Z.ltb_lt | eexists; reflexivity].
Qed.

Lemma gather_step_log (st : Gather.State) (a : Action) :
  exists news,
    emitted (Gather.server (Gather.step job st a)) = emitted (Gather.server st) ++ news
    /\ List.length news = recordsOf id news
    /\ Gather.emittedCount (Gather.step job st a)
       = (Gather.emittedCount st + Z.of_nat (recordsOf id news))%Z
    /\ (Gather.emittedCount (Gather.step job st a)
        <= Z.max (Gather.emittedCount st) limit)%Z.
Proof.
  destruct a as [u now pg | j]; simpl.
  - destruct (gather_handler_cases u now pg st) as [-> | (_ & Hlt & d & ->)].
    + exists []. rewrite app_nil_r. simpl. repeat split; lia.
    + exists [CrawlData id d]. simpl. fold id. rewrite String.eqb_refl.
      repeat split; lia.
  - exists []. rewrite app_nil_r, emitted_stop. simpl. repeat split; lia.
Qed.

Lemma gather_exec_log (run : list Action) (st : Gather.State) :
  exists news,
    emitted (Gather.server (Gather.exec job run st)) = emitted (Gather.server st) ++ news
    /\ List.length news = recordsOf id news
    /\ Gather.emittedCount (Gather.exec job run st)
       = (Gather.emittedCount st + Z.of_nat (recordsOf id news))%Z
    /\ (Gather.emittedCount (Gather.exec job run st)
        <= Z.max (Gather.emittedCount st) limit)%Z.
Proof.
  revert st. induction run as [|a run IH]; intros st.
  - exists []. rewrite app_nil_r. simpl. repeat split; lia.
  - destruct (gather_step_log st a) as (n1 & E1 & R1 & C1 & B1).
    destruct (IH (Gather.step job st a)) as (n2 & E2 & R2 & C2 & B2).
    exists (n1 ++ n2). change (Gather.exec job (a :: run) st)
      with (Gather.exec job run (Gather.step job st a)).
    rewrite E2, E1, app_assoc, recordsOf_app, length_app.
    repeat split; lia.
Qed.

(** Once the job is out of the registry, nothing that happens during
    the run emits anything, and the job stays out. *)
Lemma gather_step_unregistered (st : Gather.State) (a : Action) :
  mapHas id (activeCrawlers (Gather.server st)) = false ->
  mapHas id (activeCrawlers (Gather.server (Gather.step job st a))) = false
  /\ emitted (Gather.server (Gather.step job st a)) = emitted (Gather.server st).
Proof.
  intros H. destruct a as [u now pg | j]; simpl.
  - destruct (gather_handler_cases u now pg st) as [-> | (Hreg & _)]; [auto|].
    congruence.
  - split; [now apply mapHas_stop_other | apply emitted_stop].
Qed.

Lemma gather_exec_unregistered (run : list Action) (st : Gather.State) :
  mapHas id (activeCrawlers (Gather.server st)) = false ->
  emitted (Gather.server (Gather.exec job run st)) = emitted (Gather.server st).
Proof.
  revert st. induction run as [|a run IH]; intros st H; [reflexivity|].
  destruct (gather_step_unregistered st a H) as [H1 H2].
  change (Gather.exec job (a :: run) st) with (Gather.exec job run (Gather.step job st a)).
  now rewrite IH.
Qed.

Lemma gather_exec_app (r1 r2 : list Action) (st : Gather.State) :
  Gather.exec job (r1 ++ r2) st = Gather.exec job r2 (Gather.exec job r1 st).
Proof. apply fold_left_app. Qed.

End GatherRun.

(* ================================================================== *)
(** ** Runs of a Site job *)

Section SiteRun.

Variable job : Site.Job.

Let id := Site.jobId job.

Lemma site_handler_cases (u now : string) (pg : Page) (s : Server) :
  fst (Site.requestHandler job u now pg s) = s
  \/ (mapHas id (activeCrawlers s) = true
      /\ fst (Site.requestHandler job u now pg s)
         = io_emit (CrawlData id (Site.extract (Site.normalizedSelectors job) u now pg)) s).
Proof.
  unfold Site.requestHandler. fold id.
  destruct (mapHas id (activeCrawlers s)); simpl; [|now left].
  destruct (Site.matchesKeywords _ pg); [right | left]; auto.
Qed.

Lemma site_step_log (s : Server) (a : Action) :
  exists news,
    emitted (Site.step job s a) = emitted s ++ news
    /\ List.length news = recordsOf id news
    /\ recordsOf id news <= handled [a].
Proof.
  destruct a as [u now pg | j]; simpl.
  - destruct (site_handler_cases u now pg s) as [-> | (_ & ->)].
    + exists []. rewrite app_nil_r. simpl. repeat split; lia.
    + exists [CrawlData id (Site.extract (Site.normalizedSelectors job) u now pg)].
      simpl. rewrite String.eqb_refl. repeat split; lia.
  - exists []. rewrite app_nil_r, emitted_stop. simpl. repeat split; lia.
Qed.

Lemma site_exec_log (run : list Action) (s : Server) :
  exists news,
    emitted (Site.exec job run s) = emitted s ++ news
    /\ List.length news = recordsOf id news
    /\ recordsOf id news <= handled run.
Proof.
  revert s. induction run as [|a run IH]; intros s.
  - exists []. rewrite app_nil_r. simpl. repeat split; lia.
  - destruct (site_step_log s a) as (n1 & E1 & R1 & B1).
    destruct (IH (Site.step job s a)) as (n2 & E2 & R2 & B2).
    exists (n1 ++ n2). change (Site.exec job (a :: run) s)
      with (Site.exec job run (Site.step job s a)).
    rewrite E2, E1, app_assoc, recordsOf_app, length_app.
    assert (handled (a :: run) = handled [a] + handled run) by (destruct a; simpl; lia).
    repeat split; lia.
Qed.

Lemma site_step_unregistered (s : Server) (a : Action) :
  mapHas id (activeCrawlers s) = false ->
  mapHas id (activeCrawlers (Site.step job s a)) = false
  /\ emitted (Site.step job s a) = emitted s.
Proof.
  intros H. destruct a as [u now pg | j]; simpl.
  - destruct (site_handler_cases u now pg s) as [-> | (Hreg & _)]; [auto|].
    congruence.
  - split; [now apply mapHas_stop_other | apply emitted_stop].
Qed.

Lemma site_exec_unregistered (run : list Action) (s : Server) :
  mapHas id (activeCrawlers s) = false ->
  emitted (Site.exec job run s) = emitted s.
Proof.
  revert s. induction run as [|a run IH]; intros s H; [reflexivity|].
  destruct (site_step_unregistered s a H) as [H1 H2].
  change (Site.exec job (a :: run) s) with (Site.exec job run (Site.step job s a)).
  now rewrite IH.
Qed.

Lemma site_exec_app (r1 r2 : list Action) (s : Server) :
  Site.exec job (r1 ++ r2) s = Site.exec job r2 (Site.exec job r1 s).
Proof. apply fold_left_app. Qed.

End SiteRun.

(* ================================================================== *)
(** ** The emission limit *)

Lemma gather_run_records (job : Gather.Job) (run : list Action) (s : Server) :
  let final := Gather.exec job run {| Gather.server := s; Gather.emittedCount := 0 |} in
  let records := recordsOf (Gather.jobId job) (eventsSince s (Gather.server final)) in
  Gather.emittedCount final = Z.of_nat records
  /\ records <= Z.to_nat (Gather.targetLimit job).
Proof.
  intros final records. subst final records.
  destruct (gather_exec_log job run {| Gather.server := s; Gather.emittedCount := 0 |})
    as (news & E & _ & C & B).
  simpl in E, C, B. rewrite (eventsSince_app _ _ _ E). split; lia.
Qed.

Lemma gather_whole_records (id : string) (topic kws : option string)
    (limit : Js.Limit) (selectors : Selectors) (run : list Action)
    (out : Outcome) (s : Server) :
  recordsOf id (eventsSince s (Gather.startGatherer id topic kws limit selectors run out s))
  <= Z.to_nat (Gather.effectiveLimit limit).
Proof.
  unfold Gather.startGatherer, Gather.startGatherer_begin.
  destruct (negb (Js.truthy (Js.orElse topic "")) && negb (Js.truthy (Js.orElse kws ""))).
  - rewrite (eventsSince_app s _ [CrawlError id "No topic or keywords provided for search."]);
      [simpl; lia | reflexivity].
  - set (job := {| Gather.jobId := id; Gather.searchTopic := _ |}).
    set (s1 := register id _ s).
    destruct (gather_exec_log job run {| Gather.server := s1; Gather.emittedCount := 0 |})
      as (news & E & _ & C & B).
    simpl in E, C, B.
    assert (Hr : recordsOf id news <= Z.to_nat (Gather.effectiveLimit limit)) by lia.
    destruct out as [|m]; simpl.
    + rewrite (eventsSince_app s _ (news ++ [CrawlComplete id])).
      * rewrite recordsOf_app. simpl. lia.
      * simpl. rewrite E. now rewrite app_assoc.
    + rewrite (eventsSince_app s _ (news ++ [CrawlError id m])).
      * rewrite recordsOf_app. simpl. lia.
      * simpl. rewrite E. now rewrite app_assoc.
Qed.

Lemma site_whole_records (id : string) (target : option string)
    (selectors : Selectors) (kws : option string) (limit : Js.Limit)
    (type : option string) (run : list Action) (out : Outcome) (s : Server) :
  recordsOf id (eventsSince s (Site.startCrawler id target selectors kws limit type run out s))
  <= handled run.
Proof.
  unfold Site.startCrawler, Site.startCrawler_begin.
  set (job := {| Site.jobId := id; Site.normalizedSelectors := _ |}).
  set (s1 := register id _ s).
  destruct (site_exec_log job run s1) as (news & E & _ & B).
  simpl in E, B.
  destruct out as [|m]; simpl.
  - rewrite (eventsSince_app s _ (news ++ [CrawlComplete id])).
    + rewrite recordsOf_app. simpl. lia.
    + simpl. rewrite E. now rewrite app_assoc.
  - rewrite (eventsSince_app s _ (news ++ [CrawlError id m])).
    + rewrite recordsOf_app. simpl. lia.
    + simpl. rewrite E. now rewrite app_assoc.
Qed.

(** C1, on the code.  The limit on records is kept by Gather jobs; a
    Site job has no such limit of its own.

    Gather mode: whatever the library hands to the handler and whenever
    stop requests arrive, the job's counter equals the number of records
    emitted and stays within [targetLimit]; a call of the handler emits
    at most one record, does so only while the counter is strictly below
    the limit, and then adds one to the counter; at or above the limit a
    call emits nothing.  (For a negative parsed limit the bound reads 0:
    nothing is ever emitted.)

    Site mode: the runner keeps no counter.  The limit goes to the
    library as [maxRequestsPerCrawl] of the crawler it registers; the
    handler sends a record for every page it is handed that passes the
    keyword filter while the job is registered, however many it has sent
    before, and at most one record per page. *)
Theorem C1_emitted_count_within_limit :
  (forall (job : Gather.Job) (run : list Action) (s : Server),
     let final := Gather.exec job run {| Gather.server := s; Gather.emittedCount := 0 |} in
     let records := recordsOf (Gather.jobId job) (eventsSince s (Gather.server final)) in
     Gather.emittedCount final = Z.of_nat records
     /\ records <= Z.to_nat (Gather.targetLimit job))
  /\ (forall (id : string) (topic kws : option string) (limit : Js.Limit)
        (selectors : Selectors) (run : list Action) (out : Outcome) (s : Server),
       recordsOf id (eventsSince s (Gather.startGatherer id topic kws limit selectors run out s))
       <= Z.to_nat (Gather.effectiveLimit limit))
  /\ (forall (job : Gather.Job) (u now : string) (pg : Page) (st : Gather.State),
       let st' := fst (Gather.requestHandler job u now pg st) in
       st' = st
       \/ ((Gather.emittedCount st < Gather.targetLimit job)%Z
           /\ Gather.emittedCount st' = (Gather.emittedCount st + 1)%Z
           /\ exists d, emitted (Gather.server st')
                        = emitted (Gather.server st) ++ [CrawlData (Gather.jobId job) d]))
  /\ (forall (job : Gather.Job) (u now : string) (pg : Page) (st : Gather.State),
       (Gather.targetLimit job <= Gather.emittedCount st)%Z ->
       fst (Gather.requestHandler job u now pg st) = st)
  /\ (forall (id : string) (target : option string) (selectors : Selectors)
        (kws : option string) (limit : Js.Limit) (type : option string)
        (run : list Action) (out : Outcome) (s : Server),
       recordsOf id
         (eventsSince s (Site.startCrawler id target selectors kws limit type run out s))
       <= handled run
       /\ mapLookup id
            (activeCrawlers (snd (Site.startCrawler_begin id target selectors kws limit
                                    type s)))
          = Some {| maxRequestsPerCrawl := Site.effectiveLimit limit;
                    requestHandlerTimeoutSecs := None |})
  /\ (forall (job : Site.Job) (u now : string) (pg : Page) (s : Server),
       mapHas (Site.jobId job) (activeCrawlers s) = true ->
       Site.matchesKeywords (Site.jobKeywords job) pg = true ->
       eventsSince s (fst (Site.requestHandler job u now pg s))
       = [CrawlData (Site.jobId job)
            (Site.extract (Site.normalizedSelectors job) u now pg)]).
Proof.
  split; [exact gather_run_records|].
  split; [exact gather_whole_records|].
  split; [|split].
  - intros job u now pg st st'. subst st'.
    destruct (gather_handler_cases job u now pg st) as [-> | (_ & Hlt & d & ->)];
      [now left | right].
    split; [exact Hlt|]. split; [reflexivity|]. now exists d.
  - intros job u now pg st Hge.
    destruct (gather_handler_cases job u now pg st) as [-> | (_ & Hlt & _)];
      [reflexivity | lia].
  - split.
    + intros id target selectors kws limit type run out s.
      split; [apply site_whole_records|].
      unfold Site.startCrawler_begin, register, mapSet. simpl.
      now rewrite String.eqb_refl.
    + intros job u now pg s Hreg Hmatch. apply eventsSince_app.
      unfold Site.requestHandler. now rewrite Hreg, Hmatch.
Qed.

(* ================================================================== *)
(** ** Stopping a job *)

Lemma site_after_stop (job : Site.Job) (pre post : list Action) (out : Outcome) (s : Server) :
  emitted (Site.startCrawler_end job out
             (Site.exec job (pre ++ StopCrawl (Site.jobId job) :: post) s))
  = emitted (Site.exec job (pre ++ [StopCrawl (Site.jobId job)]) s)
    ++ [terminalEvent (Site.jobId job) out].
Proof.
  change (pre ++ StopCrawl (Site.jobId job) :: post)
    with (pre ++ [StopCrawl (Site.jobId job)] ++ post).
  rewrite app_assoc, site_exec_app.
  set (atStop := Site.exec job (pre ++ [StopCrawl (Site.jobId job)]) s).
  assert (Hun : mapHas (Site.jobId job) (activeCrawlers atStop) = false).
  { subst atStop. rewrite site_exec_app. simpl. apply mapHas_stop_same. }
  pose proof (site_exec_unregistered job post atStop Hun) as E.
  destruct out; simpl; now rewrite E.
Qed.

Lemma gather_after_stop (job : Gather.Job) (pre post : list Action) (out : Outcome)
    (st : Gather.State) :
  emitted (Gather.startGatherer_end job out
             (Gather.server (Gather.exec job (pre ++ StopCrawl (Gather.jobId job) :: post) st)))
  = emitted (Gather.server (Gather.exec job (pre ++ [StopCrawl (Gather.jobId job)]) st))
    ++ [terminalEvent (Gather.jobId job) out].
Proof.
  change (pre ++ StopCrawl (Gather.jobId job) :: post)
    with (pre ++ [StopCrawl (Gather.jobId job)] ++ post).
  rewrite app_assoc, gather_exec_app.
  set (atStop := Gather.exec job (pre ++ [StopCrawl (Gather.jobId job)]) st).
  assert (Hun : mapHas (Gather.jobId job) (activeCrawlers (Gather.server atStop)) = false).
  { subst atStop. rewrite gather_exec_app. simpl. apply mapHas_stop_same. }
  pose proof (gather_exec_unregistered job post atStop Hun) as E.
  destruct out; simpl; now rewrite E.
Qed.

(** C9.  Once a stop request for a running job has been handled, no
    record event is emitted any more, and what is emitted from then on is
    exactly one terminal event: the completion event when [run] resolves,
    the error event when it rejects.  Stated for both modes, for every
    run [pre ++ stop :: post] and every way [run] settles. *)
Theorem C9_stop_then_one_terminal_event :
  (forall (job : Site.Job) (pre post : list Action) (out : Outcome) (s : Server),
     let atStop := Site.exec job (pre ++ [StopCrawl (Site.jobId job)]) s in
     let final := Site.startCrawler_end job out
                    (Site.exec job (pre ++ StopCrawl (Site.jobId job) :: post) s) in
     eventsSince atStop final = [terminalEvent (Site.jobId job) out]
     /\ recordsOf (Site.jobId job) (eventsSince atStop final) = 0
     /\ List.length (filter isTerminal (eventsSince atStop final)) = 1
     /\ (out = Resolved -> eventsSince atStop final = [CrawlComplete (Site.jobId job)]))
  /\ (forall (job : Gather.Job) (pre post : list Action) (out : Outcome) (st : Gather.State),
        let atStop := Gather.server (Gather.exec job (pre ++ [StopCrawl (Gather.jobId job)]) st) in
        let final := Gather.startGatherer_end job out
                       (Gather.server
                          (Gather.exec job (pre ++ StopCrawl (Gather.jobId job) :: post) st)) in
        eventsSince atStop final = [terminalEvent (Gather.jobId job) out]
        /\ recordsOf (Gather.jobId job) (eventsSince atStop final) = 0
        /\ List.length (filter isTerminal (eventsSince atStop final)) = 1
        /\ (out = Resolved -> eventsSince atStop final = [CrawlComplete (Gather.jobId job)])).
Proof.
  split.
  - intros job pre post out s atStop final.
    assert (E : eventsSince atStop final = [terminalEvent (Site.jobId job) out]).
    { apply eventsSince_app. apply site_after_stop. }
    rewrite E. repeat split; try (destruct out; reflexivity).
    intros ->. reflexivity.
  - intros job pre post out st atStop final.
    assert (E : eventsSince atStop final = [terminalEvent (Gather.jobId job) out]).
    { apply eventsSince_app. apply gather_after_stop. }
    rewrite E. repeat split; try (destruct out; reflexivity).
    intros ->. reflexivity.
Qed.

(* ================================================================== *)
(** ** The keyword filter *)

(** A keywords string that ends in a comma has an empty last segment. *)
Lemma split_trailing_comma (s : string) :
  exists h t, Js.split "," (s ++ ",")%string = (h :: t) ++ [""].
Proof.
  induction s as [|c s (h & t & IH)]; simpl.
  - now exists "", [].
  - destruct (Ascii.eqb c ",").
    + exists "", (h :: t). now rewrite IH.
    + rewrite IH. simpl. now exists (String c h), t.
Qed.

(** Site mode: with keywords given, a page passes exactly when one of the
    listed keywords occurs in its lower-cased body text. *)
Lemma site_filter_spec (kws : option string) (pg : Page) :
  (Js.truthyOpt kws = false -> Site.matchesKeywords kws pg = true)
  /\ (forall kw, kws = Some kw -> kw <> "" ->
        (Site.matchesKeywords kws pg = true
         <-> exists k, In k (Site.keywordList kw)
                       /\ Js.includes (Js.toLowerCase (body_text pg)) k = true)).
Proof.
  split.
  - destruct kws as [kw|]; simpl; [|reflexivity].
    intros H. apply truthy_false_iff in H. now subst kw.
  - intros kw -> Hne. simpl.
    destruct kw as [|c kw]; [congruence|]. cbn [String.length Nat.ltb Nat.leb].
    apply existsb_exists.
Qed.

(** Gather mode: with a keywords string given, a page passes exactly when
    one of the listed keywords occurs in its lower-cased body text or
    title. *)
Lemma gather_filter_spec (kws pageTitle : string) (pg : Page) :
  (kws = "" -> Gather.matchesKeywords kws pageTitle pg = true)
  /\ (kws <> "" ->
        (Gather.matchesKeywords kws pageTitle pg = true
         <-> exists k, In k (Gather.keywordList kws)
                       /\ (Js.includes (Js.toLowerCase (body_text pg)) k = true
                           \/ Js.includes (Js.toLowerCase pageTitle) k = true))).
Proof.
  unfold Gather.matchesKeywords. split.
  - intros ->. reflexivity.
  - intros Hne. destruct (Js.truthy kws) eqn:E.
    + rewrite existsb_exists. split; intros (k & Hin & Hk); exists k; split; auto.
      * now apply orb_true_iff.
      * now apply orb_true_iff.
    + apply truthy_false_iff in E. contradiction.
Qed.

(** C3.  The filter at the failing input: a Gather job whose keywords
    string holds separators only (here [","]) has an empty keyword list,
    yet no page passes the filter, whatever its title and text; the Site
    filter passes every page on the same string. *)
Theorem C3_gather_blank_keywords_reject_every_page :
  forall (pageTitle : string) (pg : Page),
    Gather.keywordList "," = []
    /\ Gather.matchesKeywords "," pageTitle pg = false
    /\ Site.matchesKeywords (Some ",") pg = true.
Proof.
  intros pageTitle pg. split; [reflexivity|]. split; [reflexivity|].
  unfold Site.matchesKeywords. cbn. now rewrite includes_empty.
Qed.

(** C10.  Site mode: when the keywords string is not empty and one of
    its comma-separated segments is empty after trimming, every page
    passes the keyword filter. *)
Theorem C10_site_empty_segment_accepts_every_page :
  forall (kws : string) (pg : Page),
    kws <> "" ->
    In "" (map Js.trim (Js.split "," kws)) ->
    Site.matchesKeywords (Some kws) pg = true.
Proof.
  intros kws pg Hne Hin.
  apply (proj2 (site_filter_spec (Some kws) pg) kws eq_refl Hne).
  exists "". split; [|apply includes_empty].
  unfold Site.keywordList. apply in_map_iff in Hin. destruct Hin as (seg & Hseg & Hin).
  apply in_map_iff. exists seg. split; [|exact Hin]. now rewrite Hseg.
Qed.

(** The two shapes named by C10, on a page about something else: a
    trailing comma and a keywords string of white space only. *)
Lemma C10_witness :
  let pg := {| title_text := "News"; body_text := "Nothing about it";
               heading_texts := []; paragraph_texts := [];
               meta_description := None; meta_keywords := None;
               img_elements := []; anchor_hrefs := [];
               result_a_hrefs := []; result_title_a_hrefs := [] |} in
  Site.matchesKeywords (Some "rust,") pg = true
  /\ Site.matchesKeywords (Some "   ") pg = true.
Proof.
  intros pg. split.
  - apply (C10_site_empty_segment_accepts_every_page "rust," pg).
    + discriminate.
    + simpl. right. left. reflexivity.
  - apply (C10_site_empty_segment_accepts_every_page "   " pg).
    + discriminate.
    + simpl. left. reflexivity.
Defined.

(* ================================================================== *)
(** ** Starting a job *)

Lemma orElse_falsy (o : option string) :
  Js.truthyOpt o = false -> Js.orElse o "" = "".
Proof.
  destruct o as [x|]; simpl; [|reflexivity]. now intros ->.
Qed.

(** C2, on the code: a Gather request with neither topic nor keywords is
    answered like any other request, with a job id; the gatherer raises
    before a crawler exists, so the registry is left as it was, and the
    one thing emitted, then and later, is the job's error event.  A Site
    request is not checked at all: whatever the URL, also an empty one,
    the crawler is built and registered under the job id, the request is
    answered with that id, and nothing is emitted before [run] starts. *)
Theorem C2_invalid_start_requests :
  (forall (b : Gather.Body) (now : string) (s : Server),
     Js.truthyOpt (Gather.body_topic b) = false ->
     Js.truthyOpt (Gather.body_keywords b) = false ->
     fst (Gather.api_gather b now s)
     = {| res_jobId := now; res_message := "Gatherer started" |}
     /\ activeCrawlers (snd (Gather.api_gather b now s)) = activeCrawlers s
     /\ emitted (snd (Gather.api_gather b now s))
        = emitted s ++ [CrawlError now "No topic or keywords provided for search."]
     /\ forall (run : list Action) (out : Outcome),
          Gather.startGatherer now (Gather.body_topic b) (Gather.body_keywords b)
            (Gather.body_limit b) (Gather.body_selectors b) run out s
          = snd (Gather.api_gather b now s))
  /\ (forall (b : Site.Body) (now : string) (s : Server),
        fst (Site.api_crawl b now s)
        = {| res_jobId := now; res_message := "Crawler started" |}
        /\ mapHas now (activeCrawlers (snd (Site.api_crawl b now s))) = true
        /\ emitted (snd (Site.api_crawl b now s)) = emitted s).
Proof.
  split.
  - intros b now s Ht Hk.
    unfold Gather.api_gather, Gather.startGatherer, Gather.startGatherer_begin.
    rewrite (orElse_falsy _ Ht), (orElse_falsy _ Hk). simpl. auto.
  - intros b now s. unfold Site.api_crawl. simpl.
    split; [reflexivity|]. split; [apply mapHas_set | reflexivity].
Qed.

Lemma C2_witness :
  let b := {| Gather.body_topic := Some ""; Gather.body_keywords := None;
              Gather.body_limit := Js.LimitString "10";
              Gather.body_selectors := SelArray ["text"] |} in
  emitted (snd (Gather.api_gather b "1700000000000" emptyServer))
  = [CrawlError "1700000000000" "No topic or keywords provided for search."].
Proof.
  intros b.
  exact (proj1 (proj2 (proj2
           (proj1 C2_invalid_start_requests b "1700000000000" emptyServer
              eq_refl eq_refl)))).
Defined.

(** C2 as stated fails: the invalid Gather request below is answered with
    a job id and the text "Gatherer started", not with a failure, and an
    event is delivered for it; the Site request with an empty URL leaves
    its job in the registry. *)
Lemma C2_counterexample :
  let g := {| Gather.body_topic := None; Gather.body_keywords := None;
              Gather.body_limit := Js.LimitUndefined;
              Gather.body_selectors := SelUndefined |} in
  let c := {| Site.body_url := Some ""; Site.body_selectors := SelUndefined;
              Site.body_keywords := None; Site.body_limit := Js.LimitUndefined;
              Site.body_type := None |} in
  fst (Gather.api_gather g "1700000000000" emptyServer)
  = {| res_jobId := "1700000000000"; res_message := "Gatherer started" |}
  /\ emitted (snd (Gather.api_gather g "1700000000000" emptyServer)) <> []
  /\ emitted (snd (Gather.api_gather g "1700000000000" emptyServer))
     = [CrawlError "1700000000000" "No topic or keywords provided for search."]
  /\ mapHas "1700000000000"
       (activeCrawlers (snd (Site.api_crawl c "1700000000000" emptyServer))) = true.
Proof.
  cbv zeta. split; [reflexivity|]. split; [discriminate|]. split; reflexivity.
Qed.

(* ================================================================== *)
(** ** What trimming does *)

Section TrimFacts.

Lemma trimStart_leftTrimmed (s : string) : leftTrimmed (Js.trimStart s).
Proof.
  induction s as [|c s IH]; simpl; [exact I|].
  destruct (Js.isWhiteSpace c) eqn:W; [exact IH | exact W].
Qed.

Lemma trimEnd_leftTrimmed (s : string) : leftTrimmed s -> leftTrimmed (Js.trimEnd s).
Proof.
  destruct s as [|c s]; simpl; [auto|]. intros W.
  destruct (Js.trimEnd s); simpl; [now rewrite W | exact W].
Qed.

Lemma trimStart_spec (s : string) :
  exists l, s = (l ++ Js.trimStart s)%string /\ allChars Js.isWhiteSpace l = true.
Proof.
  induction s as [|c s (l & E & Hl)]; simpl.
  - now exists "".
  - destruct (Js.isWhiteSpace c) eqn:W.
    + exists (String c l). simpl. rewrite W, Hl. split; [now rewrite <- E | reflexivity].
    + now exists "".
Qed.

Lemma trimEnd_spec (s : string) :
  exists r, s = (Js.trimEnd s ++ r)%string
            /\ allChars Js.isWhiteSpace r = true
            /\ rightTrimmed (Js.trimEnd s).
Proof.
  induction s as [|c s (r & E & Hr & Ht)]; simpl.
  - exists "". repeat split.
  - destruct (Js.trimEnd s) as [|d t] eqn:T.
    + simpl in E. subst r. destruct (Js.isWhiteSpace c) eqn:W.
      * exists (String c s). simpl. rewrite W, Hr. repeat split.
      * exists s. repeat split; [exact Hr | exact W].
    + exists r. split; [simpl; now rewrite E|]. split; [exact Hr | exact Ht].
Qed.

(** [trim] cuts white space, all of it and nothing else, at both ends. *)
Lemma trim_spec (s : string) :
  exists l r,
    s = (l ++ Js.trim s ++ r)%string
    /\ allChars Js.isWhiteSpace l = true
    /\ allChars Js.isWhiteSpace r = true
    /\ leftTrimmed (Js.trim s)
    /\ rightTrimmed (Js.trim s).
Proof.
  destruct (trimStart_spec s) as (l & El & Hl).
  destruct (trimEnd_spec (Js.trimStart s)) as (r & Er & Hr & Ht).
  exists l, r. unfold Js.trim. split; [now rewrite <- Er|].
  split; [exact Hl|]. split; [exact Hr|]. split; [|exact Ht].
  apply trimEnd_leftTrimmed, trimStart_leftTrimmed.
Qed.

End TrimFacts.

(* ================================================================== *)
(** ** The search query planner *)

Lemma ceilDiv_5_spec (a : Z) :
  (5 * (Js.ceilDiv a 5 - 1) < a <= 5 * Js.ceilDiv a 5)%Z.
Proof.
  unfold Js.ceilDiv.
  pose proof (Z.div_mod (- a) 5 ltac:(lia)) as E.
  pose proof (Z.mod_pos_bound (- a) 5 ltac:(lia)) as B.
  lia.
Qed.

Lemma nth_map_seq (f : nat -> string) (n i : nat) :
  i < n -> nth i (map f (seq 0 n)) "" = f i.
Proof.
  intros H. rewrite (nth_indep _ "" (f 0)) by now rewrite length_map, length_seq.
  now rewrite map_nth, seq_nth.
Qed.

(** C4.  For a Gather job with effective limit [limit], the planner
    builds exactly min(5, ceil(limit/5)) seed URLs (none when that number
    is not positive, which only a negative parsed limit brings about);
    the i-th one, counting from 0, carries the offset i * 30 and the
    encoded query.  The query is topic, a space and keywords, trimmed:
    what is left of that text when the white space at its two ends, all
    of it and nothing else, is cut off, so that the query is empty or
    begins and ends with a visible character.  The first suspension of
    [startGatherer] hands exactly these URLs to the crawler; a limit of
    10 gives two of them. *)
Theorem C4_search_query_planner :
  forall (topic kws : string) (limit : Z),
    let urls := Gather.searchUrls topic kws limit in
    (5 * (Js.ceilDiv limit 5 - 1) < limit <= 5 * Js.ceilDiv limit 5)%Z
    /\ List.length urls = Z.to_nat (Z.min 5 (Js.ceilDiv limit 5))
    /\ (forall i : nat,
          i < List.length urls ->
          nth i urls ""
          = ("https://duckduckgo.com/html/?q="
               ++ Js.encodeURIComponent (Js.trim (topic ++ " " ++ kws))
               ++ "&s=" ++ Js.numberToString (Z.of_nat i * 30))%string)
    /\ (forall (id : string) (t k : option string) (l : Js.Limit)
          (selectors : Selectors) (s : Server) (job : Gather.Job),
          fst (Gather.startGatherer_begin id t k l selectors s) = Some job ->
          Gather.seeds job
          = Gather.searchUrls (Js.orElse t "") (Js.orElse k "") (Js.numOr (Js.parseInt l) 50))
    /\ List.length (Gather.searchUrls topic kws 10) = 2
    /\ (exists l r,
          (topic ++ " " ++ kws)%string = (l ++ Js.trim (topic ++ " " ++ kws) ++ r)%string
          /\ allChars Js.isWhiteSpace l = true
          /\ allChars Js.isWhiteSpace r = true
          /\ leftTrimmed (Js.trim (topic ++ " " ++ kws))
          /\ rightTrimmed (Js.trim (topic ++ " " ++ kws)))
    /\ Gather.searchUrls "" " ai " 5 = ["https://duckduckgo.com/html/?q=ai&s=0"]
    /\ Gather.searchUrls "  rust lang " "" 5
       = ["https://duckduckgo.com/html/?q=rust%20lang&s=0"].
Proof.
  intros topic kws limit urls. subst urls.
  split; [apply ceilDiv_5_spec|].
  assert (Hlen : List.length (Gather.searchUrls topic kws limit)
                 = Z.to_nat (Z.min 5 (Js.ceilDiv limit 5))).
  { unfold Gather.searchUrls. now rewrite length_map, length_seq. }
  split; [exact Hlen|]. split; [|split].
  - intros i Hi. rewrite Hlen in Hi. unfold Gather.searchUrls.
    rewrite nth_map_seq by exact Hi. reflexivity.
  - intros id t k l selectors s job. unfold Gather.startGatherer_begin.
    destruct (negb (Js.truthy (Js.orElse t "")) && negb (Js.truthy (Js.orElse k "")));
      simpl; [discriminate|].
    intros E. injection E as <-. reflexivity.
  - split; [unfold Gather.searchUrls; now rewrite length_map, length_seq|].
    split; [apply trim_spec|]. split; reflexivity.
Qed.

(** The scenario of the planner: topic "rust", no keywords, limit 10;
    and a job with keywords only, where the space that joins the empty
    topic to the keywords is cut from the front of the query. *)
Lemma C4_witness :
  let job := {| Gather.jobId := "1700000000000";
                Gather.searchTopic := "rust";
                Gather.searchKeywords := "";
                Gather.targetLimit := 10;
                Gather.normalizedSelectors := [] |} in
  Gather.seeds job = Gather.searchUrls "rust" "" 10
  /\ nth 1 (Gather.searchUrls "rust" "" 10) ""
     = "https://duckduckgo.com/html/?q=rust&s=30"
  /\ Gather.seeds {| Gather.jobId := "1700000000001";
                     Gather.searchTopic := "";
                     Gather.searchKeywords := " ai ";
                     Gather.targetLimit := 5;
                     Gather.normalizedSelectors := [] |}
     = ["https://duckduckgo.com/html/?q=ai&s=0"]
  /\ nth 0 (Gather.searchUrls "" " ai " 5) "" = "https://duckduckgo.com/html/?q=ai&s=0".
Proof.
  intros job.
  destruct (C4_search_query_planner "rust" "" 10) as (_ & _ & Hnth & Hseeds & _).
  destruct (C4_search_query_planner "" " ai " 5) as (_ & _ & Hnth' & Hseeds' & _).
  split; [|split; [|split]].
  - exact (Hseeds "1700000000000" (Some "rust") (Some "") (Js.LimitString "10")
             SelUndefined emptyServer job eq_refl).
  - apply (Hnth 1). vm_compute. lia.
  - exact (Hseeds' "1700000000001" None (Some " ai ") (Js.LimitNumber 5)
             SelUndefined emptyServer
             {| Gather.jobId := "1700000000001";
                Gather.searchTopic := "";
                Gather.searchKeywords := " ai ";
                Gather.targetLimit := 5;
                Gather.normalizedSelectors := [] |} eq_refl).
  - apply (Hnth' 0). vm_compute. lia.
Defined.

(* ================================================================== *)
(** ** Resolving the links of a results page *)

Lemma newSet_In (l : list string) (x : string) : In x (Js.newSet l) <-> In x l.
Proof.
  induction l as [|y l IH]; simpl; [reflexivity|].
  rewrite filter_In, IH, negb_true_iff. split.
  - intros [H | [H _]]; auto.
  - intros [H | H]; [now left|].
    destruct (String.eqb y x) eqn:E; [left; now apply String.eqb_eq | right; auto].
Qed.

Lemma newSet_NoDup (l : list string) : NoDup (Js.newSet l).
Proof.
  induction l as [|y l IH]; simpl; constructor.
  - rewrite filter_In, String.eqb_refl. simpl. intros [_ H]. discriminate.
  - now apply NoDup_filter.
Qed.

Lemma wrapper_not_accepted (link : string) :
  Js.startsWith link "/l/" = true -> Gather.accepted link = false.
Proof.
  intros H. apply startsWith_iff in H. destruct H as [r ->]. reflexivity.
Qed.

(** What the handler asks the library to enqueue: on a results page of a
    registered job below its limit, the resolved result links; on any
    other page, nothing. *)
Lemma gather_handler_enqueues (job : Gather.Job) (u now : string) (pg : Page)
    (st : Gather.State) :
  mapHas (Gather.jobId job) (activeCrawlers (Gather.server st)) = true ->
  (Gather.emittedCount st < Gather.targetLimit job)%Z ->
  snd (Gather.requestHandler job u now pg st)
  = if Js.includes u "duckduckgo.com" then Gather.enqueueResults pg else [].
Proof.
  intros Hreg Hlt. unfold Gather.requestHandler. rewrite Hreg. simpl.
  destruct (Gather.targetLimit job <=? Gather.emittedCount st)%Z eqn:E.
  - apply Z.leb_le in E. lia.
  - reflexivity.
Qed.

(** C5, on the code.  A result link whose text starts with [/l/] is
    parsed against the provider's origin and replaced by its [uddg]
    parameter when that is there and not empty; without such a parameter
    the link stays as it is and is never enqueued; any other link stays
    as it is.  A link is enqueued, under the label DETAIL, exactly when
    the resulting text starts with [http] and does not contain
    [duckduckgo.com]; the handler does this on results pages and enqueues
    nothing on other pages. *)
Theorem C5_result_link_resolution :
  (forall (link target : string),
     Js.startsWith link "/l/" = true ->
     Url.get "uddg" (Url.searchParams (Url.query link)) = Some target ->
     target <> "" ->
     Gather.resolveLink link = target)
  /\ (forall link : string,
        Js.startsWith link "/l/" = true ->
        Url.get "uddg" (Url.searchParams (Url.query link)) = None
        \/ Url.get "uddg" (Url.searchParams (Url.query link)) = Some "" ->
        Gather.resolveLink link = link
        /\ Gather.accepted (Gather.resolveLink link) = false)
  /\ (forall link : string,
        Js.startsWith link "/l/" = false -> Gather.resolveLink link = link)
  /\ (forall (pg : Page) (call : EnqueueCall),
        In call (Gather.enqueueResults pg)
        <-> exists link,
              In link (mapGet (result_a_hrefs pg) ++ mapGet (result_title_a_hrefs pg))
              /\ call = EnqueueUrl (Gather.resolveLink link) "DETAIL"
              /\ Js.startsWith (Gather.resolveLink link) "http" = true
              /\ Js.includes (Gather.resolveLink link) "duckduckgo.com" = false)
  /\ (forall (job : Gather.Job) (u now : string) (pg : Page) (st : Gather.State),
        mapHas (Gather.jobId job) (activeCrawlers (Gather.server st)) = true ->
        (Gather.emittedCount st < Gather.targetLimit job)%Z ->
        snd (Gather.requestHandler job u now pg st)
        = if Js.includes u "duckduckgo.com" then Gather.enqueueResults pg else [])
  /\ Gather.resolveLink "/l/?uddg=https%3A%2F%2Fexample.com&rut=x" = "https://example.com"
  /\ Gather.enqueueResults (pageOfResults ["/l/?uddg=https%3A%2F%2Fexample.com&rut=x"])
     = [EnqueueUrl "https://example.com" "DETAIL"].
Proof.
  split; [|split; [|split; [|split; [|split; [exact gather_handler_enqueues | split]]]]].
  - intros link target Hw Hget Hne. unfold Gather.resolveLink. rewrite Hw, Hget.
    destruct (Js.truthy target) eqn:E; [reflexivity|].
    apply truthy_false_iff in E. contradiction.
  - intros link Hw Hget.
    assert (E : Gather.resolveLink link = link).
    { unfold Gather.resolveLink. rewrite Hw. destruct Hget as [-> | ->]; reflexivity. }
    rewrite E. split; [reflexivity | now apply wrapper_not_accepted].
  - intros link Hw. unfold Gather.resolveLink. now rewrite Hw.
  - intros pg call. unfold Gather.enqueueResults, Gather.allLinks.
    rewrite in_flat_map. split.
    + intros (link & Hin & Hcall). apply (proj1 (newSet_In _ _)) in Hin. exists link.
      split; [exact Hin|].
      destruct (Gather.accepted (Gather.resolveLink link)) eqn:Hacc; [|contradiction].
      destruct Hcall as [<- | []].
      unfold Gather.accepted in Hacc. apply andb_true_iff in Hacc.
      destruct Hacc as [H1 H2]. apply negb_true_iff in H2. auto.
    + intros (link & Hin & -> & H1 & H2). exists link.
      split; [now apply (proj2 (newSet_In _ _))|].
      unfold Gather.accepted. rewrite H1, H2. simpl. now left.
  - reflexivity.
  - reflexivity.
Qed.

Lemma C5_witness :
  Gather.resolveLink "/l/?uddg=https%3A%2F%2Fexample.com&rut=x" = "https://example.com"
  /\ Gather.resolveLink "/l/?rut=x" = "/l/?rut=x"
  /\ Gather.accepted (Gather.resolveLink "/l/?rut=x") = false
  /\ Gather.resolveLink "https://example.org/a" = "https://example.org/a".
Proof.
  destruct C5_result_link_resolution as (Hsome & Hnone & Hother & _).
  split; [|split; [|split]].
  - apply (Hsome "/l/?uddg=https%3A%2F%2Fexample.com&rut=x" "https://example.com").
    + reflexivity.
    + reflexivity.
    + discriminate.
  - apply (Hnone "/l/?rut=x"); [reflexivity | left; reflexivity].
  - apply (Hnone "/l/?rut=x"); [reflexivity | left; reflexivity].
  - apply (Hother "https://example.org/a"). reflexivity.
Defined.

(** C5 as stated fails in both directions and on what counts as a
    wrapper: an absolute link to another site that merely mentions the
    provider is not enqueued; a text that starts with [http] but is no
    absolute URL is enqueued; a wrapper link written with the provider's
    host in front is not unwrapped. *)
Lemma C5_counterexample :
  (spec_accepted (Gather.resolveLink "https://example.com/?ref=duckduckgo.com") = true
   /\ Gather.accepted (Gather.resolveLink "https://example.com/?ref=duckduckgo.com") = false
   /\ Gather.enqueueResults (pageOfResults ["https://example.com/?ref=duckduckgo.com"]) = [])
  /\ (spec_isAbsolute (Gather.resolveLink "httpfoo") = false
      /\ Gather.enqueueResults (pageOfResults ["httpfoo"]) = [EnqueueUrl "httpfoo" "DETAIL"])
  /\ (Gather.resolveLink "//duckduckgo.com/l/?uddg=https%3A%2F%2Fexample.com"
      = "//duckduckgo.com/l/?uddg=https%3A%2F%2Fexample.com"
      /\ Gather.enqueueResults
           (pageOfResults ["//duckduckgo.com/l/?uddg=https%3A%2F%2Fexample.com"]) = []).
Proof.
  repeat split; reflexivity.
Qed.

(* ================================================================== *)
(** ** The extraction pipeline *)

Lemma combine_seq_In {A : Type} (l : list A) (k i : nat) (v : A) :
  In (i, v) (combine (seq k (List.length l)) l) ->
  k <= i /\ nth_error l (i - k) = Some v.
Proof.
  revert k. induction l as [|x l IH]; simpl; intros k; [tauto|].
  intros [E | H].
  - injection E as <- <-. split; [lia|]. now rewrite Nat.sub_diag.
  - apply IH in H. destruct H as [H1 H2]. split; [lia|].
    replace (i - k) with (S (i - S k)) by lia. exact H2.
Qed.

Lemma combine_seq_NoDup {A : Type} (l : list A) (k : nat) :
  NoDup (combine (seq k (List.length l)) l).
Proof.
  revert k. induction l as [|x l IH]; simpl; intros k; constructor; [|apply IH].
  intros H. apply combine_seq_In in H. lia.
Qed.

Lemma isIndex_true (found : option nat) (i : nat) :
  isIndex found i = true -> found = Some i.
Proof.
  destruct found as [j|]; simpl; [|discriminate].
  intros H. apply Nat.eqb_eq in H. now subst.
Qed.

(** Keeping the entries that sit at the first index of their [src]
    leaves no two entries with the same [src]. *)
Lemma first_by_src_NoDup (a : list Img) :
  NoDup (map src
           (Js.filterIndexed
              (fun v i a => isIndex (Js.findIndex (fun t => sameSrc (src t) (src v)) a) i)
              a)).
Proof.
  unfold Js.filterIndexed. rewrite map_map.
  apply NoDup_map_NoDup_ForallPairs.
  - intros [i v] [j w] Hi Hj Heq. simpl in Heq.
    apply filter_In in Hi. destruct Hi as [Hi Pi].
    apply filter_In in Hj. destruct Hj as [Hj Pj].
    simpl in Pi, Pj. apply isIndex_true in Pi. apply isIndex_true in Pj.
    rewrite Heq in Pi. rewrite Pi in Pj. injection Pj as ->.
    apply combine_seq_In in Hi. apply combine_seq_In in Hj.
    destruct Hi as [_ Hi]. destruct Hj as [_ Hj].
    rewrite Hi in Hj. now injection Hj as ->.
  - apply NoDup_filter, combine_seq_NoDup.
Qed.

(** Site mode does what C6 says: no repeated heading, no repeated link,
    no two images with one [src]. *)
Lemma site_record_no_duplicates (sels : list string) (u now : string) (pg : Page) :
  (forall hs, headings (Site.extract sels u now pg) = Some hs -> NoDup hs)
  /\ (forall ls, links (Site.extract sels u now pg) = Some ls -> NoDup ls)
  /\ (forall imgs, images (Site.extract sels u now pg) = Some imgs -> NoDup (map src imgs)).
Proof.
  simpl. repeat split.
  - intros hs. destruct (Site.wantsHeadings sels); [|discriminate].
    intros E. injection E as <-. apply newSet_NoDup.
  - intros ls. destruct (Site.wantsLinks sels); [|discriminate].
    intros E. injection E as <-. apply newSet_NoDup.
  - intros imgs. destruct (Site.wantsImages sels); [|discriminate].
    intros E. injection E as <-. apply first_by_src_NoDup.
Qed.

(** C6.  The Gather handler at the failing input: a registered job that
    asked for headings, images and links meets a page that repeats one of
    each; the record it emits repeats them too. *)
Theorem C6_gather_record_keeps_duplicates :
  let job := {| Gather.jobId := "1700000000000";
                Gather.searchTopic := "rust";
                Gather.searchKeywords := "";
                Gather.targetLimit := 10;
                Gather.normalizedSelectors := ["headings"; "images"; "links"] |} in
  let crawler := {| maxRequestsPerCrawl := 50; requestHandlerTimeoutSecs := Some 45%Z |} in
  let st := {| Gather.server := register "1700000000000" crawler emptyServer;
               Gather.emittedCount := 0 |} in
  exists d,
    emitted (Gather.server
               (fst (Gather.requestHandler job "https://a.test/" "2026-01-01T00:00:00.000Z"
                       repeatingPage st)))
    = [CrawlData "1700000000000" d]
    /\ headings d = Some ["Intro"; "Intro"]
    /\ links d = Some ["https://a.test/x"; "https://a.test/x"]
    /\ option_map (map src) (images d)
       = Some [Some "https://a.test/i.png"; Some "https://a.test/i.png"]
    /\ headings (Site.extract ["headings"; "images"; "links"] "https://a.test/"
                   "2026-01-01T00:00:00.000Z" repeatingPage) = Some ["Intro"]
    /\ links (Site.extract ["headings"; "images"; "links"] "https://a.test/"
                "2026-01-01T00:00:00.000Z" repeatingPage) = Some ["https://a.test/x"].
Proof.
  cbv zeta. eexists. split; [reflexivity|]. repeat split; reflexivity.
Qed.

Lemma filter_long_after_nonEmpty (l : list string) :
  filter (fun t => 20 <? String.length t) l
  = filter (fun t => 21 <=? String.length t) (filter nonEmpty l).
Proof.
  induction l as [|t l IH]; [reflexivity|]. cbn [filter]. unfold nonEmpty at 1.
  destruct (Nat.ltb_spec 20 (String.length t)) as [H | H].
  - destruct (Nat.ltb_spec 0 (String.length t)) as [H0 | H0]; [|lia].
    cbn [filter]. destruct (Nat.leb_spec 21 (String.length t)); [|lia].
    now rewrite IH.
  - destruct (Nat.ltb_spec 0 (String.length t)) as [H0 | H0]; [|exact IH].
    cbn [filter]. destruct (Nat.leb_spec 21 (String.length t)); [lia|].
    exact IH.
Qed.

(** C7, on the code.  The text extractor yields, in document order, the
    trimmed texts of the paragraph elements that are not empty; in Gather
    mode it keeps of these only the entries of more than 20 characters
    (an entry of exactly 20 is dropped, one of 21 is kept) and then the
    first 10. *)
Theorem C7_text_extractor :
  forall pg : Page,
    Site.extractText pg
    = filter (fun t => negb (String.eqb t "")) (map Js.trim (paragraph_texts pg))
    /\ (forall t, In t (Site.extractText pg)
                  <-> t <> "" /\ exists p, In p (paragraph_texts pg) /\ t = Js.trim p)
    /\ Gather.extractText pg
       = firstn 10 (filter (fun t => 21 <=? String.length t) (Site.extractText pg))
    /\ List.length (Gather.extractText pg) <= 10
    /\ (forall t, In t (Gather.extractText pg) -> 21 <= String.length t).
Proof.
  intros pg. split; [|split; [|split; [|split]]].
  - unfold Site.extractText. apply filter_ext. intros t. unfold nonEmpty.
    destruct t; reflexivity.
  - intros t. unfold Site.extractText. rewrite filter_In, in_map_iff, nonEmpty_length.
    split.
    + intros [(p & <- & Hp) Hne]. split; [exact Hne | now exists p].
    + intros [Hne (p & Hp & ->)]. split; [now exists p | exact Hne].
  - unfold Gather.extractText, Site.extractText, Js.slice0.
    now rewrite filter_long_after_nonEmpty.
  - apply firstn_le_length.
  - intros t Hin. unfold Gather.extractText, Js.slice0 in Hin.
    assert (Hsub : forall (n : nat) (l : list string) (x : string),
               In x (firstn n l) -> In x l).
    { induction n as [|n IHn]; intros [|y l] x; simpl; try tauto.
      intros [H | H]; [now left | right; now apply IHn]. }
    apply Hsub in Hin. apply filter_In in Hin. destruct Hin as [_ H].
    apply Nat.ltb_lt in H. lia.
Qed.

(** C7 as stated fails at the boundary: a paragraph of exactly 20
    characters is kept in Site mode and dropped in Gather mode; one more
    character and it is kept. *)
Lemma C7_counterexample :
  String.length "exactly twenty chars" = 20
  /\ Site.extractText (pageOfParagraphs ["exactly twenty chars"]) = ["exactly twenty chars"]
  /\ Gather.extractText (pageOfParagraphs ["exactly twenty chars"]) = []
  /\ Gather.extractText (pageOfParagraphs ["exactly twenty chars!"]) = ["exactly twenty chars!"].
Proof.
  repeat split; reflexivity.
Qed.

Lemma C7_witness :
  21 <= String.length "exactly twenty chars!".
Proof.
  apply (proj2 (proj2 (proj2 (proj2
           (C7_text_extractor (pageOfParagraphs ["exactly twenty chars!"])))))).
  simpl. left. reflexivity.
Defined.

(* ================================================================== *)
(** ** Which fields a record carries *)

Lemma present_iff {A : Type} (c : bool) (x : A) :
  (if c then Some x else None) <> None <-> c = true.
Proof. destruct c; split; congruence. Qed.

Lemma wants_iff (kind : string) (sels : list string) :
  Gather.wants kind sels = true <-> In kind sels.
Proof.
  unfold Gather.wants. rewrite existsb_exists. split.
  - intros (x & Hin & E). apply String.eqb_eq in E. now subst.
  - intros H. exists kind. split; [exact H | apply String.eqb_refl].
Qed.

Lemma eventsSince_same (s : Server) : eventsSince s s = [].
Proof. unfold eventsSince. apply skipn_all. Qed.

Lemma eventsSince_emit (e : Event) (s : Server) : eventsSince s (io_emit e s) = [e].
Proof. now apply eventsSince_app. Qed.

(** The record a Gather handler call emits, if any, is the extraction of
    the page it was given under the job's selectors. *)
Lemma gather_handler_record (job : Gather.Job) (u now : string) (pg : Page)
    (st : Gather.State) (id : string) (d : ExtractedData) :
  In (CrawlData id d)
     (eventsSince (Gather.server st)
        (Gather.server (fst (Gather.requestHandler job u now pg st)))) ->
  d = Gather.extract (Gather.normalizedSelectors job) u (Js.trim (title_text pg)) now pg.
Proof.
  unfold Gather.requestHandler.
  destruct (negb (mapHas (Gather.jobId job) (activeCrawlers (Gather.server st))));
    simpl; [now rewrite eventsSince_same|].
  destruct (Gather.targetLimit job <=? Gather.emittedCount st)%Z;
    simpl; [now rewrite eventsSince_same|].
  destruct (negb (Js.includes u "duckduckgo.com")); [|now rewrite eventsSince_same].
  destruct (Gather.matchesKeywords _ _ pg); [|now rewrite eventsSince_same].
  destruct (Gather.emittedCount st <? Gather.targetLimit job)%Z;
    [|now rewrite eventsSince_same].
  unfold Gather.emitRecord. simpl. rewrite eventsSince_emit.
  intros [E | []]. now injection E as _ <-.
Qed.

Lemma site_handler_record (job : Site.Job) (u now : string) (pg : Page)
    (s : Server) (id : string) (d : ExtractedData) :
  In (CrawlData id d) (eventsSince s (fst (Site.requestHandler job u now pg s))) ->
  d = Site.extract (Site.normalizedSelectors job) u now pg.
Proof.
  unfold Site.requestHandler.
  destruct (negb (mapHas (Site.jobId job) (activeCrawlers s)));
    simpl; [now rewrite eventsSince_same|].
  destruct (Site.matchesKeywords _ pg); [|now rewrite eventsSince_same].
  rewrite eventsSince_emit. intros [E | []]. now injection E as _ <-.
Qed.

(** C8, on the code.  In a record emitted by a Gather job a field is
    there exactly when its name ([headings], [text], [meta], [images],
    [links]) is one of the job's normalised selectors.  In a record
    emitted by a Site job a field is there exactly when some normalised
    selector contains the field's key word: [heading]; [text] or
    [paragraph]; [meta]; [image]; [link] or [url]. *)
Theorem C8_fields_follow_selectors :
  (forall (job : Gather.Job) (u now : string) (pg : Page) (st : Gather.State)
      (id : string) (d : ExtractedData),
     In (CrawlData id d)
        (eventsSince (Gather.server st)
           (Gather.server (fst (Gather.requestHandler job u now pg st)))) ->
     (headings d <> None <-> In "headings" (Gather.normalizedSelectors job))
     /\ (text d <> None <-> In "text" (Gather.normalizedSelectors job))
     /\ (meta d <> None <-> In "meta" (Gather.normalizedSelectors job))
     /\ (images d <> None <-> In "images" (Gather.normalizedSelectors job))
     /\ (links d <> None <-> In "links" (Gather.normalizedSelectors job)))
  /\ (forall (job : Site.Job) (u now : string) (pg : Page) (s : Server)
        (id : string) (d : ExtractedData),
       In (CrawlData id d) (eventsSince s (fst (Site.requestHandler job u now pg s))) ->
       (headings d <> None
        <-> exists x, In x (Site.normalizedSelectors job) /\ Js.includes x "heading" = true)
       /\ (text d <> None
           <-> exists x, In x (Site.normalizedSelectors job)
                         /\ (Js.includes x "text" = true \/ Js.includes x "paragraph" = true))
       /\ (meta d <> None
           <-> exists x, In x (Site.normalizedSelectors job) /\ Js.includes x "meta" = true)
       /\ (images d <> None
           <-> exists x, In x (Site.normalizedSelectors job) /\ Js.includes x "image" = true)
       /\ (links d <> None
           <-> exists x, In x (Site.normalizedSelectors job)
                         /\ (Js.includes x "link" = true \/ Js.includes x "url" = true))).
Proof.
  split.
  - intros job u now pg st id d Hin.
    rewrite (gather_handler_record job u now pg st id d Hin). simpl.
    rewrite !present_iff, !wants_iff. tauto.
  - intros job u now pg s id d Hin.
    rewrite (site_handler_record job u now pg s id d Hin). simpl.
    rewrite !present_iff.
    unfold Site.wantsHeadings, Site.wantsText, Site.wantsMeta, Site.wantsImages,
      Site.wantsLinks.
    rewrite !existsb_exists.
    repeat split; intros (x & Hx & H); exists x; (split; [exact Hx|]);
      try exact H; try (now apply orb_true_iff in H); try (now apply orb_true_iff).
Qed.

(** A Site job that asked for [links] only emits a record with links and
    without text. *)
Lemma C8_witness :
  let job := {| Site.jobId := "1700000000000";
                Site.normalizedSelectors := ["links"];
                Site.jobKeywords := None |} in
  let crawler := {| maxRequestsPerCrawl := 50; requestHandlerTimeoutSecs := None |} in
  let s := register "1700000000000" crawler emptyServer in
  let d := Site.extract ["links"] "https://a.test/" "2026-01-01T00:00:00.000Z" repeatingPage in
  links d <> None
  <-> exists x, In x ["links"] /\ (Js.includes x "link" = true \/ Js.includes x "url" = true).
Proof.
  intros job crawler s d.
  apply (proj2 C8_fields_follow_selectors job "https://a.test/"
           "2026-01-01T00:00:00.000Z" repeatingPage s "1700000000000" d).
  simpl. left. reflexivity.
Defined.

(** C8 as stated fails in Site mode: the selector [context] is none of
    the five kinds, and the emitted record carries a text field. *)
Lemma C8_counterexample :
  let job := fst (Site.startCrawler_begin "1700000000000" (Some "https://a.test/")
                    (SelArray ["context"]) None (Js.LimitString "1") None emptyServer) in
  let s := snd (Site.startCrawler_begin "1700000000000" (Some "https://a.test/")
                  (SelArray ["context"]) None (Js.LimitString "1") None emptyServer) in
  exists d,
    emitted (fst (Site.requestHandler job "https://a.test/" "2026-01-01T00:00:00.000Z"
                    (pageOfParagraphs ["Hello"]) s))
    = [CrawlData "1700000000000" d]
    /\ text d = Some ["Hello"]
    /\ Site.normalizedSelectors job = ["context"]
    /\ ~ In "text" (Site.normalizedSelectors job).
Proof.
  cbv zeta. eexists. split; [reflexivity|]. split; [reflexivity|]. split; [reflexivity|].
  simpl. intros [H | []]. discriminate.
Qed.

(* ================================================================== *)
(** ** Concrete runs *)

(** A Gather job with limit 1 that has sent its one record: the next
    matching page changes nothing.  A registered Site job sends a record
    for a page that passes its filter. *)
Lemma C1_witness :
  let job := {| Gather.jobId := "1700000000000";
                Gather.searchTopic := "rust";
                Gather.searchKeywords := "";
                Gather.targetLimit := 1;
                Gather.normalizedSelectors := ["links"] |} in
  let crawler := {| maxRequestsPerCrawl := 5; requestHandlerTimeoutSecs := Some 45%Z |} in
  let st := {| Gather.server := register "1700000000000" crawler emptyServer;
               Gather.emittedCount := 1 |} in
  let siteJob := {| Site.jobId := "1700000000001";
                    Site.normalizedSelectors := ["text"];
                    Site.jobKeywords := None |} in
  let s := register "1700000000001"
             {| maxRequestsPerCrawl := 1; requestHandlerTimeoutSecs := None |}
             emptyServer in
  fst (Gather.requestHandler job "https://a.test/" "2026-01-01T00:00:00.000Z"
         repeatingPage st) = st
  /\ eventsSince s
       (fst (Site.requestHandler siteJob "https://a.test/" "2026-01-01T00:00:00.000Z"
               (pageOfParagraphs ["Hello"]) s))
     = [CrawlData "1700000000001"
          (Site.extract ["text"] "https://a.test/" "2026-01-01T00:00:00.000Z"
             (pageOfParagraphs ["Hello"]))].
Proof.
  intros job crawler st siteJob s. split.
  - apply (proj1 (proj2 (proj2 (proj2 C1_emitted_count_within_limit))) job
             "https://a.test/" "2026-01-01T00:00:00.000Z" repeatingPage st).
    simpl. lia.
  - apply (proj2 (proj2 (proj2 (proj2 (proj2 C1_emitted_count_within_limit)))) siteJob
             "https://a.test/" "2026-01-01T00:00:00.000Z" (pageOfParagraphs ["Hello"]) s).
    + reflexivity.
    + reflexivity.
Defined.

(** C1 as stated fails in Site mode: a Site job with effective limit 1
    whose handler is called twice sends two records.  At the second call
    (here for the same request again, as when the library retries a
    request whose handler failed after the record was sent) the job has
    sent as many records as its limit allows, and the handler sends
    another one: nothing in [startCrawler] counts the records. *)
Lemma C1_counterexample :
  let first := Handle "https://a.test/" "2026-01-01T00:00:00.000Z"
                 (pageOfParagraphs ["Hello"]) in
  let second := Handle "https://a.test/" "2026-01-01T00:00:01.000Z"
                  (pageOfParagraphs ["Hello"]) in
  let start := Site.startCrawler_begin "1700000000000" (Some "https://a.test/")
                 (SelArray ["text"]) None (Js.LimitString "1") None emptyServer in
  let afterFirst := Site.exec (fst start) [first] (snd start) in
  let afterSecond := Site.exec (fst start) [first; second] (snd start) in
  Site.effectiveLimit (Js.LimitString "1") = 1%Z
  /\ recordsOf "1700000000000" (emitted afterFirst) = 1
  /\ recordsOf "1700000000000" (emitted afterSecond) = 2
  /\ recordsOf "1700000000000"
       (eventsSince emptyServer
          (Site.startCrawler "1700000000000" (Some "https://a.test/") (SelArray ["text"])
             None (Js.LimitString "1") None [first; second] Resolved emptyServer)) = 2
  /\ ~ (Z.of_nat (recordsOf "1700000000000" (emitted afterSecond))
        <= Site.effectiveLimit (Js.LimitString "1"))%Z.
Proof.
  cbv zeta. split; [reflexivity|]. split; [reflexivity|]. split; [reflexivity|].
  split; [reflexivity|]. vm_compute. intros H. apply H. reflexivity.
Qed.

(** A Gather job that is stopped between two pages: the page that comes
    after the stop yields nothing, and the run ends with the completion
    event. *)
Lemma C9_witness :
  let job := {| Gather.jobId := "1700000000000";
                Gather.searchTopic := "rust";
                Gather.searchKeywords := "";
                Gather.targetLimit := 10;
                Gather.normalizedSelectors := ["links"] |} in
  let crawler := {| maxRequestsPerCrawl := 50; requestHandlerTimeoutSecs := Some 45%Z |} in
  let st := {| Gather.server := register "1700000000000" crawler emptyServer;
               Gather.emittedCount := 0 |} in
  let page := Handle "https://a.test/" "2026-01-01T00:00:00.000Z" repeatingPage in
  eventsSince
    (Gather.server (Gather.exec job ([page] ++ [StopCrawl "1700000000000"]) st))
    (Gather.startGatherer_end job Resolved
       (Gather.server (Gather.exec job ([page] ++ StopCrawl "1700000000000" :: [page]) st)))
  = [CrawlComplete "1700000000000"].
Proof.
  intros job crawler st page.
  apply (proj2 C9_stop_then_one_terminal_event job [page] [page] Resolved st).
  reflexivity.
Defined.

(* ================================================================== *)
(** ** The registry during and after a job *)

Section Registry.

Lemma mapDelete_absent (j : string) (m : list (string * Crawler)) :
  mapLookup j m = None -> mapDelete j m = m.
Proof.
  induction m as [|[k v] m IH]; simpl; [reflexivity|].
  destruct (String.eqb k j) eqn:E; [discriminate|]. simpl. intros H. now rewrite IH.
Qed.

Lemma mapLookup_delete_neq (j k : string) (m : list (string * Crawler)) :
  j <> k -> mapLookup j (mapDelete k m) = mapLookup j m.
Proof.
  intros Hne. induction m as [|[x v] m IH]; simpl; [reflexivity|].
  destruct (String.eqb x k) eqn:Ek; simpl.
  - apply String.eqb_eq in Ek. subst x.
    destruct (String.eqb k j) eqn:Ej; [|exact IH].
    apply String.eqb_eq in Ej. congruence.
  - now rewrite IH.
Qed.

Lemma activeCrawlers_stop (j : string) (s : Server) :
  activeCrawlers (stop_crawl j s) = mapDelete j (activeCrawlers s).
Proof.
  unfold stop_crawl. destruct (mapLookup j (activeCrawlers s)) eqn:E; simpl.
  - reflexivity.
  - symmetry. now apply mapDelete_absent.
Qed.

Lemma registryAfter_lookup_kept (j : string) (run : list Action) (m : list (string * Crawler)) :
  ~ In (StopCrawl j) run -> mapLookup j (registryAfter run m) = mapLookup j m.
Proof.
  revert m. induction run as [|a run IH]; intros m Hno; [reflexivity|].
  unfold registryAfter in *. simpl.
  rewrite IH by (intros H; apply Hno; now right).
  destruct a as [u now pg | k]; [reflexivity|].
  apply mapLookup_delete_neq. intros ->. apply Hno. now left.
Qed.

Lemma registryAfter_lookup_none (j : string) (run : list Action) (m : list (string * Crawler)) :
  mapLookup j m = None -> mapLookup j (registryAfter run m) = None.
Proof.
  revert m. induction run as [|a run IH]; intros m H; [exact H|].
  unfold registryAfter in *. simpl. apply IH.
  destruct a as [u now pg | k]; [exact H | now apply mapLookup_delete_none].
Qed.

Lemma registryAfter_lookup_stopped (j : string) (run : list Action) (m : list (string * Crawler)) :
  In (StopCrawl j) run -> mapLookup j (registryAfter run m) = None.
Proof.
  revert m. induction run as [|a run IH]; intros m Hin; [contradiction|].
  destruct Hin as [-> | Hin].
  - change (registryAfter (StopCrawl j :: run) m) with (registryAfter run (mapDelete j m)).
    apply registryAfter_lookup_none, mapLookup_delete_same.
  - change (registryAfter (a :: run) m)
      with (registryAfter run (match a with
                               | StopCrawl k => mapDelete k m
                               | Handle _ _ _ => m
                               end)).
    now apply IH.
Qed.

Lemma site_handler_registry (job : Site.Job) (u now : string) (pg : Page) (s : Server) :
  activeCrawlers (fst (Site.requestHandler job u now pg s)) = activeCrawlers s
  /\ tornDown (fst (Site.requestHandler job u now pg s)) = tornDown s.
Proof.
  destruct (site_handler_cases job u now pg s) as [-> | (_ & ->)]; auto.
Qed.

Lemma gather_handler_registry (job : Gather.Job) (u now : string) (pg : Page)
    (st : Gather.State) :
  activeCrawlers (Gather.server (fst (Gather.requestHandler job u now pg st)))
  = activeCrawlers (Gather.server st)
  /\ tornDown (Gather.server (fst (Gather.requestHandler job u now pg st)))
     = tornDown (Gather.server st).
Proof.
  destruct (gather_handler_cases job u now pg st) as [-> | (_ & _ & d & ->)]; auto.
Qed.

Lemma site_exec_registry (job : Site.Job) (run : list Action) (s : Server) :
  activeCrawlers (Site.exec job run s) = registryAfter run (activeCrawlers s).
Proof.
  revert s. induction run as [|a run IH]; intros s; [reflexivity|].
  change (Site.exec job (a :: run) s) with (Site.exec job run (Site.step job s a)).
  rewrite IH. unfold registryAfter. simpl. f_equal.
  destruct a as [u now pg | j]; simpl.
  - apply site_handler_registry.
  - apply activeCrawlers_stop.
Qed.

Lemma gather_exec_registry (job : Gather.Job) (run : list Action) (st : Gather.State) :
  activeCrawlers (Gather.server (Gather.exec job run st))
  = registryAfter run (activeCrawlers (Gather.server st)).
Proof.
  revert st. induction run as [|a run IH]; intros st; [reflexivity|].
  change (Gather.exec job (a :: run) st) with (Gather.exec job run (Gather.step job st a)).
  rewrite IH. unfold registryAfter. simpl. f_equal.
  destruct a as [u now pg | j]; simpl.
  - apply gather_handler_registry.
  - apply activeCrawlers_stop.
Qed.

Lemma mapLookup_set_same (id : string) (c : Crawler) (m : list (string * Crawler)) :
  mapLookup id (mapSet id c m) = Some c.
Proof. unfold mapSet. simpl. now rewrite String.eqb_refl. Qed.

Lemma mapLookup_set_neq (j id : string) (c : Crawler) (m : list (string * Crawler)) :
  j <> id -> mapLookup j (mapSet id c m) = mapLookup j m.
Proof.
  intros Hne. unfold mapSet. simpl.
  destruct (String.eqb id j) eqn:E.
  - apply String.eqb_eq in E. congruence.
  - now apply mapLookup_delete_neq.
Qed.

Lemma gather_begin_valid (id : string) (topic kws : option string) (limit : Js.Limit)
    (selectors : Selectors) (s : Server) :
  Js.truthyOpt topic = true \/ Js.truthyOpt kws = true ->
  Gather.startGatherer_begin id topic kws limit selectors s
  = (Some {| Gather.jobId := id;
             Gather.searchTopic := Js.orElse topic "";
             Gather.searchKeywords := Js.orElse kws "";
             Gather.targetLimit := Gather.effectiveLimit limit;
             Gather.normalizedSelectors := normalizeSelectors selectors |},
     register id {| maxRequestsPerCrawl := (Gather.effectiveLimit limit * 5)%Z;
                    requestHandlerTimeoutSecs := Some 45%Z |} s).
Proof.
  intros H. unfold Gather.startGatherer_begin.
  assert (E : negb (Js.truthy (Js.orElse topic "")) && negb (Js.truthy (Js.orElse kws ""))
              = false).
  { destruct H as [H | H].
    - destruct topic as [t|]; simpl in *; [|discriminate]. now rewrite H, H.
    - destruct kws as [k|]; simpl in *; [|discriminate]. rewrite H, H.
      now rewrite andb_false_r. }
  now rewrite E.
Qed.

End Registry.

(** X1.  The [stop-crawl] handler: stopping a job that is not in the
    registry changes nothing; stopping twice is the same as stopping
    once; a stop emits no event, leaves every other job's entry alone and
    tears down the crawler of a registered job exactly once. *)
Theorem X1_stop_crawl_idempotent :
  forall (j : string) (s : Server),
    stop_crawl j (stop_crawl j s) = stop_crawl j s
    /\ (mapLookup j (activeCrawlers s) = None -> stop_crawl j s = s)
    /\ emitted (stop_crawl j s) = emitted s
    /\ mapLookup j (activeCrawlers (stop_crawl j s)) = None
    /\ (forall k, k <> j ->
          mapLookup k (activeCrawlers (stop_crawl j s)) = mapLookup k (activeCrawlers s))
    /\ tornDown (stop_crawl j s)
       = if mapHas j (activeCrawlers s) then tornDown s ++ [j] else tornDown s.
Proof.
  intros j s.
  assert (Hnone : mapLookup j (activeCrawlers (stop_crawl j s)) = None).
  { rewrite activeCrawlers_stop. apply mapLookup_delete_same. }
  split; [|split; [|split; [|split; [|split]]]].
  - unfold stop_crawl at 1. now rewrite Hnone.
  - intros H. unfold stop_crawl. now rewrite H.
  - apply emitted_stop.
  - exact Hnone.
  - intros k Hk. rewrite activeCrawlers_stop. now apply mapLookup_delete_neq.
  - unfold stop_crawl, mapHas. now destruct (mapLookup j (activeCrawlers s)).
Qed.

Lemma X1_witness :
  stop_crawl "1700000000001" emptyServer = emptyServer
  /\ mapLookup "1700000000000"
       (activeCrawlers
          (stop_crawl "1700000000001"
             (register "1700000000000"
                {| maxRequestsPerCrawl := 50; requestHandlerTimeoutSecs := None |}
                emptyServer)))
     = Some {| maxRequestsPerCrawl := 50; requestHandlerTimeoutSecs := None |}.
Proof.
  split.
  - apply (proj1 (proj2 (X1_stop_crawl_idempotent "1700000000001" emptyServer))).
    reflexivity.
  - rewrite (proj1 (proj2 (proj2 (proj2 (proj2
               (X1_stop_crawl_idempotent "1700000000001"
                  (register "1700000000000"
                     {| maxRequestsPerCrawl := 50; requestHandlerTimeoutSecs := None |}
                     emptyServer))))))
               "1700000000000").
    + reflexivity.
    + discriminate.
Defined.

(** X2.  The registry after a job.  When [run] resolves the job is out
    of the registry.  When [run] rejects the runner emits the error and
    deletes nothing: the job stays registered, unless a stop request for
    it came during the run.  The same in both modes (in Gather mode for a
    request that passes the check of topic and keywords). *)
Theorem X2_registry_after_job :
  (forall (id : string) (target : option string) (selectors : Selectors)
      (kws : option string) (limit : Js.Limit) (type : option string)
      (run : list Action) (s : Server),
     mapHas id (activeCrawlers
                  (Site.startCrawler id target selectors kws limit type run Resolved s))
     = false
     /\ forall message,
          (~ In (StopCrawl id) run ->
           mapLookup id (activeCrawlers
                           (Site.startCrawler id target selectors kws limit type run
                              (Rejected message) s))
           = Some {| maxRequestsPerCrawl := Site.effectiveLimit limit;
                     requestHandlerTimeoutSecs := None |})
          /\ (In (StopCrawl id) run ->
              mapLookup id (activeCrawlers
                              (Site.startCrawler id target selectors kws limit type run
                                 (Rejected message) s))
              = None))
  /\ (forall (id : string) (topic kws : option string) (limit : Js.Limit)
        (selectors : Selectors) (run : list Action) (s : Server),
       Js.truthyOpt topic = true \/ Js.truthyOpt kws = true ->
       mapHas id (activeCrawlers
                    (Gather.startGatherer id topic kws limit selectors run Resolved s))
       = false
       /\ forall message,
            (~ In (StopCrawl id) run ->
             mapLookup id (activeCrawlers
                             (Gather.startGatherer id topic kws limit selectors run
                                (Rejected message) s))
             = Some {| maxRequestsPerCrawl := (Gather.effectiveLimit limit * 5)%Z;
                       requestHandlerTimeoutSecs := Some 45%Z |})
            /\ (In (StopCrawl id) run ->
                mapLookup id (activeCrawlers
                                (Gather.startGatherer id topic kws limit selectors run
                                   (Rejected message) s))
                = None)).
Proof.
  split.
  - intros id target selectors kws limit type run s.
    unfold Site.startCrawler, Site.startCrawler_begin. split.
    + unfold mapHas. simpl. now rewrite mapLookup_delete_same.
    + intros message. simpl. rewrite site_exec_registry. simpl. split; intros H.
      * rewrite registryAfter_lookup_kept by exact H. apply mapLookup_set_same.
      * now apply registryAfter_lookup_stopped.
  - intros id topic kws limit selectors run s Hvalid.
    unfold Gather.startGatherer. rewrite (gather_begin_valid _ _ _ _ _ _ Hvalid). split.
    + unfold mapHas. simpl. now rewrite mapLookup_delete_same.
    + intros message. simpl. rewrite gather_exec_registry. simpl. split; intros H.
      * rewrite registryAfter_lookup_kept by exact H. apply mapLookup_set_same.
      * now apply registryAfter_lookup_stopped.
Qed.

Lemma X2_witness :
  mapLookup "1700000000000"
    (activeCrawlers
       (Gather.startGatherer "1700000000000" (Some "rust") None (Js.LimitString "10")
          SelUndefined
          [Handle "https://a.test/" "2026-01-01T00:00:00.000Z" repeatingPage]
          (Rejected "boom") emptyServer))
  = Some {| maxRequestsPerCrawl := 50; requestHandlerTimeoutSecs := Some 45%Z |}.
Proof.
  apply (proj2 X2_registry_after_job "1700000000000" (Some "rust") None
           (Js.LimitString "10") SelUndefined
           [Handle "https://a.test/" "2026-01-01T00:00:00.000Z" repeatingPage]
           emptyServer (or_introl eq_refl)).
  simpl. intros [H | []]. discriminate.
Defined.

(** X3.  A job leaves the other jobs alone: whatever a job's run and
    outcome, the registry entry of any other job id is what it was,
    unless a stop request for that id came during the run. *)
Theorem X3_other_jobs_untouched :
  (forall (id : string) (target : option string) (selectors : Selectors)
      (kws : option string) (limit : Js.Limit) (type : option string)
      (run : list Action) (out : Outcome) (s : Server) (j : string),
     j <> id -> ~ In (StopCrawl j) run ->
     mapLookup j (activeCrawlers
                    (Site.startCrawler id target selectors kws limit type run out s))
     = mapLookup j (activeCrawlers s))
  /\ (forall (id : string) (topic kws : option string) (limit : Js.Limit)
        (selectors : Selectors) (run : list Action) (out : Outcome) (s : Server)
        (j : string),
       j <> id -> ~ In (StopCrawl j) run ->
       mapLookup j (activeCrawlers
                      (Gather.startGatherer id topic kws limit selectors run out s))
       = mapLookup j (activeCrawlers s)).
Proof.
  split.
  - intros id target selectors kws limit type run out s j Hne Hno.
    unfold Site.startCrawler, Site.startCrawler_begin.
    destruct out as [|m]; simpl.
    + rewrite mapLookup_delete_neq by exact Hne. rewrite site_exec_registry.
      rewrite registryAfter_lookup_kept by exact Hno. simpl.
      now apply mapLookup_set_neq.
    + rewrite site_exec_registry.
      rewrite registryAfter_lookup_kept by exact Hno. simpl.
      now apply mapLookup_set_neq.
  - intros id topic kws limit selectors run out s j Hne Hno.
    unfold Gather.startGatherer, Gather.startGatherer_begin.
    destruct (negb (Js.truthy (Js.orElse topic "")) && negb (Js.truthy (Js.orElse kws "")));
      [reflexivity|].
    destruct out as [|m]; simpl.
    + rewrite mapLookup_delete_neq by exact Hne. rewrite gather_exec_registry.
      rewrite registryAfter_lookup_kept by exact Hno. simpl.
      now apply mapLookup_set_neq.
    + rewrite gather_exec_registry.
      rewrite registryAfter_lookup_kept by exact Hno. simpl.
      now apply mapLookup_set_neq.
Qed.

Lemma X3_witness :
  mapLookup "1699999999999"
    (activeCrawlers
       (Site.startCrawler "1700000000000" (Some "https://a.test/") SelUndefined None
          Js.LimitUndefined None
          [StopCrawl "1700000000000"] Resolved
          (register "1699999999999"
             {| maxRequestsPerCrawl := 7; requestHandlerTimeoutSecs := None |}
             emptyServer)))
  = Some {| maxRequestsPerCrawl := 7; requestHandlerTimeoutSecs := None |}.
Proof.
  rewrite (proj1 X3_other_jobs_untouched "1700000000000" (Some "https://a.test/")
             SelUndefined None Js.LimitUndefined None [StopCrawl "1700000000000"]
             Resolved _ "1699999999999").
  - reflexivity.
  - discriminate.
  - simpl. intros [H | []]. discriminate.
Defined.

(* ================================================================== *)
(** ** The event stream of a job *)

Section Streams.

Lemma mapHas_stop_neq (id j : string) (s : Server) :
  j <> id ->
  mapHas id (activeCrawlers (stop_crawl j s)) = mapHas id (activeCrawlers s).
Proof.
  intros Hne. unfold mapHas. rewrite activeCrawlers_stop.
  rewrite mapLookup_delete_neq; [reflexivity | congruence].
Qed.

Lemma site_handler_precise (job : Site.Job) (u now : string) (pg : Page) (s : Server) :
  mapHas (Site.jobId job) (activeCrawlers s) = true ->
  fst (Site.requestHandler job u now pg s)
  = if siteCandidate job (u, now, pg) then io_emit (siteRecord job (u, now, pg)) s else s.
Proof.
  intros Hreg. unfold Site.requestHandler. rewrite Hreg. simpl.
  now destruct (Site.matchesKeywords (Site.jobKeywords job) pg).
Qed.

Lemma site_exec_trace (job : Site.Job) (run : list Action) (s : Server) :
  mapHas (Site.jobId job) (activeCrawlers s) = true ->
  emitted (Site.exec job run s)
  = emitted s
    ++ map (siteRecord job)
         (filter (siteCandidate job) (pagesOf (untilStop (Site.jobId job) run))).
Proof.
  revert s. induction run as [|a run IH]; intros s Hreg.
  - simpl. now rewrite app_nil_r.
  - change (Site.exec job (a :: run) s) with (Site.exec job run (Site.step job s a)).
    destruct a as [u now pg | j].
    + cbn [Site.step untilStop pagesOf filter].
      rewrite (site_handler_precise job u now pg s Hreg).
      destruct (siteCandidate job (u, now, pg)).
      * rewrite IH by exact Hreg. cbn [map io_emit emitted].
        now rewrite <- app_assoc.
      * now apply IH.
    + cbn [Site.step untilStop]. destruct (String.eqb j (Site.jobId job)) eqn:E.
      * apply String.eqb_eq in E. subst j. simpl. rewrite app_nil_r.
        rewrite site_exec_unregistered by apply mapHas_stop_same.
        apply emitted_stop.
      * cbn [pagesOf]. rewrite IH.
        -- now rewrite emitted_stop.
        -- rewrite mapHas_stop_neq; [exact Hreg|].
           intros ->. now rewrite String.eqb_refl in E.
Qed.

Lemma gather_handler_precise (job : Gather.Job) (u now : string) (pg : Page)
    (st : Gather.State) :
  mapHas (Gather.jobId job) (activeCrawlers (Gather.server st)) = true ->
  fst (Gather.requestHandler job u now pg st)
  = if (Gather.emittedCount st <? Gather.targetLimit job)%Z
       && gatherCandidate job (u, now, pg)
    then Gather.emitRecord job
           (Gather.extract (Gather.normalizedSelectors job) u (Js.trim (title_text pg)) now pg)
           st
    else st.
Proof.
  intros Hreg. unfold Gather.requestHandler, gatherCandidate. rewrite Hreg. simpl.
  destruct (Z.leb_spec (Gather.targetLimit job) (Gather.emittedCount st)) as [Hle | Hgt].
  - destruct (Z.ltb_spec (Gather.emittedCount st) (Gather.targetLimit job)); [lia|].
    reflexivity.
  - destruct (Z.ltb_spec (Gather.emittedCount st) (Gather.targetLimit job)); [|lia].
    simpl. destruct (Js.includes u "duckduckgo.com"); simpl; [reflexivity|].
    now destruct (Gather.matchesKeywords _ _ pg).
Qed.

Lemma gather_exec_trace (job : Gather.Job) (run : list Action) (st : Gather.State) :
  mapHas (Gather.jobId job) (activeCrawlers (Gather.server st)) = true ->
  emitted (Gather.server (Gather.exec job run st))
  = emitted (Gather.server st)
    ++ map (gatherRecord job)
         (firstn (Z.to_nat (Gather.targetLimit job - Gather.emittedCount st))
            (filter (gatherCandidate job) (pagesOf (untilStop (Gather.jobId job) run)))).
Proof.
  revert st. induction run as [|a run IH]; intros st Hreg.
  - simpl. rewrite firstn_nil. simpl. now rewrite app_nil_r.
  - change (Gather.exec job (a :: run) st)
      with (Gather.exec job run (Gather.step job st a)).
    destruct a as [u now pg | j].
    + cbn [Gather.step untilStop pagesOf filter].
      rewrite (gather_handler_precise job u now pg st Hreg).
      destruct (Z.ltb_spec (Gather.emittedCount st) (Gather.targetLimit job)) as [Hlt | Hge].
      * cbn [andb]. destruct (gatherCandidate job (u, now, pg)).
        -- rewrite IH by exact Hreg. cbn [Gather.emitRecord Gather.server Gather.emittedCount].
           replace (Z.to_nat (Gather.targetLimit job - Gather.emittedCount st))
             with (S (Z.to_nat (Gather.targetLimit job - (Gather.emittedCount st + 1))))
             by lia.
           cbn [firstn map io_emit emitted]. now rewrite <- app_assoc.
        -- now apply IH.
      * cbn [andb]. rewrite IH by exact Hreg.
        replace (Z.to_nat (Gather.targetLimit job - Gather.emittedCount st)) with 0 by lia.
        reflexivity.
    + cbn [Gather.step untilStop]. destruct (String.eqb j (Gather.jobId job)) eqn:E.
      * apply String.eqb_eq in E. subst j. simpl. rewrite firstn_nil. simpl.
        rewrite app_nil_r.
        rewrite gather_exec_unregistered by (simpl; apply mapHas_stop_same).
        simpl. apply emitted_stop.
      * cbn [pagesOf]. rewrite IH.
        -- simpl. now rewrite emitted_stop.
        -- simpl. rewrite mapHas_stop_neq; [exact Hreg|].
           intros ->. now rewrite String.eqb_refl in E.
Qed.

Lemma site_stream (id : string) (target : option string) (selectors : Selectors)
    (kws : option string) (limit : Js.Limit) (type : option string)
    (run : list Action) (out : Outcome) (s : Server) :
  eventsSince s (Site.startCrawler id target selectors kws limit type run out s)
  = map (siteRecord {| Site.jobId := id;
                       Site.normalizedSelectors := normalizeSelectors selectors;
                       Site.jobKeywords := kws |})
        (filter (siteCandidate {| Site.jobId := id;
                                  Site.normalizedSelectors := normalizeSelectors selectors;
                                  Site.jobKeywords := kws |})
                (pagesOf (untilStop id run)))
    ++ [terminalEvent id out].
Proof.
  unfold Site.startCrawler, Site.startCrawler_begin.
  set (job := {| Site.jobId := id; Site.normalizedSelectors := _ |}).
  set (s1 := register id _ s).
  assert (Hreg : mapHas (Site.jobId job) (activeCrawlers s1) = true) by apply mapHas_set.
  pose proof (site_exec_trace job run s1 Hreg) as E. simpl in E.
  apply eventsSince_app. destruct out as [|m]; simpl; rewrite E; now rewrite app_assoc.
Qed.

Lemma gather_stream (id : string) (topic kws : option string) (limit : Js.Limit)
    (selectors : Selectors) (run : list Action) (out : Outcome) (s : Server) :
  Js.truthyOpt topic = true \/ Js.truthyOpt kws = true ->
  eventsSince s (Gather.startGatherer id topic kws limit selectors run out s)
  = map (gatherRecord {| Gather.jobId := id;
                         Gather.searchTopic := Js.orElse topic "";
                         Gather.searchKeywords := Js.orElse kws "";
                         Gather.targetLimit := Gather.effectiveLimit limit;
                         Gather.normalizedSelectors := normalizeSelectors selectors |})
        (firstn (Z.to_nat (Gather.effectiveLimit limit))
           (filter (gatherCandidate {| Gather.jobId := id;
                                       Gather.searchTopic := Js.orElse topic "";
                                       Gather.searchKeywords := Js.orElse kws "";
                                       Gather.targetLimit := Gather.effectiveLimit limit;
                                       Gather.normalizedSelectors :=
                                         normalizeSelectors selectors |})
                   (pagesOf (untilStop id run))))
    ++ [terminalEvent id out].
Proof.
  intros Hvalid. unfold Gather.startGatherer.
  rewrite (gather_begin_valid _ _ _ _ _ _ Hvalid).
  set (job := {| Gather.jobId := id; Gather.searchTopic := _ |}).
  set (s1 := register id _ s).
  assert (Hreg : mapHas (Gather.jobId job)
                   (activeCrawlers (Gather.server {| Gather.server := s1;
                                                     Gather.emittedCount := 0 |})) = true)
    by apply mapHas_set.
  pose proof (gather_exec_trace job run _ Hreg) as E. simpl in E.
  rewrite Z.sub_0_r in E.
  apply eventsSince_app. destruct out as [|m]; simpl; rewrite E; now rewrite app_assoc.
Qed.

End Streams.

Lemma pagesOf_untilStop_In (id : string) (run : list Action) (p : string * string * Page) :
  In p (pagesOf (untilStop id run)) ->
  In (Handle (fst (fst p)) (snd (fst p)) (snd p)) run.
Proof.
  induction run as [|a run IH]; simpl; [tauto|].
  destruct a as [u now pg | j].
  - simpl. intros [<- | H]; [now left | right; auto].
  - destruct (String.eqb j id); simpl; [tauto|]. intros H. right. auto.
Qed.

Lemma in_firstn {A : Type} (n : nat) (l : list A) (x : A) : In x (firstn n l) -> In x l.
Proof.
  revert l. induction n as [|n IH]; intros [|y l]; simpl; try tauto.
  intros [H | H]; [now left | right; now apply IH].
Qed.

(** X4.  The events of a Site job, all of them: one record for each page
    handed to the handler before the first stop request for the job that
    passes the keyword filter, in the order the pages were handled, and
    then the terminal event.  Pages handled after the stop add nothing. *)
Theorem X4_site_event_stream :
  forall (id : string) (target : option string) (selectors : Selectors)
    (kws : option string) (limit : Js.Limit) (type : option string)
    (run : list Action) (out : Outcome) (s : Server),
    let job := {| Site.jobId := id;
                  Site.normalizedSelectors := normalizeSelectors selectors;
                  Site.jobKeywords := kws |} in
    eventsSince s (Site.startCrawler id target selectors kws limit type run out s)
    = map (siteRecord job) (filter (siteCandidate job) (pagesOf (untilStop id run)))
      ++ [terminalEvent id out].
Proof.
  intros. apply site_stream.
Qed.

(** X5.  The events of a Gather job, all of them.  For a request with a
    topic or keywords: one record for each of the first [targetLimit]
    pages, among those handed to the handler before the first stop
    request for the job, that are no results pages and pass the keyword
    filter, in the order handled, and then the terminal event.  For a
    request with neither: the error event and nothing else. *)
Theorem X5_gather_event_stream :
  forall (id : string) (topic kws : option string) (limit : Js.Limit)
    (selectors : Selectors) (run : list Action) (out : Outcome) (s : Server),
    let job := {| Gather.jobId := id;
                  Gather.searchTopic := Js.orElse topic "";
                  Gather.searchKeywords := Js.orElse kws "";
                  Gather.targetLimit := Gather.effectiveLimit limit;
                  Gather.normalizedSelectors := normalizeSelectors selectors |} in
    (Js.truthyOpt topic = true \/ Js.truthyOpt kws = true ->
     eventsSince s (Gather.startGatherer id topic kws limit selectors run out s)
     = map (gatherRecord job)
           (firstn (Z.to_nat (Gather.effectiveLimit limit))
              (filter (gatherCandidate job) (pagesOf (untilStop id run))))
       ++ [terminalEvent id out])
    /\ (Js.truthyOpt topic = false -> Js.truthyOpt kws = false ->
        eventsSince s (Gather.startGatherer id topic kws limit selectors run out s)
        = [CrawlError id "No topic or keywords provided for search."]).
Proof.
  intros id topic kws limit selectors run out s job. split.
  - intros Hvalid. now apply gather_stream.
  - intros Ht Hk. unfold Gather.startGatherer, Gather.startGatherer_begin.
    rewrite (orElse_falsy _ Ht), (orElse_falsy _ Hk). simpl.
    apply eventsSince_emit.
Qed.

(** A Gather job with limit 1: of two matching pages the first is
    reported, the second is not. *)
Lemma X5_witness :
  eventsSince emptyServer
    (Gather.startGatherer "1700000000000" (Some "rust") None (Js.LimitString "1")
       (SelArray ["links"])
       [Handle "https://a.test/" "2026-01-01T00:00:00.000Z" repeatingPage;
        Handle "https://b.test/" "2026-01-01T00:00:01.000Z" repeatingPage]
       Resolved emptyServer)
  = [CrawlData "1700000000000"
       (Gather.extract ["links"] "https://a.test/" "Rust" "2026-01-01T00:00:00.000Z"
          repeatingPage);
     CrawlComplete "1700000000000"].
Proof.
  rewrite (proj1 (X5_gather_event_stream "1700000000000" (Some "rust") None
                    (Js.LimitString "1") (SelArray ["links"])
                    [Handle "https://a.test/" "2026-01-01T00:00:00.000Z" repeatingPage;
                     Handle "https://b.test/" "2026-01-01T00:00:01.000Z" repeatingPage]
                    Resolved emptyServer) (or_introl eq_refl)).
  reflexivity.
Defined.

(** X6.  The shape of every job's event stream, in both modes and for
    every request, run and outcome: all events travel on the job's own
    channels; all but the last are records; the last one, and only it, is
    a terminal event. *)
Theorem X6_one_terminal_event_last :
  (forall (id : string) (target : option string) (selectors : Selectors)
      (kws : option string) (limit : Js.Limit) (type : option string)
      (run : list Action) (out : Outcome) (s : Server),
     exists recs e,
       eventsSince s (Site.startCrawler id target selectors kws limit type run out s)
       = recs ++ [e]
       /\ Forall (fun x => isTerminal x = false /\ eventJob x = id) recs
       /\ isTerminal e = true /\ eventJob e = id)
  /\ (forall (id : string) (topic kws : option string) (limit : Js.Limit)
        (selectors : Selectors) (run : list Action) (out : Outcome) (s : Server),
       exists recs e,
         eventsSince s (Gather.startGatherer id topic kws limit selectors run out s)
         = recs ++ [e]
         /\ Forall (fun x => isTerminal x = false /\ eventJob x = id) recs
         /\ isTerminal e = true /\ eventJob e = id).
Proof.
  split.
  - intros id target selectors kws limit type run out s.
    rewrite site_stream. eexists. exists (terminalEvent id out).
    split; [reflexivity|]. split; [|destruct out; auto].
    apply Forall_forall. intros x Hx. apply in_map_iff in Hx.
    destruct Hx as ([[u now] pg] & <- & _). auto.
  - intros id topic kws limit selectors run out s.
    destruct (Js.truthyOpt topic) eqn:Ht; [|destruct (Js.truthyOpt kws) eqn:Hk].
    + rewrite gather_stream by now left. eexists. exists (terminalEvent id out).
      split; [reflexivity|]. split; [|destruct out; auto].
      apply Forall_forall. intros x Hx. apply in_map_iff in Hx.
      destruct Hx as ([[u now] pg] & <- & _). auto.
    + rewrite gather_stream by now right. eexists. exists (terminalEvent id out).
      split; [reflexivity|]. split; [|destruct out; auto].
      apply Forall_forall. intros x Hx. apply in_map_iff in Hx.
      destruct Hx as ([[u now] pg] & <- & _). auto.
    + exists [], (CrawlError id "No topic or keywords provided for search.").
      split; [|auto].
      unfold Gather.startGatherer, Gather.startGatherer_begin.
      rewrite (orElse_falsy _ Ht), (orElse_falsy _ Hk). simpl.
      apply eventsSince_emit.
Qed.

(** X7.  Where a Gather record comes from: every record a Gather job
    emits is the extraction of a page that was handed to the handler
    during the run, whose URL does not contain the provider's host and
    which passed the keyword filter; it carries that URL, the trimmed
    title and the type "gathered".  A results page is never reported. *)
Theorem X7_gather_record_provenance :
  forall (id : string) (topic kws : option string) (limit : Js.Limit)
    (selectors : Selectors) (run : list Action) (out : Outcome) (s : Server)
    (j : string) (d : ExtractedData),
    In (CrawlData j d)
       (eventsSince s (Gather.startGatherer id topic kws limit selectors run out s)) ->
    j = id
    /\ exists u now pg,
         In (Handle u now pg) run
         /\ d = Gather.extract (normalizeSelectors selectors) u (Js.trim (title_text pg)) now pg
         /\ Js.includes u "duckduckgo.com" = false
         /\ Gather.matchesKeywords (Js.orElse kws "") (Js.trim (title_text pg)) pg = true
         /\ url d = u /\ title d = Js.trim (title_text pg) /\ type_ d = "gathered".
Proof.
  intros id topic kws limit selectors run out s j d Hin.
  assert (Hvalid : Js.truthyOpt topic = true \/ Js.truthyOpt kws = true).
  { destruct (Js.truthyOpt topic) eqn:Ht; [now left|].
    destruct (Js.truthyOpt kws) eqn:Hk; [now right|]. exfalso.
    unfold Gather.startGatherer, Gather.startGatherer_begin in Hin.
    rewrite (orElse_falsy _ Ht), (orElse_falsy _ Hk) in Hin. simpl in Hin.
    rewrite eventsSince_emit in Hin. destruct Hin as [H | []]. discriminate. }
  rewrite (gather_stream _ _ _ _ _ _ _ _ Hvalid) in Hin.
  apply in_app_or in Hin. destruct Hin as [Hin | [H | []]]; [|destruct out; discriminate].
  apply in_map_iff in Hin. destruct Hin as ([[u now] pg] & E & Hp).
  apply in_firstn in Hp. apply filter_In in Hp. destruct Hp as [Hp Hc].
  apply pagesOf_untilStop_In in Hp. simpl in Hp, E, Hc.
  injection E as <- <-. split; [reflexivity|]. exists u, now, pg.
  apply andb_true_iff in Hc. destruct Hc as [H1 H2]. apply negb_true_iff in H1.
  repeat split; auto.
Qed.

Lemma X7_witness :
  exists u now pg,
    In (Handle u now pg)
       [Handle "https://a.test/" "2026-01-01T00:00:00.000Z" repeatingPage]
    /\ Js.includes u "duckduckgo.com" = false.
Proof.
  destruct (X7_gather_record_provenance "1700000000000" (Some "rust") None
              (Js.LimitString "1") (SelArray ["links"])
              [Handle "https://a.test/" "2026-01-01T00:00:00.000Z" repeatingPage]
              Resolved emptyServer "1700000000000"
              (Gather.extract ["links"] "https://a.test/" "Rust"
                 "2026-01-01T00:00:00.000Z" repeatingPage))
    as (_ & u & now & pg & Hin & _ & Hddg & _).
  - simpl. left. reflexivity.
  - exists u, now, pg. split; assumption.
Defined.

(* ================================================================== *)
(** ** The two levels of a Gather crawl *)

Lemma searchUrl_is_results_page (q : string) (i : nat) :
  Js.includes (Gather.searchUrl q i) "duckduckgo.com" = true.
Proof.
  apply includes_iff. exists "https://".
  exists ("/html/?q=" ++ Js.encodeURIComponent q ++ "&s="
            ++ Js.numberToString (Z.of_nat i * Gather.itemsPerPage))%string.
  reflexivity.
Qed.

(** X8.  Every seed URL of a Gather job is a results page for the
    handler: handling it never emits a record and never changes the
    job's counter, and for a registered job below its limit it enqueues
    exactly the resolved result links of the page. *)
Theorem X8_seeds_are_results_pages :
  forall (job : Gather.Job) (seed now : string) (pg : Page) (st : Gather.State),
    In seed (Gather.seeds job) ->
    Js.includes seed "duckduckgo.com" = true
    /\ fst (Gather.requestHandler job seed now pg st) = st
    /\ (mapHas (Gather.jobId job) (activeCrawlers (Gather.server st)) = true ->
        (Gather.emittedCount st < Gather.targetLimit job)%Z ->
        snd (Gather.requestHandler job seed now pg st) = Gather.enqueueResults pg).
Proof.
  intros job seed now pg st Hin.
  unfold Gather.seeds, Gather.searchUrls in Hin. apply in_map_iff in Hin.
  destruct Hin as (i & <- & _).
  pose proof (searchUrl_is_results_page
                (Gather.query (Gather.searchTopic job) (Gather.searchKeywords job)) i) as Hddg.
  split; [exact Hddg|]. split.
  - unfold Gather.requestHandler. rewrite Hddg.
    destruct (negb (mapHas _ _)); [reflexivity|].
    now destruct (Gather.targetLimit job <=? Gather.emittedCount st)%Z.
  - intros Hreg Hlt. rewrite gather_handler_enqueues by assumption. now rewrite Hddg.
Qed.

Lemma X8_witness :
  Js.includes "https://duckduckgo.com/html/?q=rust&s=30" "duckduckgo.com" = true.
Proof.
  apply (X8_seeds_are_results_pages
           {| Gather.jobId := "1700000000000"; Gather.searchTopic := "rust";
              Gather.searchKeywords := ""; Gather.targetLimit := 10;
              Gather.normalizedSelectors := [] |}
           "https://duckduckgo.com/html/?q=rust&s=30" "2026-01-01T00:00:00.000Z"
           repeatingPage
           {| Gather.server := emptyServer; Gather.emittedCount := 0 |}).
  simpl. right. left. reflexivity.
Defined.

(** X9.  A Gather crawl goes no deeper than the search results: whatever
    a results page makes the handler enqueue is a link that the handler
    treats as a content page, and handling a content page enqueues
    nothing, whatever the page contains. *)
Theorem X9_enqueued_pages_are_leaves :
  forall (pg : Page) (target label : string),
    In (EnqueueUrl target label) (Gather.enqueueResults pg) ->
    Js.includes target "duckduckgo.com" = false
    /\ forall (job : Gather.Job) (now : string) (pg' : Page) (st : Gather.State),
         snd (Gather.requestHandler job target now pg' st) = [].
Proof.
  intros pg target label Hin.
  assert (Hddg : Js.includes target "duckduckgo.com" = false).
  { unfold Gather.enqueueResults in Hin. apply in_flat_map in Hin.
    destruct Hin as (link & _ & Hcall).
    destruct (Gather.accepted (Gather.resolveLink link)) eqn:Hacc; [|contradiction].
    destruct Hcall as [E | []]. injection E as <- _.
    unfold Gather.accepted in Hacc. apply andb_true_iff in Hacc.
    destruct Hacc as [_ H]. now apply negb_true_iff in H. }
  split; [exact Hddg|]. intros job now pg' st.
  unfold Gather.requestHandler. rewrite Hddg.
  destruct (negb (mapHas _ _)); [reflexivity|].
  now destruct (Gather.targetLimit job <=? Gather.emittedCount st)%Z.
Qed.

Lemma X9_witness :
  Js.includes "https://example.com" "duckduckgo.com" = false.
Proof.
  apply (X9_enqueued_pages_are_leaves
           (pageOfResults ["/l/?uddg=https%3A%2F%2Fexample.com&rut=x"])
           "https://example.com" "DETAIL").
  simpl. left. reflexivity.
Defined.

(* ================================================================== *)
(** ** What the extractors keep *)

Lemma mapGet_In (l : list (option string)) (x : string) :
  In x (mapGet l) <-> In (Some x) l.
Proof.
  induction l as [|[y|] l IH]; simpl.
  - reflexivity.
  - rewrite IH. split; intros [H | H]; auto; left; congruence.
  - rewrite IH. split; [auto | intros [H | H]; [discriminate | exact H]].
Qed.

Lemma sameSrc_eq (a b : option string) : sameSrc a b = true <-> a = b.
Proof.
  destruct a as [x|], b as [y|]; simpl; split; try congruence; try discriminate.
  - intros H. apply String.eqb_eq in H. now subst.
  - intros H. injection H as ->. apply String.eqb_refl.
Qed.

Lemma findIndex_found {A : Type} (p : A -> bool) (l : list A) (v : A) :
  In v l -> p v = true ->
  exists i w, Js.findIndex p l = Some i /\ nth_error l i = Some w /\ p w = true.
Proof.
  induction l as [|x l IH]; simpl; [tauto|]. intros Hin Hv.
  destruct (p x) eqn:Hx.
  - exists 0, x. auto.
  - destruct Hin as [-> | Hin]; [congruence|].
    destruct (IH Hin Hv) as (i & w & E & Hn & Hw).
    exists (S i), w. rewrite E. auto.
Qed.

Lemma nth_error_combine_seq {A : Type} (l : list A) (k i : nat) (w : A) :
  nth_error l i = Some w -> In (k + i, w) (combine (seq k (List.length l)) l).
Proof.
  revert k i. induction l as [|x l IH]; intros k [|i]; simpl; try discriminate.
  - intros E. injection E as ->. left. now rewrite Nat.add_0_r.
  - intros E. right. rewrite <- Nat.add_succ_comm. now apply IH.
Qed.

(** The images kept by [Site.extractImages], in terms of the page. *)
Lemma site_images_kept (pg : Page) :
  (forall img, In img (Site.extractImages pg) ->
               In img (img_elements pg) /\ Js.truthyOpt (src img) = true)
  /\ (forall img, In img (img_elements pg) -> Js.truthyOpt (src img) = true ->
                  exists kept, In kept (Site.extractImages pg) /\ src kept = src img).
Proof.
  unfold Site.extractImages, Js.filterIndexed.
  set (a := filter (fun img => Js.truthyOpt (src img)) (img_elements pg)). split.
  - intros img Hin. apply in_map_iff in Hin. destruct Hin as ([i w] & E & Hin).
    simpl in E. subst w. apply filter_In in Hin. destruct Hin as [Hin _].
    apply combine_seq_In in Hin. destruct Hin as [_ Hn]. apply nth_error_In in Hn.
    subst a. now apply filter_In in Hn.
  - intros img Hin Hsrc.
    assert (Ha : In img a) by (subst a; apply filter_In; auto).
    destruct (findIndex_found (fun t => sameSrc (src t) (src img)) a img Ha)
      as (i & w & Ef & Hn & Hw); [now apply sameSrc_eq|].
    apply sameSrc_eq in Hw. exists w. split; [|exact Hw].
    apply in_map_iff. exists (i, w). split; [reflexivity|].
    apply filter_In. split.
    + apply (nth_error_combine_seq a 0 i w Hn).
    + simpl. rewrite Hw, Ef. simpl. apply Nat.eqb_refl.
Qed.

(** X10.  Site-mode de-duplication loses nothing and invents nothing:
    the headings of a record are exactly the non-empty trimmed heading
    texts of the page, its links exactly the non-empty [href] values, and
    for every image element with a non-empty [src] exactly one image with
    that [src] is kept, itself an element of the page. *)
Theorem X10_site_dedup_is_complete :
  forall pg : Page,
    (forall h, In h (Site.extractHeadings pg)
               <-> h <> "" /\ exists raw, In raw (heading_texts pg) /\ h = Js.trim raw)
    /\ (forall l, In l (Site.extractLinks pg) <-> l <> "" /\ In (Some l) (anchor_hrefs pg))
    /\ (forall img, In img (Site.extractImages pg) ->
                    In img (img_elements pg) /\ Js.truthyOpt (src img) = true)
    /\ (forall img, In img (img_elements pg) -> Js.truthyOpt (src img) = true ->
                    exists kept, In kept (Site.extractImages pg) /\ src kept = src img)
    /\ NoDup (Site.extractHeadings pg)
    /\ NoDup (Site.extractLinks pg)
    /\ NoDup (map src (Site.extractImages pg)).
Proof.
  intros pg. split; [|split; [|split; [|split; [|split; [|split]]]]].
  - intros h. unfold Site.extractHeadings.
    rewrite newSet_In, filter_In, in_map_iff, nonEmpty_length. split.
    + intros [(raw & <- & Hraw) Hne]. split; [exact Hne | now exists raw].
    + intros [Hne (raw & Hraw & ->)]. split; [now exists raw | exact Hne].
  - intros l. unfold Site.extractLinks. rewrite newSet_In, filter_In, mapGet_In.
    unfold Js.truthy. rewrite negb_true_iff. split.
    + intros [Hin Hne]. split; [|exact Hin]. intros ->. discriminate.
    + intros [Hne Hin]. split; [exact Hin|]. now apply String.eqb_neq.
  - apply site_images_kept.
  - apply site_images_kept.
  - apply newSet_NoDup.
  - apply newSet_NoDup.
  - apply first_by_src_NoDup.
Qed.

Lemma X10_witness :
  exists kept, In kept (Site.extractImages repeatingPage)
               /\ src kept = Some "https://a.test/i.png".
Proof.
  apply (proj1 (proj2 (proj2 (proj2 (X10_site_dedup_is_complete repeatingPage))))
           {| src := Some "https://a.test/i.png"; alt := Some "logo" |}).
  - simpl. right. left. reflexivity.
  - reflexivity.
Defined.

(** X11.  The size and content of a Gather record's lists: at most 10
    images and 20 links, all taken from the page, every image [src] and
    every link starting with [http]; every heading is a trimmed heading
    text of the page of at least 3 characters. *)
Theorem X11_gather_lists_are_bounded :
  forall pg : Page,
    List.length (Gather.extractImages pg) <= 10
    /\ List.length (Gather.extractLinks pg) <= 20
    /\ (forall img, In img (Gather.extractImages pg) ->
                    In img (img_elements pg)
                    /\ exists s, src img = Some s /\ Js.startsWith s "http" = true)
    /\ (forall l, In l (Gather.extractLinks pg) ->
                  In (Some l) (anchor_hrefs pg) /\ Js.startsWith l "http" = true)
    /\ (forall h, In h (Gather.extractHeadings pg) ->
                  3 <= String.length h
                  /\ exists raw, In raw (heading_texts pg) /\ h = Js.trim raw).
Proof.
  intros pg. split; [|split; [|split; [|split]]].
  - apply firstn_le_length.
  - apply firstn_le_length.
  - intros img Hin. unfold Gather.extractImages, Js.slice0 in Hin.
    apply in_firstn in Hin. apply filter_In in Hin. destruct Hin as [Hin Hs].
    split; [exact Hin|]. unfold Gather.isHttpSrc in Hs.
    destruct (src img) as [x|]; [|discriminate].
    apply andb_true_iff in Hs. exists x. split; [reflexivity | apply Hs].
  - intros l Hin. unfold Gather.extractLinks, Js.slice0 in Hin.
    apply in_firstn in Hin. apply filter_In in Hin. destruct Hin as [Hin Hs].
    apply mapGet_In in Hin. apply andb_true_iff in Hs. split; [exact Hin | apply Hs].
  - intros h Hin. unfold Gather.extractHeadings in Hin.
    apply filter_In in Hin. destruct Hin as [Hin Hlen].
    apply Nat.ltb_lt in Hlen. split; [lia|].
    apply in_map_iff in Hin. destruct Hin as (raw & <- & Hraw). now exists raw.
Qed.

Lemma X11_witness :
  In (Some "https://a.test/x") (anchor_hrefs repeatingPage)
  /\ Js.startsWith "https://a.test/x" "http" = true.
Proof.
  apply (proj1 (proj2 (proj2 (proj2 (X11_gather_lists_are_bounded repeatingPage))))
           "https://a.test/x").
  simpl. left. reflexivity.
Defined.

(* ================================================================== *)
(** ** Letter case and white space *)

Ltac each_char c := destruct c as [[] [] [] [] [] [] [] []]; reflexivity.

Section CaseAndSpace.

Lemma lowerChar_idem (c : ascii) : Js.lowerChar (Js.lowerChar c) = Js.lowerChar c.
Proof. each_char c. Qed.

Lemma isWhiteSpace_lower (c : ascii) : Js.isWhiteSpace (Js.lowerChar c) = Js.isWhiteSpace c.
Proof. each_char c. Qed.

Lemma comma_lower (c : ascii) : Ascii.eqb (Js.lowerChar c) "," = Ascii.eqb c ",".
Proof. each_char c. Qed.

Lemma toLowerCase_idem (s : string) : Js.toLowerCase (Js.toLowerCase s) = Js.toLowerCase s.
Proof.
  induction s as [|c s IH]; simpl; [reflexivity|]. now rewrite lowerChar_idem, IH.
Qed.

Lemma toLowerCase_length (s : string) : String.length (Js.toLowerCase s) = String.length s.
Proof. induction s as [|c s IH]; simpl; [reflexivity | now rewrite IH]. Qed.

Lemma trimStart_lower (s : string) :
  Js.trimStart (Js.toLowerCase s) = Js.toLowerCase (Js.trimStart s).
Proof.
  induction s as [|c s IH]; simpl; [reflexivity|].
  rewrite isWhiteSpace_lower. now destruct (Js.isWhiteSpace c).
Qed.

Lemma trimEnd_lower (s : string) :
  Js.trimEnd (Js.toLowerCase s) = Js.toLowerCase (Js.trimEnd s).
Proof.
  induction s as [|c s IH]; simpl; [reflexivity|].
  rewrite IH, isWhiteSpace_lower.
  destruct (Js.trimEnd s); simpl; [now destruct (Js.isWhiteSpace c) | reflexivity].
Qed.

(** [k.trim().toLowerCase()] and [k.toLowerCase().trim()] are the same. *)
Lemma trim_lower (s : string) : Js.trim (Js.toLowerCase s) = Js.toLowerCase (Js.trim s).
Proof. unfold Js.trim. now rewrite trimStart_lower, trimEnd_lower. Qed.

Lemma split_lower (s : string) :
  Js.split "," (Js.toLowerCase s) = map Js.toLowerCase (Js.split "," s).
Proof.
  induction s as [|c s IH]; simpl; [reflexivity|].
  rewrite comma_lower, IH. destruct (Ascii.eqb c ","); [reflexivity|].
  now destruct (Js.split "," s).
Qed.

Lemma trimEnd_idem (s : string) : Js.trimEnd (Js.trimEnd s) = Js.trimEnd s.
Proof.
  induction s as [|c s IH]; simpl; [reflexivity|].
  destruct (Js.trimEnd s) as [|d t] eqn:E.
  - destruct (Js.isWhiteSpace c) eqn:W; simpl; [reflexivity | now rewrite W].
  - cbn [Js.trimEnd]. fold Js.trimEnd. cbn [Js.trimEnd] in IH. now rewrite IH.
Qed.

Lemma trimStart_fixed (s : string) : leftTrimmed s -> Js.trimStart s = s.
Proof. destruct s as [|c s]; simpl; [reflexivity | now intros ->]. Qed.

Lemma trim_idem (s : string) : Js.trim (Js.trim s) = Js.trim s.
Proof.
  unfold Js.trim.
  rewrite (trimStart_fixed (Js.trimEnd (Js.trimStart s)))
    by apply trimEnd_leftTrimmed, trimStart_leftTrimmed.
  apply trimEnd_idem.
Qed.

Lemma normalise_idem (s : string) :
  Js.trim (Js.toLowerCase (Js.trim (Js.toLowerCase s))) = Js.trim (Js.toLowerCase s).
Proof. now rewrite <- trim_lower, toLowerCase_idem, trim_idem. Qed.

Lemma site_keywordList_lower (kw : string) :
  Site.keywordList (Js.toLowerCase kw) = Site.keywordList kw.
Proof.
  unfold Site.keywordList. rewrite split_lower, map_map. apply map_ext. intros k.
  now rewrite trim_lower, toLowerCase_idem.
Qed.

Lemma gather_keywordList_lower (kws : string) :
  Gather.keywordList (Js.toLowerCase kws) = Gather.keywordList kws.
Proof.
  unfold Gather.keywordList. f_equal. rewrite split_lower, map_map. apply map_ext.
  intros k. now rewrite trim_lower, toLowerCase_idem.
Qed.

Lemma truthy_lower (s : string) : Js.truthy (Js.toLowerCase s) = Js.truthy s.
Proof. now destruct s. Qed.

End CaseAndSpace.

(** X12.  Keyword matching ignores letter case, in the keywords and in
    the page: the Site filter gives the same answer for a keywords string
    and for its lower-cased form, on any two pages whose body texts agree
    up to case; the Gather filter likewise, with the titles agreeing up
    to case as well. *)
Theorem X12_keyword_filter_ignores_case :
  (forall (kw : string) (pg pg' : Page),
     Js.toLowerCase (body_text pg) = Js.toLowerCase (body_text pg') ->
     Site.matchesKeywords (Some kw) pg
     = Site.matchesKeywords (Some (Js.toLowerCase kw)) pg')
  /\ (forall (kws pageTitle pageTitle' : string) (pg pg' : Page),
        Js.toLowerCase (body_text pg) = Js.toLowerCase (body_text pg') ->
        Js.toLowerCase pageTitle = Js.toLowerCase pageTitle' ->
        Gather.matchesKeywords kws pageTitle pg
        = Gather.matchesKeywords (Js.toLowerCase kws) pageTitle' pg').
Proof.
  split.
  - intros kw pg pg' Hbody. unfold Site.matchesKeywords.
    now rewrite toLowerCase_length, site_keywordList_lower, Hbody.
  - intros kws t t' pg pg' Hbody Htitle. unfold Gather.matchesKeywords.
    now rewrite truthy_lower, gather_keywordList_lower, Hbody, Htitle.
Qed.

Lemma X12_witness :
  Site.matchesKeywords (Some "RUST, Go") repeatingPage
  = Site.matchesKeywords (Some "rust, go") repeatingPage.
Proof.
  apply (proj1 X12_keyword_filter_ignores_case "RUST, Go" repeatingPage repeatingPage).
  reflexivity.
Defined.

(** X13.  Selector normalisation reaches a normal form: every normalised
    selector is lower-case and has no white space at either end, so
    normalising a normalised list again changes nothing; and lower-casing
    before trimming, as for selectors, gives the same as trimming before
    lower-casing, as for keywords. *)
Theorem X13_normalize_selectors_idempotent :
  forall selectors : Selectors,
    normalizeSelectors (SelArray (normalizeSelectors selectors))
    = normalizeSelectors selectors
    /\ (forall x, In x (normalizeSelectors selectors) ->
                  Js.toLowerCase x = x /\ Js.trim x = x)
    /\ (forall s, Js.trim (Js.toLowerCase s) = Js.toLowerCase (Js.trim s)).
Proof.
  intros selectors.
  assert (Hnf : forall l, map (fun s => Js.trim (Js.toLowerCase s))
                            (map (fun s => Js.trim (Js.toLowerCase s)) l)
                          = map (fun s => Js.trim (Js.toLowerCase s)) l).
  { intros l. rewrite map_map. apply map_ext. intros s. apply normalise_idem. }
  assert (Hin : forall l x, In x (map (fun s => Js.trim (Js.toLowerCase s)) l) ->
                            Js.toLowerCase x = x /\ Js.trim x = x).
  { intros l x Hx. apply in_map_iff in Hx. destruct Hx as (s & <- & _). split.
    - now rewrite <- trim_lower, toLowerCase_idem.
    - apply trim_idem. }
  split; [|split].
  - destruct selectors as [|s|l]; simpl.
    + reflexivity.
    + destruct (Js.truthy s); [apply Hnf | reflexivity].
    + apply Hnf.
  - intros x Hx. destruct selectors as [|s|l]; simpl in Hx.
    + contradiction.
    + destruct (Js.truthy s); [exact (Hin _ x Hx) | contradiction].
    + exact (Hin l x Hx).
  - apply trim_lower.
Qed.

Lemma X13_witness :
  Js.toLowerCase "headings" = "headings" /\ Js.trim "headings" = "headings".
Proof.
  apply (proj1 (proj2 (X13_normalize_selectors_idempotent (SelString " Headings ,TEXT")))).
  simpl. left. reflexivity.
Defined.

(* ================================================================== *)
(** ** Encoding a target and resolving the wrapper *)

Section WrapperRoundTrip.

Ltac each_char_if c H :=
  destruct c as [[] [] [] [] [] [] [] []]; intros H;
  first [ discriminate H | reflexivity ].

Lemma encodeChar_isEncoded (c : ascii) : allChars isEncoded (Js.encodeChar c) = true.
Proof. each_char c. Qed.

Lemma percentDecode_encodeChar (c : ascii) (rest : string) :
  isAscii c = true ->
  Url.percentDecode (Js.encodeChar c ++ rest) = String c (Url.percentDecode rest).
Proof. revert rest. intros rest. revert c. intros c. each_char_if c H. Qed.

Lemma encoded_plain (c : ascii) : isEncoded c = true -> isPlain c = true.
Proof. each_char_if c H. Qed.

Lemma encoded_not_amp (c : ascii) : isEncoded c = true -> negb (Ascii.eqb c "&") = true.
Proof. each_char_if c H. Qed.

Lemma encoded_not_plus (c : ascii) : isEncoded c = true -> negb (Ascii.eqb c "+") = true.
Proof. each_char_if c H. Qed.

Lemma plain_not_tab (c : ascii) : isPlain c = true -> Url.isTabOrNewline c = false.
Proof. each_char_if c H. Qed.

Lemma plain_not_space (c : ascii) : isPlain c = true -> Url.isC0OrSpace c = false.
Proof. each_char_if c H. Qed.

Lemma plain_not_hash (c : ascii) : isPlain c = true -> Ascii.eqb c "#" = false.
Proof. each_char_if c H. Qed.

Lemma allChars_app (p : ascii -> bool) (a b : string) :
  allChars p (a ++ b) = allChars p a && allChars p b.
Proof. induction a as [|c a IH]; simpl; [reflexivity | now rewrite IH, andb_assoc]. Qed.

Lemma allChars_impl (p q : ascii -> bool) (s : string) :
  (forall c, p c = true -> q c = true) -> allChars p s = true -> allChars q s = true.
Proof.
  intros Himp. induction s as [|c s IH]; simpl; [reflexivity|].
  rewrite !andb_true_iff. intros [H1 H2]. auto.
Qed.

Lemma append_empty_r (s : string) : (s ++ "")%string = s.
Proof. induction s as [|c s IH]; simpl; [reflexivity | now rewrite IH]. Qed.

Lemma append_assoc_str (a b c : string) : (a ++ (b ++ c))%string = ((a ++ b) ++ c)%string.
Proof. induction a as [|x a IH]; simpl; [reflexivity | now rewrite IH]. Qed.

Lemma encodeURIComponent_isEncoded (t : string) :
  allChars isEncoded (Js.encodeURIComponent t) = true.
Proof.
  induction t as [|c t IH]; simpl; [reflexivity|].
  now rewrite allChars_app, encodeChar_isEncoded, IH.
Qed.

(** Decoding undoes encoding, for text of one-byte characters below 128. *)
Lemma percentDecode_encode (t rest : string) :
  allChars isAscii t = true ->
  Url.percentDecode (Js.encodeURIComponent t ++ rest) = (t ++ Url.percentDecode rest)%string.
Proof.
  induction t as [|c t IH]; simpl; [reflexivity|].
  rewrite andb_true_iff. intros [Hc Ht].
  rewrite <- append_assoc_str, percentDecode_encodeChar by exact Hc.
  now rewrite IH.
Qed.

Lemma plusToSpace_keep (a : string) :
  allChars (fun c => negb (Ascii.eqb c "+")) a = true -> Url.plusToSpace a = a.
Proof.
  induction a as [|c a IH]; simpl; [reflexivity|].
  rewrite andb_true_iff. intros [Hc Ha]. apply negb_true_iff in Hc.
  now rewrite Hc, IH.
Qed.

Lemma stripTrailing_keep (a b : string) :
  allChars isPlain a = true -> Url.stripTrailing (a ++ b) = (a ++ Url.stripTrailing b)%string.
Proof.
  induction a as [|c a IH]; simpl; [reflexivity|].
  rewrite andb_true_iff. intros [Hc Ha]. rewrite IH by exact Ha.
  rewrite (plain_not_space c Hc). now destruct (a ++ Url.stripTrailing b)%string.
Qed.

Lemma removeTabNewline_keep (a b : string) :
  allChars isPlain a = true ->
  Url.removeTabNewline (a ++ b) = (a ++ Url.removeTabNewline b)%string.
Proof.
  induction a as [|c a IH]; simpl; [reflexivity|].
  rewrite andb_true_iff. intros [Hc Ha].
  now rewrite (plain_not_tab c Hc), IH.
Qed.

Lemma before_hash_keep (a b : string) :
  allChars isPlain a = true -> Url.before "#" (a ++ b) = (a ++ Url.before "#" b)%string.
Proof.
  induction a as [|c a IH]; simpl; [reflexivity|].
  rewrite andb_true_iff. intros [Hc Ha].
  now rewrite (plain_not_hash c Hc), IH.
Qed.

Lemma split_nonempty (sep : ascii) (s : string) : Js.split sep s <> [].
Proof.
  destruct s as [|c s]; simpl; [discriminate|].
  destruct (Ascii.eqb c sep); [discriminate|].
  destruct (Js.split sep s); discriminate.
Qed.

Lemma split_app_keep (sep : ascii) (a b : string) :
  allChars (fun c => negb (Ascii.eqb c sep)) a = true ->
  Js.split sep (a ++ b)
  = (a ++ hd "" (Js.split sep b))%string :: tl (Js.split sep b).
Proof.
  induction a as [|c a IH]; simpl.
  - intros _. destruct (Js.split sep b) eqn:E; [|reflexivity].
    now apply split_nonempty in E.
  - rewrite andb_true_iff. intros [Hc Ha]. apply negb_true_iff in Hc.
    now rewrite Hc, IH.
Qed.

(** What is left of the text behind the encoded target once the parser
    has cut the fragment: nothing, or more parameters. *)
Lemma tail_of_query (rest : string) :
  rest = "" \/ Js.startsWith rest "&" = true ->
  hd "" (Js.split "&" (Url.before "#" (Url.removeTabNewline (Url.stripTrailing rest)))) = "".
Proof.
  intros [-> | H]; [reflexivity|].
  apply startsWith_iff in H. destruct H as [r ->].
  change ("&" ++ r)%string with (String "&" r).
  change (String "&" r) with ("&" ++ r)%string.
  rewrite stripTrailing_keep, removeTabNewline_keep, before_hash_keep by reflexivity.
  reflexivity.
Qed.

Lemma wrapper_query (q rest : string) :
  allChars isPlain q = true ->
  Url.query ("/l/?" ++ q ++ rest)
  = (q ++ Url.before "#" (Url.removeTabNewline (Url.stripTrailing rest)))%string.
Proof.
  intros Hq. unfold Url.query, Url.preprocess.
  change (Url.stripLeading ("/l/?" ++ q ++ rest)) with ("/l/?" ++ (q ++ rest))%string.
  rewrite (append_assoc_str "/l/?" q rest).
  assert (Hp : allChars isPlain ("/l/?" ++ q) = true)
    by (rewrite allChars_app, Hq; reflexivity).
  rewrite stripTrailing_keep, removeTabNewline_keep, before_hash_keep by exact Hp.
  rewrite <- append_assoc_str. reflexivity.
Qed.

End WrapperRoundTrip.

(** X14.  Resolving undoes the provider's wrapping: a link made of
    [/l/?uddg=], the percent-encoded form of a target and then nothing or
    further parameters, resolves to the target itself.  Stated for
    targets that are not empty and whose characters are below 128. *)
Theorem X14_wrapper_round_trip :
  forall (target rest : string),
    allChars isAscii target = true ->
    target <> "" ->
    rest = "" \/ Js.startsWith rest "&" = true ->
    Gather.resolveLink ("/l/?uddg=" ++ Js.encodeURIComponent target ++ rest) = target
    /\ Gather.accepted
         (Gather.resolveLink ("/l/?uddg=" ++ Js.encodeURIComponent target ++ rest))
       = Gather.accepted target.
Proof.
  intros target rest Hascii Hne Hrest.
  assert (E : Gather.resolveLink ("/l/?uddg=" ++ Js.encodeURIComponent target ++ rest)
              = target); [|now rewrite E].
  unfold Gather.resolveLink.
  change (Js.startsWith ("/l/?uddg=" ++ Js.encodeURIComponent target ++ rest) "/l/")
    with true. cbv iota.
  change ("/l/?uddg=" ++ Js.encodeURIComponent target ++ rest)%string
    with ("/l/?" ++ ("uddg=" ++ Js.encodeURIComponent target) ++ rest)%string.
  pose proof (encodeURIComponent_isEncoded target) as Henc.
  rewrite wrapper_query.
  2:{ rewrite allChars_app. rewrite (allChars_impl _ _ _ encoded_plain Henc). reflexivity. }
  unfold Url.searchParams. rewrite split_app_keep.
  2:{ rewrite allChars_app. rewrite (allChars_impl _ _ _ encoded_not_amp Henc). reflexivity. }
  rewrite (tail_of_query rest Hrest), append_empty_r.
  assert (Hdec : Url.decodeComponent (Js.encodeURIComponent target) = target).
  { unfold Url.decodeComponent.
    rewrite plusToSpace_keep by exact (allChars_impl _ _ _ encoded_not_plus Henc).
    rewrite <- (append_empty_r (Js.encodeURIComponent target)).
    rewrite percentDecode_encode by exact Hascii.
    change (Url.percentDecode "") with "". apply append_empty_r. }
  cbn [filter]. change (Js.truthy ("uddg=" ++ Js.encodeURIComponent target)) with true.
  cbv iota. cbn [map].
  change (Url.parsePair ("uddg=" ++ Js.encodeURIComponent target))
    with ("uddg", Url.decodeComponent (Js.encodeURIComponent target)).
  cbn [Url.get]. change (String.eqb "uddg" "uddg") with true. cbv iota.
  rewrite Hdec.
  destruct (Js.truthy target) eqn:T; [reflexivity|].
  apply truthy_false_iff in T. contradiction.
Qed.

Lemma X14_witness :
  Gather.resolveLink
    ("/l/?uddg=" ++ Js.encodeURIComponent "https://example.com/a b?x=1&y=2" ++ "&rut=abc")
  = "https://example.com/a b?x=1&y=2".
Proof.
  apply (X14_wrapper_round_trip "https://example.com/a b?x=1&y=2" "&rut=abc").
  - reflexivity.
  - discriminate.
  - right. reflexivity.
Defined.

(* ================================================================== *)
(** ** A topic of white space *)

Lemma trimStart_blank (s : string) :
  allChars Js.isWhiteSpace s = true -> Js.trimStart s = "".
Proof.
  induction s as [|c s IH]; simpl; [reflexivity|].
  rewrite andb_true_iff. intros [Hc Hs]. now rewrite Hc, IH.
Qed.

(** X15.  The check of topic and keywords looks at the raw strings, the
    query is built from the trimmed ones: a topic that consists of white
    space only passes the check, the job starts, its query is empty and
    every seed URL asks the provider for nothing. *)
Theorem X15_blank_topic_searches_for_nothing :
  forall (id topic kws : string) (limit : Js.Limit) (selectors : Selectors) (s : Server),
    topic <> "" ->
    allChars Js.isWhiteSpace topic = true ->
    allChars Js.isWhiteSpace kws = true ->
    exists job,
      fst (Gather.startGatherer_begin id (Some topic) (Some kws) limit selectors s) = Some job
      /\ mapHas id (activeCrawlers
                      (snd (Gather.startGatherer_begin id (Some topic) (Some kws) limit
                              selectors s))) = true
      /\ Gather.query (Gather.searchTopic job) (Gather.searchKeywords job) = ""
      /\ forall seed, In seed (Gather.seeds job) ->
                      Js.startsWith seed "https://duckduckgo.com/html/?q=&s=" = true.
Proof.
  intros id topic kws limit selectors s Hne Ht Hk.
  assert (Htruthy : Js.truthyOpt (Some topic) = true).
  { simpl. unfold Js.truthy. apply negb_true_iff. now apply String.eqb_neq. }
  rewrite (gather_begin_valid id (Some topic) (Some kws) limit selectors s (or_introl Htruthy)).
  eexists. split; [reflexivity|]. split; [apply mapHas_set|].
  assert (Hq : Gather.query (Js.orElse (Some topic) "") (Js.orElse (Some kws) "") = "").
  { unfold Gather.query, Js.trim. rewrite trimStart_blank; [reflexivity|].
    rewrite allChars_app. simpl in *. rewrite Htruthy, Ht. simpl.
    destruct (Js.truthy kws); [exact Hk | reflexivity]. }
  split; [exact Hq|].
  intros seed Hin. unfold Gather.seeds, Gather.searchUrls in Hin. cbn [Gather.searchTopic
    Gather.searchKeywords Gather.targetLimit] in Hin. rewrite Hq in Hin.
  apply in_map_iff in Hin. destruct Hin as (i & <- & _).
  apply startsWith_iff.
  exists (Js.numberToString (Z.of_nat i * Gather.itemsPerPage)). reflexivity.
Qed.

Lemma X15_witness :
  exists job,
    fst (Gather.startGatherer_begin "1700000000000" (Some "  ") (Some "") Js.LimitUndefined
           SelUndefined emptyServer) = Some job
    /\ Gather.query (Gather.searchTopic job) (Gather.searchKeywords job) = "".
Proof.
  destruct (X15_blank_topic_searches_for_nothing "1700000000000" "  " ""
              Js.LimitUndefined SelUndefined emptyServer)
    as (job & Hjob & _ & Hq & _).
  - discriminate.
  - reflexivity.
  - reflexivity.
  - exists job. split; assumption.
Defined.

(* ================================================================== *)
(** ** The client's lists *)

Section ClientLists.

Lemma existsb_eqb_In (x : string) (l : list string) :
  existsb (String.eqb x) l = true <-> In x l.
Proof.
  rewrite existsb_exists. split.
  - intros (y & Hy & E). apply String.eqb_eq in E. now subst.
  - intros H. exists x. split; [exact H | apply String.eqb_refl].
Qed.

Lemma NoDup_snoc {A : Type} (l : list A) (x : A) :
  NoDup l -> ~ In x l -> NoDup (l ++ [x]).
Proof.
  induction l as [|y l IH]; simpl; intros Hnd Hx.
  - constructor; [tauto | constructor].
  - inversion Hnd as [|? ? Hy Hl]; subst. constructor.
    + rewrite in_app_iff. simpl. intros [H | [H | []]]; [tauto|]. subst. tauto.
    + apply IH; tauto.
Qed.

Lemma filter_all {A : Type} (p : A -> bool) (l : list A) :
  (forall x, In x l -> p x = true) -> filter p l = l.
Proof.
  induction l as [|y l IH]; simpl; intros H; [reflexivity|].
  rewrite (H y) by now left. rewrite IH; [reflexivity|]. intros x Hx. apply H. now right.
Qed.

Lemma toggle_present (id : string) (prev : list string) :
  In id prev ->
  App.toggleSelector id prev = filter (fun item => negb (String.eqb item id)) prev.
Proof.
  intros H. unfold App.toggleSelector. apply existsb_eqb_In in H. now rewrite H.
Qed.

Lemma toggle_absent (id : string) (prev : list string) :
  ~ In id prev -> App.toggleSelector id prev = prev ++ [id].
Proof.
  intros H. unfold App.toggleSelector.
  destruct (existsb (String.eqb id) prev) eqn:E; [|reflexivity].
  apply existsb_eqb_In in E. contradiction.
Qed.

End ClientLists.

(** X16.  [toggleSelector] switches one selector and nothing else: the
    selector is in the new list exactly when it was not in the old one,
    every other selector stays in or out as it was, a list without
    repetitions stays so, and switching a selector on and off again gives
    back the list one started from. *)
Theorem X16_toggle_selector :
  forall (id : string) (prev : list string),
    (In id (App.toggleSelector id prev) <-> ~ In id prev)
    /\ (forall x, x <> id -> (In x (App.toggleSelector id prev) <-> In x prev))
    /\ (NoDup prev -> NoDup (App.toggleSelector id prev))
    /\ (~ In id prev -> App.toggleSelector id (App.toggleSelector id prev) = prev).
Proof.
  intros id prev. destruct (in_dec string_dec id prev) as [Hin | Hno].
  - rewrite (toggle_present id prev Hin). split; [|split; [|split]].
    + rewrite filter_In, String.eqb_refl. simpl. split; [intros [_ H]; discriminate | tauto].
    + intros x Hx. rewrite filter_In. split; [tauto|]. intros H. split; [exact H|].
      apply negb_true_iff. now apply String.eqb_neq.
    + apply NoDup_filter.
    + tauto.
  - rewrite (toggle_absent id prev Hno). split; [|split; [|split]].
    + rewrite in_app_iff. simpl. tauto.
    + intros x Hx. rewrite in_app_iff. simpl. split; [|tauto].
      intros [H | [H | []]]; [exact H | congruence].
    + intros Hnd. now apply NoDup_snoc.
    + intros _. rewrite toggle_present by (rewrite in_app_iff; simpl; tauto).
      rewrite filter_app. simpl. rewrite String.eqb_refl. simpl.
      rewrite app_nil_r. apply filter_all. intros x Hx. apply negb_true_iff.
      apply String.eqb_neq. intros ->. contradiction.
Qed.

Lemma X16_witness :
  App.toggleSelector "meta" (App.toggleSelector "meta" ["text"; "links"]) = ["text"; "links"]
  /\ NoDup (App.toggleSelector "text" formSelectors).
Proof.
  split.
  - apply (proj2 (proj2 (proj2 (X16_toggle_selector "meta" ["text"; "links"])))).
    simpl. intros [H | [H | []]]; discriminate.
  - apply (proj1 (proj2 (proj2 (X16_toggle_selector "text" formSelectors)))).
    unfold formSelectors. repeat constructor; simpl; intuition discriminate.
Defined.

(* ================================================================== *)
(** ** The record list of the client *)

Section Received.

Lemma url_listed (data : ExtractedData) (prev : list ExtractedData) :
  existsb (fun item => String.eqb (url item) (url data)) prev = true
  <-> In (url data) (map url prev).
Proof.
  rewrite existsb_exists, in_map_iff. split.
  - intros (x & Hx & E). apply String.eqb_eq in E. now exists x.
  - intros (x & E & Hx). exists x. split; [exact Hx|]. rewrite E. apply String.eqb_refl.
Qed.

Lemma dataHandler_cases (data : ExtractedData) (prev : list ExtractedData) :
  (In (url data) (map url prev) /\ App.dataHandler data prev = prev)
  \/ (~ In (url data) (map url prev) /\ App.dataHandler data prev = prev ++ [data]).
Proof.
  unfold App.dataHandler.
  destruct (existsb (fun item => String.eqb (url item) (url data)) prev) eqn:E.
  - left. split; [now apply url_listed | reflexivity].
  - right. split; [|reflexivity]. intros H. apply url_listed in H. congruence.
Qed.

Lemma received_from (events prev : list ExtractedData) :
  NoDup (map url prev) ->
  let r := fold_left (fun prev data => App.dataHandler data prev) events prev in
  NoDup (map url r)
  /\ (forall d, In d prev \/ In d events -> exists d', In d' r /\ url d' = url d)
  /\ (forall d, In d r ->
        In d prev
        \/ exists pre post, events = pre ++ d :: post
                            /\ forall x, In x (prev ++ pre) -> url x <> url d).
Proof.
  revert prev. induction events as [|data events IH]; intros prev Hnd; simpl.
  - split; [exact Hnd|]. split.
    + intros d [H | []]. now exists d.
    + intros d H. now left.
  - destruct (dataHandler_cases data prev) as [[Hin E] | [Hno E]]; rewrite E.
    + destruct (IH prev Hnd) as (N & C & F). split; [exact N|]. split.
      * intros d [H | [<- | H]].
        -- apply C. now left.
        -- apply in_map_iff in Hin. destruct Hin as (y & Ey & Hy).
           destruct (C y (or_introl Hy)) as (d' & Hd' & Eu). exists d'.
           split; [exact Hd' | congruence].
        -- apply C. now right.
      * intros d Hd. destruct (F d Hd) as [H | (pre & post & Eev & Hpre)]; [now left|].
        right. exists (data :: pre), post. split; [now rewrite Eev|].
        intros x Hx. apply in_app_or in Hx. destruct Hx as [Hx | [<- | Hx]].
        -- apply Hpre. apply in_or_app. now left.
        -- apply in_map_iff in Hin. destruct Hin as (y & Ey & Hy).
           rewrite <- Ey. apply Hpre. apply in_or_app. now left.
        -- apply Hpre. apply in_or_app. now right.
    + assert (Hnd' : NoDup (map url (prev ++ [data]))).
      { rewrite map_app. simpl. now apply NoDup_snoc. }
      destruct (IH (prev ++ [data]) Hnd') as (N & C & F). split; [exact N|]. split.
      * intros d [H | [<- | H]].
        -- apply C. left. apply in_or_app. now left.
        -- apply C. left. apply in_or_app. right. now left.
        -- apply C. now right.
      * intros d Hd. destruct (F d Hd) as [H | (pre & post & Eev & Hpre)].
        -- apply in_app_or in H. destruct H as [H | [<- | []]]; [now left|].
           right. exists [], events. split; [reflexivity|].
           intros x Hx. rewrite app_nil_r in Hx. intros Eu. apply Hno.
           rewrite <- Eu. now apply in_map.
        -- right. exists (data :: pre), post. split; [now rewrite Eev|].
           intros x Hx. apply Hpre. apply in_app_or in Hx.
           destruct Hx as [Hx | [<- | Hx]]; apply in_or_app.
           ++ left. apply in_or_app. now left.
           ++ left. apply in_or_app. right. now left.
           ++ now right.
Qed.

End Received.

(** X17.  The client's record list never holds two records with one URL:
    after any sequence of record events the URLs in the list are pairwise
    different, every URL that arrived is in the list, and the record kept
    for a URL is the first one that arrived with it. *)
Theorem X17_client_keeps_first_record_per_url :
  forall events : list ExtractedData,
    NoDup (map url (App.received events))
    /\ (forall d, In d events -> exists d', In d' (App.received events) /\ url d' = url d)
    /\ (forall d, In d (App.received events) ->
          exists pre post, events = pre ++ d :: post
                           /\ forall x, In x pre -> url x <> url d).
Proof.
  intros events. destruct (received_from events [] (NoDup_nil _)) as (N & C & F).
  split; [exact N|]. split.
  - intros d Hd. apply C. now right.
  - intros d Hd. destruct (F d Hd) as [[] | H]. exact H.
Qed.

Lemma X17_witness :
  exists d', In d' (App.received
                      [Gather.extract [] "https://a.test/" "A" "t0" repeatingPage;
                       Gather.extract [] "https://a.test/" "B" "t1" repeatingPage])
             /\ url d' = "https://a.test/".
Proof.
  apply (proj1 (proj2 (X17_client_keeps_first_record_per_url
                         [Gather.extract [] "https://a.test/" "A" "t0" repeatingPage;
                          Gather.extract [] "https://a.test/" "B" "t1" repeatingPage]))
           (Gather.extract [] "https://a.test/" "B" "t1" repeatingPage)).
  simpl. right. left. reflexivity.
Defined.

(* ================================================================== *)
(** ** The image and link views of the client *)

Section Views.

Lemma addLink_In (set : list string) (l x : string) :
  In x (App.addLink set l) <-> In x set \/ (x = l /\ Js.truthy l = true).
Proof.
  unfold App.addLink. destruct (Js.truthy l).
  - destruct (existsb (String.eqb l) set) eqn:E.
    + apply existsb_eqb_In in E. split; [tauto|]. intros [H | [-> _]]; assumption.
    + rewrite in_app_iff. simpl. split.
      * intros [H | [<- | []]]; auto.
      * intros [H | [-> _]]; auto.
  - split; [tauto|]. intros [H | [_ H]]; [exact H | discriminate].
Qed.

Lemma addLink_NoDup (set : list string) (l : string) :
  NoDup set -> NoDup (App.addLink set l).
Proof.
  intros H. unfold App.addLink. destruct (Js.truthy l); [|exact H].
  destruct (existsb (String.eqb l) set) eqn:E; [exact H|].
  apply NoDup_snoc; [exact H|]. intros Hin. apply existsb_eqb_In in Hin. congruence.
Qed.

Lemma foldLinks (ls set : list string) :
  NoDup set ->
  NoDup (fold_left App.addLink ls set)
  /\ forall x, In x (fold_left App.addLink ls set)
               <-> In x set \/ (In x ls /\ Js.truthy x = true).
Proof.
  revert set. induction ls as [|l ls IH]; intros set Hnd; simpl.
  - split; [exact Hnd|]. intros x. tauto.
  - destruct (IH (App.addLink set l) (addLink_NoDup set l Hnd)) as [N C].
    split; [exact N|]. intros x. rewrite C, addLink_In. split.
    + intros [[H | [-> H]] | [H1 H2]]; auto.
    + intros [H | [[<- | H1] H2]]; auto.
Qed.

Lemma uniqueLinks_from (data : list ExtractedData) (set : list string) :
  NoDup set ->
  let r := fold_left (fun set d => match links d with
                                   | Some ls => fold_left App.addLink ls set
                                   | None => set
                                   end) data set in
  NoDup r
  /\ forall x, In x r
               <-> In x set
                   \/ (Js.truthy x = true
                       /\ exists d ls, In d data /\ links d = Some ls /\ In x ls).
Proof.
  revert set. induction data as [|d data IH]; intros set Hnd; simpl.
  - split; [exact Hnd|]. intros x. split; [tauto|].
    intros [H | (_ & d & ls & [] & _)]. exact H.
  - destruct (links d) as [ls|] eqn:El.
    + destruct (foldLinks ls set Hnd) as [N1 C1].
      destruct (IH _ N1) as [N C]. split; [exact N|].
      intros x. rewrite C, C1. split.
      * intros [[H | [H1 H2]] | (T & d' & ls' & Hd & E & Hx)]; auto.
        -- right. split; [exact H2|]. exists d, ls. auto.
        -- right. split; [exact T|]. exists d', ls'. auto.
      * intros [H | (T & d' & ls' & [<- | Hd] & E & Hx)]; auto.
        -- rewrite El in E. injection E as <-. auto.
        -- right. split; [exact T|]. exists d', ls'. auto.
    + destruct (IH set Hnd) as [N C]. split; [exact N|].
      intros x. rewrite C. split.
      * intros [H | (T & d' & ls' & Hd & E & Hx)]; auto.
        right. split; [exact T|]. exists d', ls'. auto.
      * intros [H | (T & d' & ls' & [<- | Hd] & E & Hx)]; auto.
        -- congruence.
        -- right. split; [exact T|]. exists d', ls'. auto.
Qed.

Lemma src_listed (img : Img) (m : list Img) :
  existsb (fun t => sameSrc (src t) (src img)) m = true <-> In (src img) (map src m).
Proof.
  rewrite existsb_exists, in_map_iff. split.
  - intros (x & Hx & E). apply sameSrc_eq in E. now exists x.
  - intros (x & E & Hx). exists x. split; [exact Hx | now apply sameSrc_eq].
Qed.

(** What holds of the image map at every moment. *)
Let imageMapOk (m : list Img) : Prop :=
  NoDup (map src m) /\ forall i, In i m -> Js.truthyOpt (src i) = true.

Lemma addImage_step (m : list Img) (img : Img) :
  imageMapOk m ->
  imageMapOk (App.addImage m img)
  /\ (forall i, In i (App.addImage m img) -> In i m \/ i = img)
  /\ (forall k, In k (map src (App.addImage m img))
                <-> In k (map src m) \/ (k = src img /\ Js.truthyOpt k = true)).
Proof.
  intros [Hnd Ht]. unfold App.addImage.
  destruct (Js.truthyOpt (src img)) eqn:T; simpl.
  - destruct (existsb (fun t => sameSrc (src t) (src img)) m) eqn:E; simpl.
    + apply src_listed in E. split; [split; assumption|]. split; [auto|].
      intros k. split; [tauto|]. intros [H | [-> _]]; assumption.
    + assert (Hno : ~ In (src img) (map src m)).
      { intros H. apply src_listed in H. congruence. }
      split; [split|split].
      * rewrite map_app. simpl. now apply NoDup_snoc.
      * intros i Hi. apply in_app_or in Hi. destruct Hi as [Hi | [<- | []]]; auto.
      * intros i Hi. apply in_app_or in Hi. destruct Hi as [Hi | [<- | []]]; auto.
      * intros k. rewrite map_app, in_app_iff. simpl. split.
        -- intros [H | [<- | []]]; auto.
        -- intros [H | [-> _]]; auto.
  - split; [split; assumption|]. split; [auto|].
    intros k. split; [tauto|]. intros [H | [-> H]]; [exact H | congruence].
Qed.

Lemma foldImages (imgs m : list Img) :
  imageMapOk m ->
  imageMapOk (fold_left App.addImage imgs m)
  /\ (forall i, In i (fold_left App.addImage imgs m) -> In i m \/ In i imgs)
  /\ (forall k, In k (map src (fold_left App.addImage imgs m))
                <-> In k (map src m)
                    \/ (In k (map src imgs) /\ Js.truthyOpt k = true)).
Proof.
  revert m. induction imgs as [|img imgs IH]; intros m Hok; simpl.
  - split; [exact Hok|]. split; [auto|]. intros k. tauto.
  - destruct (addImage_step m img Hok) as (Hok1 & I1 & K1).
    destruct (IH _ Hok1) as (Hok2 & I2 & K2).
    split; [exact Hok2|]. split.
    + intros i Hi. destruct (I2 i Hi) as [H | H]; [|auto].
      destruct (I1 i H) as [H' | ->]; auto.
    + intros k. rewrite K2, K1. split.
      * intros [[H | [-> H]] | [H1 H2]]; auto.
      * intros [H | [[<- | H1] H2]]; auto.
Qed.

Lemma uniqueImages_from (data : list ExtractedData) (m : list Img) :
  imageMapOk m ->
  let r := fold_left (fun map item => match images item with
                                      | Some imgs => fold_left App.addImage imgs map
                                      | None => map
                                      end) data m in
  imageMapOk r
  /\ (forall i, In i r ->
        In i m \/ exists d imgs, In d data /\ images d = Some imgs /\ In i imgs)
  /\ (forall k, In k (map src r)
                <-> In k (map src m)
                    \/ (Js.truthyOpt k = true
                        /\ exists d imgs, In d data /\ images d = Some imgs
                                          /\ In k (map src imgs))).
Proof.
  revert m. induction data as [|d data IH]; intros m Hok; simpl.
  - split; [exact Hok|]. split; [auto|]. intros k. split; [tauto|].
    intros [H | (_ & d & imgs & [] & _)]. exact H.
  - destruct (images d) as [imgs|] eqn:Ei.
    + destruct (foldImages imgs m Hok) as (Hok1 & I1 & K1).
      destruct (IH _ Hok1) as (Hok2 & I2 & K2).
      split; [exact Hok2|]. split.
      * intros i Hi. destruct (I2 i Hi) as [H | (d' & imgs' & Hd & E & Hin)].
        -- destruct (I1 i H) as [H' | H']; [now left|]. right. exists d, imgs. auto.
        -- right. exists d', imgs'. auto.
      * intros k. rewrite K2, K1. split.
        -- intros [[H | [H1 H2]] | (T & d' & imgs' & Hd & E & Hin)]; auto.
           ++ right. split; [exact H2|]. exists d, imgs. auto.
           ++ right. split; [exact T|]. exists d', imgs'. auto.
        -- intros [H | (T & d' & imgs' & [<- | Hd] & E & Hin)]; auto.
           ++ rewrite Ei in E. injection E as <-. auto.
           ++ right. split; [exact T|]. exists d', imgs'. auto.
    + destruct (IH m Hok) as (Hok2 & I2 & K2).
      split; [exact Hok2|]. split.
      * intros i Hi. destruct (I2 i Hi) as [H | (d' & imgs' & Hd & E & Hin)]; auto.
        right. exists d', imgs'. auto.
      * intros k. rewrite K2. split.
        -- intros [H | (T & d' & imgs' & Hd & E & Hin)]; auto.
           right. split; [exact T|]. exists d', imgs'. auto.
        -- intros [H | (T & d' & imgs' & [<- | Hd] & E & Hin)]; auto.
           ++ congruence.
           ++ right. split; [exact T|]. exists d', imgs'. auto.
Qed.

End Views.

(** X18.  The image and link views of the client put the records of a
    job together without repetition: no two images with one [src], no
    link twice; an image [src] is shown exactly when it is not empty and
    some record carries an image with it, a link exactly when it is not
    empty and some record lists it; every image shown is an image of
    some record. *)
Theorem X18_client_views_are_sets :
  forall data : list ExtractedData,
    NoDup (map src (App.uniqueImages data))
    /\ (forall k, In k (map src (App.uniqueImages data))
                  <-> Js.truthyOpt k = true
                      /\ exists d imgs, In d data /\ images d = Some imgs
                                        /\ In k (map src imgs))
    /\ (forall i, In i (App.uniqueImages data) ->
                  exists d imgs, In d data /\ images d = Some imgs /\ In i imgs)
    /\ NoDup (App.uniqueLinks data)
    /\ (forall l, In l (App.uniqueLinks data)
                  <-> l <> ""
                      /\ exists d ls, In d data /\ links d = Some ls /\ In l ls).
Proof.
  intros data.
  destruct (uniqueImages_from data []) as ((N & _) & I & K).
  { split; [constructor | intros i []]. }
  destruct (uniqueLinks_from data [] (NoDup_nil _)) as (NL & CL).
  split; [exact N|]. split; [|split; [|split; [exact NL|]]].
  - intros k. unfold App.uniqueImages. rewrite K. simpl. tauto.
  - intros i Hi. destruct (I i Hi) as [[] | H]. exact H.
  - intros l. unfold App.uniqueLinks. rewrite CL. simpl.
    unfold Js.truthy. rewrite negb_true_iff, String.eqb_neq. tauto.
Qed.

(** Two Gather records that repeat an image and a link: the views show
    each once. *)
Lemma X18_witness :
  exists d imgs,
    In d [Gather.extract ["images"; "links"] "https://a.test/" "A" "t0" repeatingPage]
    /\ images d = Some imgs
    /\ In {| src := Some "https://a.test/i.png"; alt := None |} imgs.
Proof.
  apply (proj1 (proj2 (proj2 (X18_client_views_are_sets
                                [Gather.extract ["images"; "links"] "https://a.test/" "A"
                                   "t0" repeatingPage])))).
  simpl. left. reflexivity.
Defined.

(* ================================================================== *)
(** ** What the form sends *)

Section FormInputs.

Lemma existsb_ext_in {A : Type} (f g : A -> bool) (l : list A) :
  (forall x, In x l -> f x = g x) -> existsb f l = existsb g l.
Proof.
  induction l as [|y l IH]; simpl; intros H; [reflexivity|].
  rewrite (H y) by now left. rewrite IH; [reflexivity|]. intros x Hx. apply H. now right.
Qed.

Ltac each_form_selector H :=
  unfold formSelectors in H; simpl in H;
  destruct H as [<- | [<- | [<- | [<- | [<- | []]]]]]; reflexivity.

Lemma form_selector_normal (x : string) :
  In x formSelectors -> Js.trim (Js.toLowerCase x) = x.
Proof. intros H. each_form_selector H. Qed.

Lemma form_selector_heading (x : string) :
  In x formSelectors -> Js.includes x "heading" = String.eqb "headings" x.
Proof. intros H. each_form_selector H. Qed.

Lemma form_selector_text (x : string) :
  In x formSelectors ->
  Js.includes x "text" || Js.includes x "paragraph" = String.eqb "text" x.
Proof. intros H. each_form_selector H. Qed.

Lemma form_selector_meta (x : string) :
  In x formSelectors -> Js.includes x "meta" = String.eqb "meta" x.
Proof. intros H. each_form_selector H. Qed.

Lemma form_selector_image (x : string) :
  In x formSelectors -> Js.includes x "image" = String.eqb "images" x.
Proof. intros H. each_form_selector H. Qed.

Lemma form_selector_link (x : string) :
  In x formSelectors ->
  Js.includes x "link" || Js.includes x "url" = String.eqb "links" x.
Proof. intros H. each_form_selector H. Qed.

Lemma form_selectors_normal (sels : list string) :
  (forall x, In x sels -> In x formSelectors) ->
  normalizeSelectors (SelArray sels) = sels.
Proof.
  intros H. simpl. rewrite <- (map_id sels) at 2. apply map_ext_in.
  intros x Hx. apply form_selector_normal. auto.
Qed.

End FormInputs.

(** X19.  For the selectors the form can send, the two modes agree and
    do what the ids say: normalisation leaves the list as it is, and in a
    Site record, as in a Gather record, a field is there exactly when its
    id is in the list. *)
Theorem X19_form_selectors_mean_their_fields :
  forall (sels : list string) (u pageTitle now : string) (pg : Page),
    (forall x, In x sels -> In x formSelectors) ->
    let n := normalizeSelectors (SelArray sels) in
    let s := Site.extract n u now pg in
    let g := Gather.extract n u pageTitle now pg in
    n = sels
    /\ (headings s <> None <-> In "headings" sels)
    /\ (text s <> None <-> In "text" sels)
    /\ (meta s <> None <-> In "meta" sels)
    /\ (images s <> None <-> In "images" sels)
    /\ (links s <> None <-> In "links" sels)
    /\ (headings s = None <-> headings g = None)
    /\ (text s = None <-> text g = None)
    /\ (meta s = None <-> meta g = None)
    /\ (images s = None <-> images g = None)
    /\ (links s = None <-> links g = None).
Proof.
  intros sels u pageTitle now pg Hform n s g. subst n s g.
  rewrite (form_selectors_normal sels Hform).
  assert (Hh : Site.wantsHeadings sels = Gather.wants "headings" sels).
  { apply existsb_ext_in. intros x Hx. apply form_selector_heading. auto. }
  assert (Ht : Site.wantsText sels = Gather.wants "text" sels).
  { apply existsb_ext_in. intros x Hx. apply form_selector_text. auto. }
  assert (Hm : Site.wantsMeta sels = Gather.wants "meta" sels).
  { apply existsb_ext_in. intros x Hx. apply form_selector_meta. auto. }
  assert (Hi : Site.wantsImages sels = Gather.wants "images" sels).
  { apply existsb_ext_in. intros x Hx. apply form_selector_image. auto. }
  assert (Hl : Site.wantsLinks sels = Gather.wants "links" sels).
  { apply existsb_ext_in. intros x Hx. apply form_selector_link. auto. }
  simpl. rewrite Hh, Ht, Hm, Hi, Hl. rewrite !present_iff, !wants_iff.
  split; [reflexivity|].
  repeat split; try tauto;
    match goal with
    | |- context [Gather.wants ?k sels] => destruct (Gather.wants k sels); congruence
    end.
Qed.

Lemma X19_witness :
  links (Site.extract (normalizeSelectors (SelArray ["links"; "meta"])) "https://a.test/"
           "t0" repeatingPage) <> None
  <-> In "links" ["links"; "meta"].
Proof.
  apply (X19_form_selectors_mean_their_fields ["links"; "meta"] "https://a.test/" "Rust"
           "t0" repeatingPage).
  unfold formSelectors. simpl. intros x [<- | [<- | []]]; tauto.
Defined.

(** X20.  What [startCrawl] sends.  It sends nothing exactly when the
    field its mode needs is empty: the URL in Site mode, the topic in
    Gather mode, whatever the keywords.  A Gather request it does send is
    never turned down by the gatherer's check: the job is registered
    under its id and no error event is emitted at the start; its topic,
    keywords, limit text and selectors are those of the form. *)
Theorem X20_form_requests_start_jobs :
  (forall f : App.Form,
     App.startCrawl_request f = None
     <-> (App.mode f = App.ModeSite /\ App.formUrl f = "")
         \/ (App.mode f = App.ModeGather /\ App.formTopic f = ""))
  /\ (forall (f : App.Form) (b : Gather.Body) (now : string) (s : Server),
        App.startCrawl_request f = Some (App.PostGather b) ->
        fst (Gather.api_gather b now s)
        = {| res_jobId := now; res_message := "Gatherer started" |}
        /\ emitted (snd (Gather.api_gather b now s)) = emitted s
        /\ mapLookup now (activeCrawlers (snd (Gather.api_gather b now s)))
           = Some {| maxRequestsPerCrawl :=
                       (Js.numOr (Js.parseIntString (App.formLimit f)) 50 * 5)%Z;
                     requestHandlerTimeoutSecs := Some 45%Z |}
        /\ exists job,
             fst (Gather.startGatherer_begin now (Gather.body_topic b)
                    (Gather.body_keywords b) (Gather.body_limit b)
                    (Gather.body_selectors b) s) = Some job
             /\ Gather.searchTopic job = App.formTopic f
             /\ Gather.searchKeywords job = App.formKeywords f
             /\ Gather.normalizedSelectors job
                = normalizeSelectors (SelArray (App.selectedSelectors f)))
  /\ (forall (f : App.Form) (b : Site.Body) (now : string) (s : Server),
        App.startCrawl_request f = Some (App.PostCrawl b) ->
        Site.body_url b = Some (App.formUrl f) /\ App.formUrl f <> ""
        /\ mapLookup now (activeCrawlers (snd (Site.api_crawl b now s)))
           = Some {| maxRequestsPerCrawl :=
                       Js.numOr (Js.parseIntString (App.formLimit f)) 50;
                     requestHandlerTimeoutSecs := None |}).
Proof.
  split; [|split].
  - intros f. unfold App.startCrawl_request.
    destruct (App.mode f); [destruct (Js.truthy (App.formUrl f)) eqn:T
                           | destruct (Js.truthy (App.formTopic f)) eqn:T]; simpl.
    + split; [discriminate|]. intros [[_ H] | [H _]]; [|discriminate].
      apply truthy_false_iff in H. congruence.
    + apply truthy_false_iff in T. split; [auto|reflexivity].
    + split; [discriminate|]. intros [[H _] | [_ H]]; [discriminate|].
      apply truthy_false_iff in H. congruence.
    + apply truthy_false_iff in T. split; [auto|reflexivity].
  - intros f b now s Hreq. unfold App.startCrawl_request in Hreq.
    destruct (App.mode f); [destruct (Js.truthy (App.formUrl f)); discriminate|].
    destruct (Js.truthy (App.formTopic f)) eqn:T; [|discriminate].
    simpl in Hreq. injection Hreq as <-.
    unfold Gather.api_gather. cbn [Gather.body_topic Gather.body_keywords
      Gather.body_limit Gather.body_selectors].
    rewrite (gather_begin_valid now (Some (App.formTopic f)) (Some (App.formKeywords f))
               (Js.LimitString (App.formLimit f))
               (SelArray (App.selectedSelectors f)) s (or_introl T)).
    cbn [fst snd]. split; [reflexivity|]. split; [reflexivity|].
    split; [apply mapLookup_set_same|].
    eexists. split; [reflexivity|]. cbn [Gather.searchTopic Gather.searchKeywords
      Gather.normalizedSelectors]. split; [|split; [|reflexivity]].
    + simpl. now rewrite T.
    + simpl. destruct (Js.truthy (App.formKeywords f)) eqn:K; [reflexivity|].
      apply truthy_false_iff in K. now rewrite K.
  - intros f b now s Hreq. unfold App.startCrawl_request in Hreq.
    destruct (App.mode f); [|destruct (Js.truthy (App.formTopic f)); discriminate].
    destruct (Js.truthy (App.formUrl f)) eqn:T; [|discriminate].
    simpl in Hreq. injection Hreq as <-. cbn [Site.body_url].
    split; [reflexivity|]. split.
    + intros E. rewrite E in T. discriminate.
    + unfold Site.api_crawl, Site.startCrawler_begin. simpl. now rewrite String.eqb_refl.
Qed.

Lemma X20_witness :
  let f := {| App.mode := App.ModeGather; App.formUrl := ""; App.formTopic := "rust";
              App.formKeywords := "ai, ml"; App.formLimit := "200";
              App.selectedSelectors := formSelectors |} in
  let b := {| Gather.body_topic := Some "rust"; Gather.body_keywords := Some "ai, ml";
              Gather.body_limit := Js.LimitString "200";
              Gather.body_selectors := SelArray formSelectors |} in
  mapLookup "1700000000000"
    (activeCrawlers (snd (Gather.api_gather b "1700000000000" emptyServer)))
  = Some {| maxRequestsPerCrawl := 1000; requestHandlerTimeoutSecs := Some 45%Z |}.
Proof.
  intros f b.
  apply (proj1 (proj2 (proj2 (proj1 (proj2 X20_form_requests_start_jobs) f b
                                "1700000000000" emptyServer eq_refl)))).
Defined.

(* ================================================================== *)
(** ** The graph view *)

Section GraphView.

Lemma capped_length {A : Type} (l : list A) :
  List.length l <= 101 -> List.length (App.capped l) <= 100.
Proof.
  intros H. unfold App.capped. destruct (Nat.ltb_spec 100 (List.length l)).
  - destruct l; simpl in *; lia.
  - lia.
Qed.

Lemma capped_In {A : Type} (l : list A) (x : A) : In x (App.capped l) -> In x l.
Proof.
  unfold App.capped. destruct (100 <? List.length l); [|auto].
  destruct l; simpl; auto.
Qed.

Lemma capped_NoDup {A B : Type} (f : A -> B) (l : list A) :
  NoDup (map f l) -> NoDup (map f (App.capped l)).
Proof.
  unfold App.capped. destruct (100 <? List.length l); [|auto].
  destruct l; simpl; [auto|]. intros H. now inversion H.
Qed.

Lemma capped_Forall {A : Type} (P : A -> Prop) (l : list A) :
  Forall P l -> Forall P (App.capped l).
Proof.
  intros H. apply Forall_forall. intros x Hx. apply capped_In in Hx.
  revert x Hx. now apply Forall_forall.
Qed.

Lemma sameId_sym (a b : App.NodeId) : App.sameId a b = App.sameId b a.
Proof.
  destruct a, b; simpl; auto using String.eqb_sym, Nat.eqb_sym.
Qed.

(** What holds of the graph at every moment. *)
Let graphOk (g : App.Graph) : Prop :=
  List.length (App.nodes g) <= 100
  /\ List.length (App.graphLinks g) <= 100
  /\ NoDup (map App.nodeUrl (App.nodes g))
  /\ Forall (fun l => App.sameId (fst l) (snd l) = false) (App.graphLinks g).

Lemma addNode_keeps (data : list ExtractedData) (rnd pick : nat) (g : App.Graph) :
  graphOk g -> graphOk (App.addNode data rnd pick g).
Proof.
  intros (Hn & Hl & Hnd & Hself). unfold App.addNode.
  destruct (rev data) as [|newItem rest]; [repeat split; assumption|].
  destruct (existsb (fun n => String.eqb (App.nodeUrl n) (url newItem)) (App.nodes g)) eqn:E;
    [repeat split; assumption|].
  set (newNode := {| App.nodeId := _; App.nodeUrl := url newItem |}).
  set (nodes1 := App.capped (App.nodes g ++ [newNode])).
  assert (Hfresh : ~ In (url newItem) (map App.nodeUrl (App.nodes g))).
  { intros H. apply in_map_iff in H. destruct H as (n & En & Hin).
    assert (existsb (fun n => String.eqb (App.nodeUrl n) (url newItem)) (App.nodes g) = true).
    { apply existsb_exists. exists n. split; [exact Hin|]. rewrite En. apply String.eqb_refl. }
    congruence. }
  split; [|split; [|split]]; cbn [App.nodes App.graphLinks].
  - apply capped_length. rewrite length_app. simpl. lia.
  - destruct (1 <? List.length nodes1); [|exact Hl].
    destruct (0 <? List.length (filter _ nodes1)); [|exact Hl].
    destruct (nth_error _ _); [|exact Hl].
    apply capped_length. rewrite length_app. simpl. lia.
  - apply capped_NoDup. rewrite map_app. simpl. now apply NoDup_snoc.
  - destruct (1 <? List.length nodes1); [|exact Hself].
    destruct (0 <? List.length (filter _ nodes1)); [|exact Hself].
    destruct (nth_error _ _) as [target|] eqn:Et; [|exact Hself].
    apply capped_Forall. apply Forall_app. split; [exact Hself|].
    constructor; [|constructor]. simpl.
    apply nth_error_In in Et. apply filter_In in Et. destruct Et as [_ Hne].
    apply negb_true_iff in Hne. now rewrite sameId_sym.
Qed.

Lemma graphAfter_keeps (changes : list (list ExtractedData * nat * nat)) (g : App.Graph) :
  graphOk g ->
  graphOk (fold_left (fun g ch => App.addNode (fst (fst ch)) (snd (fst ch)) (snd ch) g)
                     changes g).
Proof.
  revert g. induction changes as [|ch changes IH]; intros g Hok; [exact Hok|].
  simpl. apply IH. now apply addNode_keeps.
Qed.

End GraphView.

(** X21.  The graph view stays small and tidy: whatever records arrive
    and whatever the random numbers are, the graph never holds more than
    100 nodes or more than 100 links, never two nodes with one URL, and
    never a link from a node to itself. *)
Theorem X21_graph_is_capped :
  forall changes : list (list ExtractedData * nat * nat),
    List.length (App.nodes (App.graphAfter changes)) <= 100
    /\ List.length (App.graphLinks (App.graphAfter changes)) <= 100
    /\ NoDup (map App.nodeUrl (App.nodes (App.graphAfter changes)))
    /\ Forall (fun l => App.sameId (fst l) (snd l) = false)
              (App.graphLinks (App.graphAfter changes)).
Proof.
  intros changes. unfold App.graphAfter. apply graphAfter_keeps.
  simpl. repeat split; try lia; constructor.
Qed.

(* ================================================================== *)
(** ** What a run asks the library to enqueue *)

Section Enqueued.

Lemma site_enqueued_unregistered (job : Site.Job) (run : list Action) (s : Server) :
  mapHas (Site.jobId job) (activeCrawlers s) = false -> siteEnqueued job run s = [].
Proof.
  revert s. induction run as [|a run IH]; intros s H; [reflexivity|].
  cbn [siteEnqueued]. rewrite IH by now apply site_step_unregistered.
  destruct a as [u now pg | j]; [|reflexivity].
  unfold Site.requestHandler. now rewrite H.
Qed.

Lemma site_enqueued_trace (job : Site.Job) (run : list Action) (s : Server) :
  mapHas (Site.jobId job) (activeCrawlers s) = true ->
  siteEnqueued job run s
  = map (fun _ => EnqueueLinks) (pagesOf (untilStop (Site.jobId job) run)).
Proof.
  revert s. induction run as [|a run IH]; intros s Hreg; [reflexivity|].
  cbn [siteEnqueued]. destruct a as [u now pg | j].
  - cbn [untilStop pagesOf map]. rewrite IH.
    + unfold Site.requestHandler. now rewrite Hreg.
    + cbn [Site.step]. now rewrite (proj1 (site_handler_registry job u now pg s)).
  - cbn [untilStop Site.step]. destruct (String.eqb j (Site.jobId job)) eqn:E.
    + apply String.eqb_eq in E. subst j.
      now rewrite site_enqueued_unregistered by apply mapHas_stop_same.
    + cbn [pagesOf]. apply IH. rewrite mapHas_stop_neq; [exact Hreg|].
      intros ->. now rewrite String.eqb_refl in E.
Qed.

Lemma gather_enqueued_unregistered (job : Gather.Job) (run : list Action)
    (st : Gather.State) :
  mapHas (Gather.jobId job) (activeCrawlers (Gather.server st)) = false ->
  gatherEnqueued job run st = [].
Proof.
  revert st. induction run as [|a run IH]; intros st H; [reflexivity|].
  cbn [gatherEnqueued]. rewrite IH by now apply gather_step_unregistered.
  destruct a as [u now pg | j]; [|reflexivity].
  unfold Gather.requestHandler. now rewrite H.
Qed.

Lemma gather_handler_mined (job : Gather.Job) (u now : string) (pg : Page)
    (st : Gather.State) :
  mapHas (Gather.jobId job) (activeCrawlers (Gather.server st)) = true ->
  snd (Gather.requestHandler job u now pg st)
  = if (Gather.emittedCount st <? Gather.targetLimit job)%Z
    then gatherMined (u, now, pg) else [].
Proof.
  intros Hreg. unfold Gather.requestHandler, gatherMined. rewrite Hreg. simpl.
  destruct (Z.leb_spec (Gather.targetLimit job) (Gather.emittedCount st));
    destruct (Z.ltb_spec (Gather.emittedCount st) (Gather.targetLimit job));
    try lia; reflexivity.
Qed.

Lemma untilFull_zero (job : Gather.Job) (pages : list (string * string * Page)) :
  untilFull job pages 0 = [].
Proof. now destruct pages. Qed.

Lemma gather_enqueued_trace (job : Gather.Job) (run : list Action) (st : Gather.State) :
  mapHas (Gather.jobId job) (activeCrawlers (Gather.server st)) = true ->
  gatherEnqueued job run st
  = flat_map gatherMined
      (untilFull job (pagesOf (untilStop (Gather.jobId job) run))
         (Z.to_nat (Gather.targetLimit job - Gather.emittedCount st))).
Proof.
  revert st. induction run as [|a run IH]; intros st Hreg; [reflexivity|].
  cbn [gatherEnqueued]. destruct a as [u now pg | j].
  - cbn [untilStop pagesOf untilFull Gather.step].
    rewrite (gather_handler_mined job u now pg st Hreg).
    rewrite IH by now rewrite (proj1 (gather_handler_registry job u now pg st)).
    rewrite (gather_handler_precise job u now pg st Hreg).
    destruct (Z.ltb_spec (Gather.emittedCount st) (Gather.targetLimit job)) as [Hlt | Hge].
    + replace (Z.to_nat (Gather.targetLimit job - Gather.emittedCount st))
        with (S (Z.to_nat (Gather.targetLimit job - (Gather.emittedCount st + 1))))
        by lia.
      cbn [andb flat_map]. destruct (gatherCandidate job (u, now, pg)).
      * reflexivity.
      * cbn [Gather.emittedCount]. do 3 f_equal. lia.
    + cbn [andb].
      replace (Z.to_nat (Gather.targetLimit job - Gather.emittedCount st)) with 0 by lia.
      now rewrite untilFull_zero.
  - cbn [untilStop Gather.step]. destruct (String.eqb j (Gather.jobId job)) eqn:E.
    + apply String.eqb_eq in E. subst j.
      now rewrite gather_enqueued_unregistered by (simpl; apply mapHas_stop_same).
    + cbn [pagesOf]. rewrite IH; [reflexivity|].
      simpl. rewrite mapHas_stop_neq; [exact Hreg|].
      intros ->. now rewrite String.eqb_refl in E.
Qed.

Lemma untilFull_records (job : Gather.Job) (pages : list (string * string * Page)) (n : nat) :
  filter (gatherCandidate job) (untilFull job pages n)
  = firstn n (filter (gatherCandidate job) pages).
Proof.
  revert n. induction pages as [|p pages IH]; intros n; simpl.
  - now rewrite firstn_nil.
  - destruct n as [|n]; [reflexivity|]. cbn [filter].
    destruct (gatherCandidate job p) eqn:C; rewrite IH; reflexivity.
Qed.

(** *** The same run, segment by segment *)

Lemma callsOf_begun (job : Gather.Job) (st : Gather.State) (calls : list EnqueueCall) :
  callsOf (begun job st calls) = calls.
Proof.
  destruct calls as [|c rest]; [reflexivity|].
  unfold callsOf. simpl. now rewrite app_nil_r.
Qed.

Lemma callsOf_advance (job : Gather.Job) (st : Gather.State) (i : Invocation) :
  callsOf (advance job st i) = callsOf i.
Proof.
  unfold advance, callsOf. destruct (todo i) as [|c rest] eqn:E.
  - now rewrite E.
  - simpl. now rewrite map_app, <- app_assoc.
Qed.

Lemma callsOf_abandon (i : Invocation) : callsOf (abandon i) = callsOf i.
Proof. reflexivity. Qed.

Lemma atIndex_calls (k : nat) (g : Invocation -> Invocation) (l : list Invocation) :
  (forall i, callsOf (g i) = callsOf i) ->
  flat_map callsOf (atIndex k g l) = flat_map callsOf l.
Proof.
  intros Hg. revert k. induction l as [|i l IH]; intros k; [now destruct k|].
  destruct k as [|k]; simpl.
  - now rewrite Hg.
  - now rewrite IH.
Qed.

(** Every run of whole handler calls is what some schedule amounts to. *)
Lemma actionsOf_ticksOf (run : list Action) : actionsOf (ticksOf run) = run.
Proof.
  induction run as [|a run IH]; [reflexivity|].
  destruct a as [u now pg | j]; simpl; now rewrite IH.
Qed.

(** The registry, the counter and the events do not depend on where the
    invocations are suspended. *)
Lemma fine_exec_state (job : Gather.Job) (ticks : list Tick) (f : Fine) :
  fineState (fineExec job ticks f) = Gather.exec job (actionsOf ticks) (fineState f).
Proof.
  revert f. induction ticks as [|t ticks IH]; intros f; [reflexivity|].
  change (fineExec job (t :: ticks) f) with (fineExec job ticks (fineStep job f t)).
  rewrite IH. destruct t as [u now pg | k | k | j]; reflexivity.
Qed.

(** Whatever the schedule, the calls of the invocations, made or not,
    are those decided when the invocations began. *)
Lemma fine_exec_calls (job : Gather.Job) (ticks : list Tick) (f : Fine) :
  flat_map callsOf (invocations (fineExec job ticks f))
  = flat_map callsOf (invocations f)
    ++ gatherEnqueued job (actionsOf ticks) (fineState f).
Proof.
  revert f. induction ticks as [|t ticks IH]; intros f.
  - simpl. now rewrite app_nil_r.
  - change (fineExec job (t :: ticks) f) with (fineExec job ticks (fineStep job f t)).
    rewrite IH. destruct t as [u now pg | k | k | j]; cbn [actionsOf gatherEnqueued].
    + cbn [fineStep fineState invocations Gather.step].
      rewrite flat_map_app. cbn [flat_map].
      now rewrite callsOf_begun, app_nil_r, <- app_assoc.
    + cbn [fineStep fineState invocations].
      now rewrite atIndex_calls by apply callsOf_advance.
    + cbn [fineStep fineState invocations].
      now rewrite atIndex_calls by apply callsOf_abandon.
    + reflexivity.
Qed.

Lemma settled_calls (f : Fine) :
  settled f = true -> map madeCall (callsMade f) = flat_map callsOf (invocations f).
Proof.
  unfold settled, callsMade. induction (invocations f) as [|i l IH]; [reflexivity|].
  cbn [forallb flat_map]. intros H. apply andb_prop in H. destruct H as [Hi Hl].
  rewrite map_app, IH by exact Hl. f_equal. unfold callsOf.
  destruct (todo i); [|discriminate]. destruct (dropped i); [|discriminate].
  now rewrite !app_nil_r.
Qed.

End Enqueued.

(** X22.  A Site job asks for the links of every page it is handed
    before the first stop request, once per page, whether or not the page
    passed the keyword filter; after the stop it asks for nothing. *)
Theorem X22_site_enqueues_every_page :
  forall (id : string) (target : option string) (selectors : Selectors)
    (kws : option string) (limit : Js.Limit) (type : option string)
    (run : list Action) (s : Server),
    siteEnqueued (fst (Site.startCrawler_begin id target selectors kws limit type s)) run
      (snd (Site.startCrawler_begin id target selectors kws limit type s))
    = map (fun _ => EnqueueLinks) (pagesOf (untilStop id run)).
Proof.
  intros. unfold Site.startCrawler_begin. cbn [fst snd].
  rewrite site_enqueued_trace by apply mapHas_set. reflexivity.
Qed.

(** X23.  Which calls to [enqueueLinks] a Gather job makes, and when.

    The calls are decided when an invocation of the handler begins: a
    results page whose handling begins while the job is registered and
    below its limit has all its resolved result links enqueued, one call
    per link; a page whose handling begins after the first stop request
    or after the last record has been sent, and any content page, has
    none.  The records of the job come from exactly the same pages.

    This holds for every schedule of the handler's segments: the state
    and the events are those of the run of whole calls, and once every
    invocation has gone through its links (no awaited call having failed)
    the calls made are exactly the ones above.

    The handler checks the registry and the counter in its first segment
    only.  A call can therefore be made after the job has been stopped,
    and after the job has sent its last record: the two runs at the end
    show a second result link enqueued in either situation. *)
Theorem X23_gather_enqueues_until_full :
  (forall (job : Gather.Job) (run : list Action) (s : Server),
    mapHas (Gather.jobId job) (activeCrawlers s) = true ->
    let st := {| Gather.server := s; Gather.emittedCount := 0 |} in
    let pages := untilFull job (pagesOf (untilStop (Gather.jobId job) run))
                   (Z.to_nat (Gather.targetLimit job)) in
    gatherEnqueued job run st = flat_map gatherMined pages
    /\ eventsSince s (Gather.server (Gather.exec job run st))
       = map (gatherRecord job) (filter (gatherCandidate job) pages))
  /\ (forall (job : Gather.Job) (ticks : list Tick) (s : Server),
       mapHas (Gather.jobId job) (activeCrawlers s) = true ->
       let st := {| Gather.server := s; Gather.emittedCount := 0 |} in
       let f := fineExec job ticks (fineStart st) in
       let pages := untilFull job
                      (pagesOf (untilStop (Gather.jobId job) (actionsOf ticks)))
                      (Z.to_nat (Gather.targetLimit job)) in
       fineState f = Gather.exec job (actionsOf ticks) st
       /\ eventsSince s (Gather.server (fineState f))
          = map (gatherRecord job) (filter (gatherCandidate job) pages)
       /\ flat_map callsOf (invocations f) = flat_map gatherMined pages
       /\ (settled f = true ->
           map madeCall (callsMade f) = flat_map gatherMined pages))
  /\ (let job := {| Gather.jobId := "1700000000000"; Gather.searchTopic := "rust";
                    Gather.searchKeywords := ""; Gather.targetLimit := 5;
                    Gather.normalizedSelectors := [] |} in
      let s := register "1700000000000"
                 {| maxRequestsPerCrawl := 25; requestHandlerTimeoutSecs := Some 45%Z |}
                 emptyServer in
      callsMade
        (fineExec job
           [Invoke "https://duckduckgo.com/html/?q=rust&s=0" "t0"
              (pageOfResults ["https://a.test/"; "https://b.test/"]);
            Stopped "1700000000000";
            Resume 0]
           (fineStart {| Gather.server := s; Gather.emittedCount := 0 |}))
      = [{| madeCall := EnqueueUrl "https://a.test/" "DETAIL";
            whileRegistered := true; withRoom := true |};
         {| madeCall := EnqueueUrl "https://b.test/" "DETAIL";
            whileRegistered := false; withRoom := true |}])
  /\ (let job := {| Gather.jobId := "1700000000000"; Gather.searchTopic := "rust";
                    Gather.searchKeywords := ""; Gather.targetLimit := 1;
                    Gather.normalizedSelectors := [] |} in
      let s := register "1700000000000"
                 {| maxRequestsPerCrawl := 5; requestHandlerTimeoutSecs := Some 45%Z |}
                 emptyServer in
      let f := fineExec job
                 [Invoke "https://duckduckgo.com/html/?q=rust&s=0" "t0"
                    (pageOfResults ["https://a.test/"; "https://b.test/"]);
                  Invoke "https://a.test/" "t1" repeatingPage;
                  Resume 0]
                 (fineStart {| Gather.server := s; Gather.emittedCount := 0 |}) in
      Gather.emittedCount (fineState f) = Gather.targetLimit job
      /\ callsMade f
         = [{| madeCall := EnqueueUrl "https://a.test/" "DETAIL";
               whileRegistered := true; withRoom := true |};
            {| madeCall := EnqueueUrl "https://b.test/" "DETAIL";
               whileRegistered := true; withRoom := false |}]).
Proof.
  assert (Hwhole : forall (job : Gather.Job) (run : list Action) (s : Server),
             mapHas (Gather.jobId job) (activeCrawlers s) = true ->
             gatherEnqueued job run {| Gather.server := s; Gather.emittedCount := 0 |}
             = flat_map gatherMined
                 (untilFull job (pagesOf (untilStop (Gather.jobId job) run))
                    (Z.to_nat (Gather.targetLimit job)))
             /\ eventsSince s
                  (Gather.server
                     (Gather.exec job run
                        {| Gather.server := s; Gather.emittedCount := 0 |}))
                = map (gatherRecord job)
                    (filter (gatherCandidate job)
                       (untilFull job (pagesOf (untilStop (Gather.jobId job) run))
                          (Z.to_nat (Gather.targetLimit job))))).
  { intros job run s Hreg. split.
    - rewrite gather_enqueued_trace by exact Hreg. simpl. now rewrite Z.sub_0_r.
    - apply eventsSince_app. rewrite gather_exec_trace by exact Hreg. simpl.
      now rewrite Z.sub_0_r, untilFull_records. }
  split; [exact Hwhole|]. split.
  - intros job ticks s Hreg st f pages. subst st f pages.
    destruct (Hwhole job (actionsOf ticks) s Hreg) as [Hcalls Hrecords].
    assert (Hall : flat_map callsOf
                     (invocations
                        (fineExec job ticks
                           (fineStart {| Gather.server := s; Gather.emittedCount := 0 |})))
                   = flat_map gatherMined
                       (untilFull job
                          (pagesOf (untilStop (Gather.jobId job) (actionsOf ticks)))
                          (Z.to_nat (Gather.targetLimit job)))).
    { rewrite fine_exec_calls. simpl. exact Hcalls. }
    split; [apply fine_exec_state|].
    split; [rewrite fine_exec_state; exact Hrecords|].
    split; [exact Hall|].
    intros Hsettled. rewrite settled_calls by exact Hsettled. exact Hall.
  - split; [reflexivity|]. split; reflexivity.
Qed.

(** A results page with two links, a stop request while the first call
    is awaited, then the rest of the loop: both links are enqueued, as
    the invocation began before the stop.  A results page handled after
    a matching page has filled a limit of 1 is not mined. *)
Lemma X23_witness :
  let job := {| Gather.jobId := "1700000000000"; Gather.searchTopic := "rust";
                Gather.searchKeywords := ""; Gather.targetLimit := 1;
                Gather.normalizedSelectors := [] |} in
  let s := register "1700000000000"
             {| maxRequestsPerCrawl := 5; requestHandlerTimeoutSecs := Some 45%Z |}
             emptyServer in
  let st := {| Gather.server := s; Gather.emittedCount := 0 |} in
  map madeCall
    (callsMade
       (fineExec job
          [Invoke "https://duckduckgo.com/html/?q=rust&s=0" "t0"
             (pageOfResults ["https://a.test/"; "https://b.test/"]);
           Stopped "1700000000000";
           Resume 0;
           Resume 0;
           Invoke "https://duckduckgo.com/html/?q=rust&s=30" "t1"
             (pageOfResults ["https://c.test/"])]
          (fineStart st)))
  = [EnqueueUrl "https://a.test/" "DETAIL"; EnqueueUrl "https://b.test/" "DETAIL"]
  /\ gatherEnqueued job
       [Handle "https://duckduckgo.com/html/?q=rust&s=0" "t0"
          (pageOfResults ["https://a.test/"]);
        Handle "https://a.test/" "t1" repeatingPage;
        Handle "https://duckduckgo.com/html/?q=rust&s=30" "t2"
          (pageOfResults ["https://b.test/"])]
       st
     = [EnqueueUrl "https://a.test/" "DETAIL"].
Proof.
  intros job s st. split.
  - etransitivity; [exact (proj2 (proj2 (proj2 (proj1 (proj2 X23_gather_enqueues_until_full) job
                      [Invoke "https://duckduckgo.com/html/?q=rust&s=0" "t0"
                         (pageOfResults ["https://a.test/"; "https://b.test/"]);
                       Stopped "1700000000000";
                       Resume 0;
                       Resume 0;
                       Invoke "https://duckduckgo.com/html/?q=rust&s=30" "t1"
                         (pageOfResults ["https://c.test/"])]
                      s eq_refl))) eq_refl)|].
    reflexivity.
  - etransitivity; [exact (proj1 (proj1 X23_gather_enqueues_until_full job
                      [Handle "https://duckduckgo.com/html/?q=rust&s=0" "t0"
                         (pageOfResults ["https://a.test/"]);
                       Handle "https://a.test/" "t1" repeatingPage;
                       Handle "https://duckduckgo.com/html/?q=rust&s=30" "t2"
                         (pageOfResults ["https://b.test/"])]
                      s eq_refl))|].
    reflexivity.
Defined.
